(** * Aurras dataset generator: a shallow embedding of [aurras/dataset/dataset.py]

    The [Dataset] class loads entity and intent files, fills the placeholders
    of the intent templates, expands every template into the Cartesian product
    of its slots, redistributes the entity labels word by word, samples the
    expanded utterances per intent and stores the result.

    Python values are modelled as follows.
    - [str] is [string]; a character is a code point below 256.
    - [int] is [Z].
    - [dict] is an insertion-ordered association list with unique keys
      ([Dict.t]); assigning to a key that is present replaces the value in
      place, as CPython does.
    - [self] and the outside world (standard output, the file system, the
      state of the [random] module) are threaded through a state-and-exception
      monad; an exception carries the state it left behind.
    - The file system is what the code asks of it: which paths are
      directories, which files a glob pattern matches and what their lines
      are, what opening a path for writing raises, if anything, and which
      files have been written.  Whether a file can be opened is the answer of
      the world for that very path, file by file.  Reading a matched file
      does not fail, and neither does the write to a file that is open.
    - [random.choices] takes its indices from an abstract source
      ([RandomSource]); pandas and json are kept as the values handed to
      them. *)

From Stdlib Require Import List String Ascii ZArith Lia Bool Arith DecimalString.
Import ListNotations.

Local Open Scope string_scope.
Local Open Scope nat_scope.
Local Open Scope list_scope.

(** ** Python strings *)

Module Str.

(** [str.isspace] on one character, for code points below 256: the ASCII
    controls 9-13 and 28-31, the blank, NEL (133) and the no-break space
    (160). *)
Definition isspace (c : ascii) : bool :=
  let n := nat_of_ascii c in
  ((9 <=? n) && (n <=? 13)) || ((28 <=? n) && (n <=? 32))
  || (n =? 133) || (n =? 160).

(** A word is built from characters that are not white space. *)
Fixpoint no_space (s : string) : bool :=
  match s with
  | EmptyString => true
  | String c s' => negb (isspace c) && no_space s'
  end.

Definition is_empty (s : string) : bool :=
  match s with EmptyString => true | _ => false end.

Definition is_word (s : string) : bool := negb (is_empty s) && no_space s.

(** [flush acc ws]: close the word read so far, if there is one. *)
Definition flush (acc : string) (ws : list string) : list string :=
  if is_empty acc then ws else acc :: ws.

(** [s.split()] with no argument: maximal runs of characters that are not
    white space.  [acc] is the run being read. *)
Fixpoint split_from (acc s : string) : list string :=
  match s with
  | EmptyString => flush acc []
  | String c s' =>
      if isspace c then flush acc (split_from EmptyString s')
      else split_from (acc ++ String c EmptyString)%string s'
  end.

Definition split (s : string) : list string := split_from EmptyString s.

(** [s.split(" ")]: cut at every blank, empty pieces kept. *)
Fixpoint split_on_from (sep : ascii) (acc s : string) : list string :=
  match s with
  | EmptyString => [acc]
  | String c s' =>
      if Ascii.eqb c sep then acc :: split_on_from sep EmptyString s'
      else split_on_from sep (acc ++ String c EmptyString)%string s'
  end.

Definition split_on (sep : ascii) (s : string) : list string :=
  split_on_from sep EmptyString s.

(** [sep.join(l)] *)
Definition join (sep : string) (l : list string) : string :=
  String.concat sep l.

Definition startswith_char (c : ascii) (s : string) : bool :=
  match s with
  | String c' _ => Ascii.eqb c' c
  | EmptyString => false
  end.

Fixpoint endswith_char (c : ascii) (s : string) : bool :=
  match s with
  | EmptyString => false
  | String c' EmptyString => Ascii.eqb c' c
  | String _ s' => endswith_char c s'
  end.

Fixpoint drop_last (s : string) : string :=
  match s with
  | EmptyString => EmptyString
  | String _ EmptyString => EmptyString
  | String c s' => String c (drop_last s')
  end.

(** [s[1:-1]] *)
Definition slice_1_m1 (s : string) : string :=
  match s with
  | EmptyString => EmptyString
  | String _ s' => drop_last s'
  end.

Fixpoint lstrip (s : string) : string :=
  match s with
  | EmptyString => EmptyString
  | String c s' => if isspace c then lstrip s' else s
  end.

Fixpoint rstrip (s : string) : string :=
  match s with
  | EmptyString => EmptyString
  | String c s' =>
      let r := rstrip s' in
      if isspace c && is_empty r then EmptyString else String c r
  end.

(** [s.strip()] *)
Definition strip (s : string) : string := rstrip (lstrip s).

(** [str.lower] on one code point below 256: A-Z and the Latin-1 capitals
    192-222 (the multiplication sign 215 apart) move up by 32. *)
Definition lower_char (c : ascii) : ascii :=
  let n := nat_of_ascii c in
  if ((65 <=? n) && (n <=? 90))
     || ((192 <=? n) && (n <=? 222) && negb (n =? 215))
  then ascii_of_nat (n + 32) else c.

Fixpoint lower (s : string) : string :=
  match s with
  | EmptyString => EmptyString
  | String c s' => String (lower_char c) (lower s')
  end.

Definition dquote : string := String (ascii_of_nat 34) EmptyString.

(** [str(n)] for an integer that is not negative (a length). *)
Definition of_nat (n : nat) : string :=
  NilEmpty.string_of_uint (Nat.to_uint n).

End Str.

(** ** Python dictionaries *)

Module Dict.
Section Ops.
Context {K V : Type} (eq_dec : forall x y : K, {x = y} + {x <> y}).

Definition t : Type := list (K * V).

(** [d[k]], [None] standing for [KeyError] *)
Fixpoint get (k : K) (d : t) : option V :=
  match d with
  | [] => None
  | (k', v) :: d' => if eq_dec k k' then Some v else get k d'
  end.

(** [d[k] = v]: a present key keeps its place, a new one goes last. *)
Fixpoint set (k : K) (v : V) (d : t) : t :=
  match d with
  | [] => [(k, v)]
  | (k', v') :: d' =>
      if eq_dec k k' then (k, v) :: d' else (k', v') :: set k v d'
  end.

Definition keys (d : t) : list K := map fst d.
Definition values (d : t) : list V := map snd d.
End Ops.
End Dict.

Definition sdict (V : Type) : Type := @Dict.t string V.
Definition zdict (V : Type) : Type := @Dict.t Z V.

Definition sget {V} (k : string) (d : sdict V) : option V :=
  Dict.get string_dec k d.
Definition sset {V} (k : string) (v : V) (d : sdict V) : sdict V :=
  Dict.set string_dec k v d.
Definition zset {V} (k : Z) (v : V) (d : zdict V) : zdict V :=
  Dict.set Z.eq_dec k v d.

(** ** Data *)

(** A (word, entityLabel) pair. *)
Definition labelled : Type := (string * Z)%type.

(** One record of [self.dataset]. *)
Record Example : Type := mkExample {
  prompts : string;
  prompt_intent : Z;
  word_entities : list Z
}.

(** A file that [glob.glob] returned: the stem of its path, and the lines
    that [readlines] gives. *)
Record File : Type := mkFile {
  stem : string;
  lines : list string
}.

(** What [save] hands to a file: a label map for [json.dump], or the data
    frame built from [self.dataset]. *)
Inductive Content : Type :=
| JsonMap (labels : zdict string)
| Frame (rows : list Example).

Inductive exn : Type :=
| KeyError (key : string)
| IndexError
| ValueError (value : string)
| OSError (path : string).

(** The [random] module.  [random.choices] computes an index as
    [floor(random() * n)] in floating point; the model takes the index from
    an abstract source, which for a population that is not empty stays below
    its size. *)
Class RandomSource : Type := {
  rng : Type;
  randindex : nat -> rng -> nat * rng;
  randindex_lt : forall n g, 0 < n -> fst (randindex n g) < n
}.

Section Pipeline.

Context {RS : RandomSource}.

(** The fields of [self]. *)
Record Dataset : Type := mkDataset {
  dataset_path : string;
  samples_per_intent : Z;
  duplicates : bool;
  entities : sdict (list labelled);
  entities_label : zdict string;
  intents : sdict (list string);
  intents_label : zdict string;
  filled_prompts : sdict (list (list (list labelled)));
  premutated_prompts : sdict (list (list labelled));
  generated_prompts : sdict (list (list labelled));
  dataset : list Example
}.

(** The world around the object: what [print] wrote, the directories and
    files that exist, the exception that [open(path, "w")] raises for a path
    ([None] when the file can be opened), the files written so far, the
    random state. *)
Record Env : Type := mkEnv {
  stdout : list string;
  isdir : string -> bool;
  glob : string -> list File;
  open_error : string -> option exn;
  written : list (string * Content);
  random_state : rng
}.

Record State : Type := mkState { self : Dataset; env : Env }.

Definition with_entities v (d : Dataset) : Dataset :=
  mkDataset (dataset_path d) (samples_per_intent d) (duplicates d)
    v (entities_label d) (intents d) (intents_label d)
    (filled_prompts d) (premutated_prompts d) (generated_prompts d) (dataset d).
Definition with_entities_label v (d : Dataset) : Dataset :=
  mkDataset (dataset_path d) (samples_per_intent d) (duplicates d)
    (entities d) v (intents d) (intents_label d)
    (filled_prompts d) (premutated_prompts d) (generated_prompts d) (dataset d).
Definition with_intents v (d : Dataset) : Dataset :=
  mkDataset (dataset_path d) (samples_per_intent d) (duplicates d)
    (entities d) (entities_label d) v (intents_label d)
    (filled_prompts d) (premutated_prompts d) (generated_prompts d) (dataset d).
Definition with_intents_label v (d : Dataset) : Dataset :=
  mkDataset (dataset_path d) (samples_per_intent d) (duplicates d)
    (entities d) (entities_label d) (intents d) v
    (filled_prompts d) (premutated_prompts d) (generated_prompts d) (dataset d).
Definition with_filled_prompts v (d : Dataset) : Dataset :=
  mkDataset (dataset_path d) (samples_per_intent d) (duplicates d)
    (entities d) (entities_label d) (intents d) (intents_label d)
    v (premutated_prompts d) (generated_prompts d) (dataset d).
Definition with_premutated_prompts v (d : Dataset) : Dataset :=
  mkDataset (dataset_path d) (samples_per_intent d) (duplicates d)
    (entities d) (entities_label d) (intents d) (intents_label d)
    (filled_prompts d) v (generated_prompts d) (dataset d).
Definition with_generated_prompts v (d : Dataset) : Dataset :=
  mkDataset (dataset_path d) (samples_per_intent d) (duplicates d)
    (entities d) (entities_label d) (intents d) (intents_label d)
    (filled_prompts d) (premutated_prompts d) v (dataset d).
Definition with_dataset v (d : Dataset) : Dataset :=
  mkDataset (dataset_path d) (samples_per_intent d) (duplicates d)
    (entities d) (entities_label d) (intents d) (intents_label d)
    (filled_prompts d) (premutated_prompts d) (generated_prompts d) v.

Definition with_stdout v (e : Env) : Env :=
  mkEnv v (isdir e) (glob e) (open_error e) (written e) (random_state e).
Definition with_written v (e : Env) : Env :=
  mkEnv (stdout e) (isdir e) (glob e) (open_error e) v (random_state e).
Definition with_random_state v (e : Env) : Env :=
  mkEnv (stdout e) (isdir e) (glob e) (open_error e) (written e) v.

(** *** The monad: state, and exceptions that keep the state *)

Inductive outcome (A : Type) : Type :=
| Ok (a : A) (s : State)
| Raise (e : exn) (s : State).
Arguments Ok {A} a s.
Arguments Raise {A} e s.

Definition M (A : Type) : Type := State -> outcome A.

Definition ret {A} (a : A) : M A := fun s => Ok a s.
Definition bind {A B} (m : M A) (k : A -> M B) : M B :=
  fun s => match m s with
           | Ok a s' => k a s'
           | Raise e s' => Raise e s'
           end.
Definition raise {A} (e : exn) : M A := fun s => Raise e s.
Definition get_self : M Dataset := fun s => Ok (self s) s.
Definition update_self (f : Dataset -> Dataset) : M unit :=
  fun s => Ok tt (mkState (f (self s)) (env s)).
Definition update_env (f : Env -> Env) : M unit :=
  fun s => Ok tt (mkState (self s) (f (env s))).
Definition or_raise {A} (e : exn) (o : option A) : M A :=
  match o with Some a => ret a | None => raise e end.

(** The state an outcome leaves behind. *)
Definition final {A} (o : outcome A) : State :=
  match o with Ok _ s => s | Raise _ s => s end.

End Pipeline.

Arguments Ok {RS A} a s.
Arguments Raise {RS A} e s.

Declare Scope py_scope.
Delimit Scope py_scope with py.
Notation "x <- m ;; k" := (bind m (fun x => k))
  (at level 100, m at next level, right associativity) : py_scope.
Notation "m ;;; k" := (bind m (fun _ => k))
  (at level 100, right associativity) : py_scope.

Local Open Scope py_scope.

(** ** The pure parts of the methods *)

(** *** [_load_raw] *)

(** What [samples.append] receives: a pair when ids are assigned, the line
    otherwise. *)
Definition sample_t (assign_ids : bool) : Type :=
  if assign_ids then labelled else string.

Definition mk_sample (assign_ids : bool) (line : string) (start_id : Z)
  : sample_t assign_ids :=
  match assign_ids with
  | true => (Str.strip (Str.lower line), start_id)
  | false => Str.strip (Str.lower line)
  end.

Definition is_comment (line : string) : bool := Str.startswith_char "#" line.

(** The inner loop over [f.readlines()]. *)
Definition read_samples (assign_ids : bool) (start_id : Z) (ls : list string)
  : list (sample_t assign_ids) :=
  map (fun line => mk_sample assign_ids line start_id)
      (filter (fun line => negb (is_comment line)) ls).

(** The loop over [files_path], from the current [start_id] and [data]. *)
Fixpoint load_raw_loop (assign_ids : bool) (files : list File) (start_id : Z)
  (data : sdict (list (sample_t assign_ids))) : sdict (list (sample_t assign_ids)) :=
  match files with
  | [] => data
  | file :: rest =>
      let name := stem file in
      let samples := read_samples assign_ids start_id (lines file) in
      load_raw_loop assign_ids rest (start_id + 1) (sset name samples data)
  end.

Definition _load_raw (files_path : list File) (assign_ids : bool)
  : sdict (list (sample_t assign_ids)) :=
  load_raw_loop assign_ids files_path 1 [].

(** *** [_generate_mapping] *)

Fixpoint mapping_loop (items : list string) (counter : Z) (labels : zdict string)
  : zdict string :=
  match items with
  | [] => labels
  | item :: rest => mapping_loop rest (counter + 1) (zset counter item labels)
  end.

Definition _generate_mapping {V} (data : sdict V) (start_at : Z) : zdict string :=
  mapping_loop (Dict.keys data) start_at [].

(** *** [_slot_filling]: one word, one template *)

Definition is_placeholder (word : string) : bool :=
  Str.startswith_char "{" word && Str.endswith_char "}" word.

(** The conditional expression of the comprehension; [inl] is the exception
    that [self.entities[...]] raises. *)
Definition fill_word (ents : sdict (list labelled)) (word : string)
  : exn + list labelled :=
  if is_placeholder word then
    match sget (Str.slice_1_m1 word) ents with
    | Some values => inr values
    | None => inl (KeyError (Str.slice_1_m1 word))
    end
  else inr [(word, 0%Z)].

(** The list comprehension over the words, left to right. *)
Fixpoint fill_words (ents : sdict (list labelled)) (words : list string)
  : exn + list (list labelled) :=
  match words with
  | [] => inr []
  | word :: rest =>
      match fill_word ents word with
      | inl e => inl e
      | inr slot =>
          match fill_words ents rest with
          | inl e => inl e
          | inr slots => inr (slot :: slots)
          end
      end
  end.

Definition fill_sample (ents : sdict (list labelled)) (sample : string)
  : exn + list (list labelled) :=
  fill_words ents (Str.split sample).

(** *** [_permutation_generation] *)

(** [itertools.product] over the unpacked pools, the last pool running
    fastest. *)
Fixpoint product {A} (pools : list (list A)) : list (list A) :=
  match pools with
  | [] => [[]]
  | pool :: rest => flat_map (fun x => map (cons x) (product rest)) pool
  end.

(** [permutations] once the loop over the samples of a category is done. *)
Definition permutations_of (samples : list (list (list labelled)))
  : list (list labelled) :=
  flat_map product samples.

(** *** [_distributed_entities_label] *)

Definition distribute_word (word : labelled) : list labelled :=
  if Str.is_empty (fst word) then []
  else map (fun w => (w, snd word)) (Str.split (fst word)).

Definition distribute_sample (sample : list labelled) : list labelled :=
  flat_map distribute_word sample.

Definition category_prompts_of (samples : list (list labelled))
  : list (list labelled) :=
  map distribute_sample samples.

(** *** [_generate_dataset] *)

(** [l.index(x)] *)
Fixpoint list_index (x : string) (l : list string) : option nat :=
  match l with
  | [] => None
  | y :: l' =>
      if string_dec y x then Some 0
      else option_map S (list_index x l')
  end.

Definition shortfall_message (category : string) (available : nat) : string :=
  ("not enough " ++ Str.dquote ++ category ++ Str.dquote
   ++ " intents were generated from templates.  Limiting number of samples to "
   ++ Str.of_nat available)%string.

Definition missing_directory_message : string := "Dataset directory does not exist".

(** ** The methods of [Dataset] *)

Section Methods.

Context {RS : RandomSource}.

Definition get_env : M Env := fun s => Ok (env s) s.

Definition of_sum {A} (r : exn + A) : M A :=
  match r with inl e => raise e | inr a => ret a end.

(** A [for] loop over a list that the body does not change. *)
Fixpoint for_each {A} (l : list A) (body : A -> M unit) : M unit :=
  match l with
  | [] => ret tt
  | x :: rest => body x ;;; for_each rest body
  end.

Definition print (msg : string) : M unit :=
  update_env (fun e => with_stdout (stdout e ++ [msg]) e).

Definition __init__ (path : string) (samples : Z) (dup : bool) : Dataset :=
  mkDataset path samples dup [] [] [] [] [] [] [] [].

Definition load : M unit :=
  d <- get_self ;;
  e <- get_env ;;
  if negb (isdir e (dataset_path d)) then print missing_directory_message
  else
    let entity_files := glob e (dataset_path d ++ "/*/entities/*.entity")%string in
    update_self (with_entities (_load_raw entity_files true)) ;;;
    update_self (fun d => with_entities_label (_generate_mapping (entities d) 1) d) ;;;
    let intent_files := glob e (dataset_path d ++ "/*/intents/*.intent")%string in
    update_self (with_intents (_load_raw intent_files false)) ;;;
    update_self (fun d => with_intents_label (_generate_mapping (intents d) 0) d).

(** [self.filled_prompts[intent].append(<comprehension over sample>)] *)
Definition fill_and_append (intent sample : string) : M unit :=
  d <- get_self ;;
  cur <- or_raise (KeyError intent) (sget intent (filled_prompts d)) ;;
  slots <- of_sum (fill_sample (entities d) sample) ;;
  update_self (with_filled_prompts (sset intent (cur ++ [slots]) (filled_prompts d))).

Definition _slot_filling : M unit :=
  d0 <- get_self ;;
  for_each (Dict.keys (intents d0)) (fun intent =>
    update_self (fun d => with_filled_prompts (sset intent [] (filled_prompts d)) d) ;;;
    d <- get_self ;;
    samples <- or_raise (KeyError intent) (sget intent (intents d)) ;;
    for_each samples (fill_and_append intent)).

Definition _permutation_generation : M unit :=
  d0 <- get_self ;;
  for_each (Dict.keys (filled_prompts d0)) (fun category =>
    d <- get_self ;;
    samples <- or_raise (KeyError category) (sget category (filled_prompts d)) ;;
    update_self
      (with_premutated_prompts
         (sset category (permutations_of samples) (premutated_prompts d)))).

Definition _distributed_entities_label : M unit :=
  d0 <- get_self ;;
  for_each (Dict.keys (premutated_prompts d0)) (fun category =>
    d <- get_self ;;
    samples <- or_raise (KeyError category) (sget category (premutated_prompts d)) ;;
    update_self
      (with_generated_prompts
         (sset category (category_prompts_of samples) (generated_prompts d)))).

Definition random_index (n : nat) : M nat :=
  fun s =>
    let (i, g) := randindex n (random_state (env s)) in
    Ok i (mkState (self s) (with_random_state g (env s))).

(** [random.choices(population, k=k)] with no weights: [k] times, an index
    from the source and the element at that index. *)
Fixpoint choices {A} (population : list A) (k : nat) : M (list A) :=
  match k with
  | O => ret []
  | S k' =>
      i <- random_index (List.length population) ;;
      x <- or_raise IndexError (nth_error population i) ;;
      rest <- choices population k' ;;
      ret (x :: rest)
  end.

Definition example_of (sample : list labelled) (index : nat) : Example :=
  mkExample (Str.join " " (map fst sample)) (Z.of_nat index) (map snd sample).

(** [self.dataset.append({...})] for one of the samples *)
Definition append_example (category : string) (sample : list labelled) : M unit :=
  d <- get_self ;;
  index <- or_raise (ValueError category)
             (list_index category (Dict.values (intents_label d))) ;;
  update_self (with_dataset (dataset d ++ [example_of sample index])).

(** The body of the loop of [_generate_dataset]. *)
Definition sample_category (category : string) : M unit :=
  d <- get_self ;;
  available <- or_raise (KeyError category) (sget category (generated_prompts d)) ;;
  samples <-
    (if negb (duplicates d)
        && (Z.of_nat (List.length available) <? samples_per_intent d)%Z
     then
       print (shortfall_message category (List.length available)) ;;;
       ret available
     else choices available (Z.to_nat (samples_per_intent d))) ;;
  for_each samples (append_example category).

Definition _generate_dataset : M unit :=
  d0 <- get_self ;;
  for_each (Dict.keys (generated_prompts d0)) sample_category.

Definition genrate_dataset : M unit :=
  _slot_filling ;;;
  _permutation_generation ;;;
  _distributed_entities_label ;;;
  _generate_dataset.

(** [open(path, "w")] and the write that follows, for the path
    [dir + name]: the world says whether this file can be opened, and what
    [open] raises when it cannot. *)
Definition write_file (dir name : string) (c : Content) : M unit :=
  e <- get_env ;;
  let path := (dir ++ name)%string in
  match open_error e path with
  | None => update_env (with_written (written e ++ [(path, c)]))
  | Some x => raise x
  end.

Definition _save_maps (save_path : string) : M unit :=
  d <- get_self ;;
  write_file save_path "/intent_labels.json" (JsonMap (intents_label d)) ;;;
  write_file save_path "/entity_labels.json" (JsonMap (entities_label d)).

Definition save (save_path : option string) (form : string) : M unit :=
  d <- get_self ;;
  let save_path :=
    match save_path with None => dataset_path d | Some p => p end in
  _save_maps save_path ;;;
  let dataframe := Frame (dataset d) in
  if string_dec form "csv" then write_file save_path "/dataset.csv" dataframe
  else if string_dec form "pkl" then write_file save_path "/dataset.pkl" dataframe
  else write_file save_path "/dataset.json" dataframe.

(** What the script at the end of the file does, for any path,
    configuration and place to save to. *)
Definition session (path : string) (samples : Z) (dup : bool)
  (save_path : option string) (form : string) (e : Env) : outcome unit :=
  (load ;;; genrate_dataset ;;; save save_path form)
    (mkState (__init__ path samples dup) e).

(** The script itself: the output goes to the dataset directory, as csv. *)
Definition main (path : string) (samples : Z) (dup : bool) (e : Env)
  : outcome unit :=
  session path samples dup (Some path) "csv" e.

End Methods.

(** The object after [__init__] and [load], in a given world. *)
Definition loaded {RS : RandomSource} (path : string) (samples : Z) (dup : bool)
  (e : Env) : State :=
  final (load (mkState (__init__ path samples dup) e)).

(** ** A random source to run the model with

    The state is a tape of raw numbers; a draw takes the next one, reduced
    modulo the size of the population.  Every sequence of indices below the
    size can be put on the tape. *)

Definition tape_index (n : nat) (g : list nat) : nat * list nat :=
  match g with
  | [] => (0, [])
  | r :: g' => (r mod n, g')
  end.

#[export] Instance tape_source : RandomSource.
Proof.
  refine {| rng := list nat; randindex := tape_index |}.
  intros n [|r g] Hn; simpl; [assumption | apply Nat.mod_upper_bound; lia].
Defined.

(** The two scenarios of the documentation: a dataset directory with the
    entity groups [song] and [city] and the intents [play] and [weather]. *)
Definition nl : string := String (ascii_of_nat 10) EmptyString.

Definition demo_glob (pattern : string) : list File :=
  if string_dec pattern "ds/*/entities/*.entity" then
    [ mkFile "song" [("Yesterday" ++ nl)%string; ("# a comment" ++ nl)%string; "Let it be"];
      mkFile "city" [("New York" ++ nl)%string; nl] ]
  else if string_dec pattern "ds/*/intents/*.intent" then
    [ mkFile "play" ["play {song}"];
      mkFile "weather" [("weather in {city}" ++ nl)%string] ]
  else [].

(** In the scenarios [ds] is the only directory, and the files that [save]
    writes there are the only ones that can be opened. *)
Definition demo_isdir (path : string) : bool := String.eqb path "ds".

Definition demo_open (path : string) : option exn :=
  if existsb (String.eqb path)
       ["ds/intent_labels.json"; "ds/entity_labels.json";
        "ds/dataset.csv"; "ds/dataset.pkl"; "ds/dataset.json"]
  then None
  else Some (OSError path).

Definition demo_env (tape : list nat) : Env :=
  mkEnv [] demo_isdir demo_glob demo_open [] tape.

(** ** Definitions used by the statements *)

(** What a loop of the form [for k in src: dst[k] = f(src[k])] leaves in
    [dst]. *)
Definition assign_all {V W} (f : V -> W) (src : sdict V) (ks : list string)
  (dst : sdict W) : sdict W :=
  fold_left
    (fun acc k => match sget k src with
                  | Some v => sset k (f v) acc
                  | None => acc
                  end)
    ks dst.

(** The product of the sizes of the slots. *)
Definition size_product {A} (slots : list (list A)) : nat :=
  fold_right Nat.mul 1 (map (@List.length A) slots).

(** The object after [load] in the world of the scenarios. *)
Definition demo_loaded (samples : Z) (dup : bool) (tape : list nat) : State :=
  loaded "ds" samples dup (demo_env tape).

(** The same object once the slots are filled. *)
Definition demo_filled (samples : Z) (dup : bool) (tape : list nat) : State :=
  final (_slot_filling (demo_loaded samples dup tape)).

(** An object whose only intent has a blank line for a template. *)
Definition blank_filled : State :=
  final (_slot_filling
           (mkState (with_intents [("blank", [""])] (__init__ "ds" 5 false))
                    (demo_env []))).

(** The indices that [k] successive draws over a population of size [n]
    take from the random source, and the state they leave it in. *)
Fixpoint draws {RS : RandomSource} (n k : nat) (g : rng) : list nat * rng :=
  match k with
  | O => ([], g)
  | S k' =>
      let (i, g1) := randindex n g in
      let (rest, g2) := draws n k' g1 in
      (i :: rest, g2)
  end.

(** An intent file without a line: the intent has no utterance at all. *)
Definition silent_glob (pattern : string) : list File :=
  if string_dec pattern "ds/*/intents/*.intent" then [mkFile "silent" []]
  else [].

Definition silent_loaded (samples : Z) (dup : bool) : State :=
  loaded "ds" samples dup
    (mkEnv [] demo_isdir silent_glob demo_open [] []).

(** [fills ents sample]: every placeholder of the template names a loaded
    entity group, so that the comprehension of [_slot_filling] evaluates. *)
Definition fills (ents : sdict (list labelled)) (sample : string) : Prop :=
  exists slots, fill_sample ents sample = inr slots.

(** Two states that differ in [filled_prompts] at most. *)
Definition only_filled {RS : RandomSource} (s s' : State) : Prop :=
  exists fp, s' = mkState (with_filled_prompts fp (self s)) (env s).

(** The scenario, with an intent whose template names an entity group that
    no file defines. *)
Definition unknown_glob (pattern : string) : list File :=
  if string_dec pattern "ds/*/intents/*.intent" then
    [ mkFile "play" ["play {song}"];
      mkFile "call" ["call {contact} now"] ]
  else demo_glob pattern.

Definition unknown_loaded : State :=
  loaded "ds" 5 false (mkEnv [] demo_isdir unknown_glob demo_open [] []).

(** An utterance all of whose entries are words: not empty, no white
    space. *)
Definition words_only (u : list labelled) : Prop :=
  Forall (fun p => Str.is_word (fst p) = true) u.



(** A property [U] of every labelled utterance, category by category, and
    a property [X] of every Example of the dataset. *)
Definition entrywise {RS : RandomSource}
  (U : string -> list labelled -> Prop) (X : Example -> Prop) (s : State) : Prop :=
  (forall category us,
      In (category, us) (generated_prompts (self s)) -> Forall (U category) us)
  /\ Forall X (dataset (self s)).


(** Two outcomes that agree on everything but the world: both return, or
    both raise the same exception, and they leave the object in the same
    state. *)
Definition same_result {RS : RandomSource} {A} (o1 o2 : outcome A) : Prop :=
  match o1, o2 with
  | Ok a1 s1, Ok a2 s2 => a1 = a2 /\ self s1 = self s2
  | Raise e1 s1, Raise e2 s2 => e1 = e2 /\ self s1 = self s2
  | _, _ => False
  end.

(** Duplicates are disallowed and every category has fewer labelled
    utterances than the quota: the sampler will make no draw. *)
Definition all_short {RS : RandomSource} (d : Dataset) : Prop :=
  duplicates d = false
  /\ forall category us,
       In (category, us) (generated_prompts d) ->
       (Z.of_nat (List.length us) < samples_per_intent d)%Z.

(** The object after [_permutation_generation] and
    [_distributed_entities_label]. *)
Definition expanded {RS : RandomSource} (d : Dataset) : Dataset :=
  let permuted :=
    with_premutated_prompts
      (assign_all permutations_of (filled_prompts d)
         (Dict.keys (filled_prompts d)) (premutated_prompts d)) d in
  with_generated_prompts
    (assign_all category_prompts_of (premutated_prompts permuted)
       (Dict.keys (premutated_prompts permuted)) (generated_prompts permuted))
    permuted.

(** Every entity group carries one id, at least 1, on all its values. *)
Definition group_ids (ents : sdict (list labelled)) : Prop :=
  forall name values,
    In (name, values) ents ->
    exists id, (1 <= id)%Z /\ Forall (fun p => snd p = id) values.

(** Where the pair chosen at a template position comes from: a literal
    token gives the token itself with label 0; a placeholder gives one of
    the values of the group it names, with the id of that group, which is
    at least 1. *)
Definition sourced (ents : sdict (list labelled)) (token : string)
  (choice : labelled) : Prop :=
  if is_placeholder token then
    exists values,
      sget (Str.slice_1_m1 token) ents = Some values
      /\ In choice values
      /\ (1 <= snd choice)%Z
      /\ Forall (fun p => snd p = snd choice) values
  else choice = (token, 0%Z).

(** An expanded utterance of a category: one sourced choice per token of
    one of the templates of the category. *)
Definition from_template (ents : sdict (list labelled)) (ints : sdict (list string))
  (category : string) (u : list labelled) : Prop :=
  exists templates template,
    sget category ints = Some templates
    /\ In template templates
    /\ Forall2 (sourced ents) (Str.split template) u.

(** A filled template of a category. *)
Definition filled_from (ents : sdict (list labelled)) (ints : sdict (list string))
  (category : string) (slots : list (list labelled)) : Prop :=
  exists templates template,
    sget category ints = Some templates
    /\ In template templates
    /\ fill_sample ents template = inr slots.

(** A labelled utterance, and an Example, of such an origin. *)
Definition labelled_from (ents : sdict (list labelled)) (ints : sdict (list string))
  (category : string) (g : list labelled) : Prop :=
  exists u, from_template ents ints category u /\ g = distribute_sample u.

Definition example_from (ents : sdict (list labelled)) (ints : sdict (list string))
  (ex : Example) : Prop :=
  exists category u,
    from_template ents ints category u
    /\ prompts ex = Str.join " " (map fst (distribute_sample u))
    /\ word_entities ex = map snd (distribute_sample u).

(** The groups and the label map that a list of files with pairwise
    distinct stems gives, numbered from [start]. *)
Fixpoint groups_from (start : Z) (files : list File) : sdict (list labelled) :=
  match files with
  | [] => []
  | file :: rest =>
      (stem file, read_samples true start (lines file)) :: groups_from (start + 1) rest
  end.

Fixpoint labels_from (start : Z) (items : list string) : zdict string :=
  match items with
  | [] => []
  | item :: rest => (start, item) :: labels_from (start + 1) rest
  end.

(** Entity files of two skills that both define [city], in the order
    [ds/travel/entities/city.entity], [ds/music/entities/song.entity],
    [ds/weather/entities/city.entity]. *)
Definition two_cities_glob (pattern : string) : list File :=
  if string_dec pattern "ds/*/entities/*.entity" then
    [ mkFile "city" ["paris"]; mkFile "song" ["yesterday"];
      mkFile "city" ["new york"] ]
  else if string_dec pattern "ds/*/intents/*.intent" then
    [ mkFile "weather" ["weather in {city}"] ]
  else [].

Definition two_cities_env : Env :=
  mkEnv [] demo_isdir two_cities_glob demo_open [] [].




(** No character of the string is a slash: a plain file name. *)
Fixpoint no_slash (s : string) : bool :=
  match s with
  | EmptyString => true
  | String c s' => negb (Ascii.eqb c "/") && no_slash s'
  end.

(** A file cannot be opened in a directory that does not exist: when [dir]
    is not the empty path and [os.path.isdir(dir)] is false, [open] raises
    for the path [dir + "/" + name] of every plain file name.  The empty
    path is apart: it is no directory, and [dir + "/" + name] is then a file
    of the root directory. *)
Definition no_file_without_directory {RS : RandomSource} (e : Env) : Prop :=
  forall dir name : string,
    dir <> "" -> isdir e dir = false -> no_slash name = true ->
    open_error e (dir ++ "/" ++ name) <> None.

(** A world with the root directory alone, in which the files of [save] can
    be opened there.  The empty path is no directory. *)
Definition root_open (path : string) : option exn :=
  if existsb (String.eqb path)
       ["/intent_labels.json"; "/entity_labels.json"; "/dataset.csv"]
  then None
  else Some (OSError path).

Definition root_env : Env :=
  mkEnv [] (fun p => String.eqb p "/") (fun _ => []) root_open [] [].
(** ** Further definitions used by the statements *)

(** The words and the labels of an utterance. *)
Definition words_of (u : list labelled) : list string := map fst u.
Definition labels_of (u : list labelled) : list Z := map snd u.

(** Every character of a string satisfies [P]. *)
Fixpoint all_chars (P : ascii -> bool) (s : string) : bool :=
  match s with
  | EmptyString => true
  | String c s' => P c && all_chars P s'
  end.

(** A character that [str.lower] leaves alone. *)
Definition is_lower_char (c : ascii) : bool := Ascii.eqb (Str.lower_char c) c.

(** The token [{name}]. *)
Definition placeholder (name : string) : string :=
  ("{" ++ name ++ "}")%string.

(** The stems of a list, each at its first occurrence. *)
Definition first_occurrences (l : list string) : list string :=
  fold_left (fun acc x => if in_dec string_dec x acc then acc else acc ++ [x]) l [].

(** The name of the dataset file that [save] writes for a format. *)
Definition dataset_file (form : string) : string :=
  if string_dec form "csv" then "/dataset.csv"
  else if string_dec form "pkl" then "/dataset.pkl"
  else "/dataset.json".

(** The directory that [save] writes to. *)
Definition save_dir (save_path : option string) (d : Dataset) : string :=
  match save_path with None => dataset_path d | Some p => p end.

(** The files that [save] opens, in the order in which it opens them, each
    with what is written to it. *)
Definition save_files (save_path : option string) (form : string) (d : Dataset)
  : list (string * Content) :=
  [ ((save_dir save_path d ++ "/intent_labels.json")%string,
     JsonMap (intents_label d));
    ((save_dir save_path d ++ "/entity_labels.json")%string,
     JsonMap (entities_label d));
    ((save_dir save_path d ++ dataset_file form)%string, Frame (dataset d)) ].

(** Opening the files of a list one after the other: the files before the
    first one that cannot be opened, and what [open] raises for that one. *)
Fixpoint opened {RS : RandomSource} (e : Env) (files : list (string * Content))
  : list (string * Content) :=
  match files with
  | [] => []
  | file :: rest =>
      match open_error e (fst file) with
      | None => file :: opened e rest
      | Some _ => []
      end
  end.

Fixpoint first_failure {RS : RandomSource} (e : Env)
  (files : list (string * Content)) : option exn :=
  match files with
  | [] => None
  | file :: rest =>
      match open_error e (fst file) with
      | None => first_failure e rest
      | Some x => Some x
      end
  end.

(** The scenario with the entity label map of [ds] write-protected: of the
    files of [save] only the first can be opened. *)
Definition protected_open (path : string) : option exn :=
  if String.eqb path "ds/entity_labels.json" then Some (OSError path)
  else demo_open path.

Definition protected_env : Env :=
  mkEnv [] demo_isdir demo_glob protected_open [] [].

(** An entity collection whose only group has no value. *)
Definition empty_city : sdict (list labelled) := [("city", [])].

(** The text of a loaded sample: the value of a pair, or the line itself. *)
Definition sample_text (assign_ids : bool) : sample_t assign_ids -> string :=
  match assign_ids with
  | true => fun pair => fst pair
  | false => fun line => line
  end.

(** [entrywise], with the intent label map fixed. *)
Definition indexed {RS : RandomSource} (labels : zdict string)
  (U : string -> list labelled -> Prop) (X : Example -> Prop) (t : State) : Prop :=
  intents_label (self t) = labels /\ entrywise U X t.

(** An Example of an intent: built from a choice per token of one of its
    templates, and carrying the key of the intent in the label map. *)
Definition example_of_intent (ents : sdict (list labelled)) (ints : sdict (list string))
  (labels : zdict string) (ex : Example) : Prop :=
  exists category u,
    from_template ents ints category u
    /\ prompts ex = Str.join " " (map fst (distribute_sample u))
    /\ word_entities ex = map snd (distribute_sample u)
    /\ Dict.get Z.eq_dec (prompt_intent ex) labels = Some category.

(** [t] is [s] after some generation: the loaded data, the configuration
    and the file system are the same, and the dataset and the output have
    only grown. *)
Definition extends {RS : RandomSource} (s t : State) : Prop :=
  open_error (env t) = open_error (env s)
  /\ dataset_path (self t) = dataset_path (self s)
  /\ samples_per_intent (self t) = samples_per_intent (self s)
  /\ duplicates (self t) = duplicates (self s)
  /\ entities (self t) = entities (self s)
  /\ entities_label (self t) = entities_label (self s)
  /\ intents (self t) = intents (self s)
  /\ intents_label (self t) = intents_label (self s)
  /\ isdir (env t) = isdir (env s)
  /\ glob (env t) = glob (env s)
  /\ written (env t) = written (env s)
  /\ (exists examples, dataset (self t) = dataset (self s) ++ examples)
  /\ (exists messages, stdout (env t) = stdout (env s) ++ messages).

(** The scenario after a first generation run, with the directory changed
    under the object: the intent [play] is gone when [load] is called
    again. *)
Definition weather_only_glob (pattern : string) : list File :=
  if string_dec pattern "ds/*/intents/*.intent" then
    [ mkFile "weather" ["weather in {city}"] ]
  else demo_glob pattern.

Definition reloaded : State :=
  let s1 := final (genrate_dataset (demo_loaded 5 false [])) in
  final (load (mkState (self s1)
                 (mkEnv (stdout (env s1)) demo_isdir
                    weather_only_glob demo_open [] []))).

(** The stages before sampling. *)
Definition expand {RS : RandomSource} : M unit :=
  _slot_filling ;;; _permutation_generation ;;; _distributed_entities_label.

(** The comprehension of [_slot_filling] over all the templates of an
    intent, in order, with the first exception. *)
Fixpoint fill_samples (ents : sdict (list labelled)) (samples : list string)
  : exn + list (list (list labelled)) :=
  match samples with
  | [] => inr []
  | sample :: rest =>
      match fill_sample ents sample with
      | inl e => inl e
      | inr slots =>
          match fill_samples ents rest with
          | inl e => inl e
          | inr filled => inr (slots :: filled)
          end
      end
  end.

(** The filled templates of an intent whose templates all fill. *)
Definition filled_of (ents : sdict (list labelled)) (samples : list string)
  : list (list (list labelled)) :=
  match fill_samples ents samples with
  | inr filled => filled
  | inl _ => []
  end.

(** Every placeholder of every template of every intent names a loaded
    entity group. *)
Definition all_known (ents : sdict (list labelled)) (ints : sdict (list string))
  : Prop :=
  forall intent samples sample word,
    sget intent ints = Some samples ->
    In sample samples ->
    In word (Str.split sample) ->
    is_placeholder word = true ->
    sget (Str.slice_1_m1 word) ents <> None.

(** The labelled utterances that the templates of an intent expand to. *)
Definition utterances_of (ents : sdict (list labelled)) (templates : list string)
  : list (list labelled) :=
  category_prompts_of (permutations_of (filled_of ents templates)).

(** The Examples of the intents, each intent with its position as index,
    counted from [index]; and the shortfall messages of the intents. *)
Fixpoint examples_from (ents : sdict (list labelled)) (index : nat)
  (ints : sdict (list string)) : list Example :=
  match ints with
  | [] => []
  | (_, templates) :: rest =>
      map (fun u => example_of u index) (utterances_of ents templates)
      ++ examples_from ents (S index) rest
  end.

Definition messages_from (ents : sdict (list labelled)) (ints : sdict (list string))
  : list string :=
  map (fun kv => shortfall_message (fst kv)
                   (List.length (utterances_of ents (snd kv))))
      ints.

(** One entry of a dictionary, its value changed by [f]. *)
Definition on_value {V W} (f : V -> W) (kv : string * V) : string * W :=
  (fst kv, f (snd kv)).

(** ** Running the model *)

Example split_ex1 :
  Str.split "  play   {song} now " = ["play"; "{song}"; "now"].
Proof. reflexivity. Qed.

Example split_ex2 : Str.split "" = [] /\ Str.split_on " " "" = [""].
Proof. split; reflexivity. Qed.

Example strip_lower_ex :
  Str.strip (Str.lower (" New York" ++ String (ascii_of_nat 10) "")%string) = "new york".
Proof. reflexivity. Qed.

Example of_nat_ex : Str.of_nat 0 = "0" /\ Str.of_nat 42 = "42".
Proof. split; reflexivity. Qed.

Example product_ex :
  product [[1; 2]; [3]; [4; 5]] = [[1; 3; 4]; [1; 3; 5]; [2; 3; 4]; [2; 3; 5]].
Proof. reflexivity. Qed.

Example distribute_ex :
  distribute_sample [("play", 0%Z); ("let it be", 1%Z); ("", 2%Z)]
  = [("play", 0%Z); ("let", 1%Z); ("it", 1%Z); ("be", 1%Z)].
Proof. reflexivity. Qed.


(** The scenarios of the documentation, run from [load] to the dataset:
    quota 5 without duplicates leaves every intent short. *)
Example demo_shortfall_run :
  dataset (self (final (genrate_dataset (demo_loaded 5 false []))))
  = [mkExample "play yesterday" 0 [0%Z; 1%Z];
     mkExample "play let it be" 0 [0%Z; 1%Z; 1%Z; 1%Z];
     mkExample "weather in new york" 1 [0%Z; 0%Z; 2%Z; 2%Z];
     mkExample "weather in" 1 [0%Z; 0%Z]]
  /\ stdout (env (final (genrate_dataset (demo_loaded 5 false []))))
     = [shortfall_message "play" 2; shortfall_message "weather" 2].
Proof. split; vm_compute; reflexivity. Qed.

Example demo_quota_run :
  map prompts
    (dataset (self (final (genrate_dataset (demo_loaded 3 true [0; 1; 5; 3])))))
  = ["play yesterday"; "play let it be"; "play let it be";
     "weather in"; "weather in new york"; "weather in new york"].
Proof. vm_compute; reflexivity. Qed.

Example demo_labels :
  entities_label (self (demo_loaded 5 false [])) = [(1%Z, "song"); (2%Z, "city")]
  /\ intents_label (self (demo_loaded 5 false [])) = [(0%Z, "play"); (1%Z, "weather")].
Proof. split; vm_compute; reflexivity. Qed.

(** ** Facts about strings *)

Module StrFacts.
Import Str.

Lemma append_nil_r (s : string) : (s ++ "")%string = s.
Proof. induction s; simpl; congruence. Qed.

Lemma append_assoc (a b c : string) :
  ((a ++ b) ++ c)%string = (a ++ (b ++ c))%string.
Proof. induction a; simpl; congruence. Qed.

Lemma append_snoc (a : string) (c : ascii) (b : string) :
  ((a ++ String c "") ++ b)%string = (a ++ String c b)%string.
Proof. rewrite append_assoc. reflexivity. Qed.

Lemma no_space_app (a b : string) :
  no_space (a ++ b) = no_space a && no_space b.
Proof.
  induction a as [|c a IH]; simpl; [reflexivity|].
  rewrite IH. apply andb_assoc.
Qed.

Lemma is_word_inv (w : string) :
  is_word w = true -> is_empty w = false /\ no_space w = true.
Proof.
  unfold is_word. intros H. apply andb_true_iff in H as [H1 H2].
  split; [now apply negb_true_iff in H1 | assumption].
Qed.

Lemma is_word_intro (w : string) :
  is_empty w = false -> no_space w = true -> is_word w = true.
Proof. unfold is_word. intros -> ->. reflexivity. Qed.

(** Reading a run of characters that are not white space only grows the
    word being read. *)
Lemma split_from_run (w acc rest : string) :
  no_space w = true ->
  split_from acc (w ++ rest) = split_from (acc ++ w) rest.
Proof.
  revert acc. induction w as [|c w IH]; intros acc Hw; simpl.
  - now rewrite append_nil_r.
  - simpl in Hw. apply andb_true_iff in Hw as [Hc Hw].
    apply negb_true_iff in Hc. rewrite Hc.
    rewrite IH by assumption. now rewrite append_snoc.
Qed.

Lemma split_from_words (s acc : string) :
  no_space acc = true -> Forall (fun w => is_word w = true) (split_from acc s).
Proof.
  revert acc. induction s as [|c s IH]; intros acc Hacc; simpl.
  - unfold flush. destruct (is_empty acc) eqn:E; constructor; auto.
    now apply is_word_intro.
  - destruct (isspace c) eqn:Hc.
    + unfold flush. destruct (is_empty acc) eqn:E.
      * now apply IH.
      * constructor; [now apply is_word_intro | now apply IH].
    + apply IH. rewrite no_space_app, Hacc. simpl. now rewrite Hc.
Qed.

(** Every token that [split] returns is a word. *)
Lemma split_words (s : string) : Forall (fun w => is_word w = true) (split s).
Proof. now apply split_from_words. Qed.

(** A word splits into itself. *)
Lemma split_word (w : string) : is_word w = true -> split w = [w].
Proof.
  intros H. apply is_word_inv in H as [He Hn]. unfold split.
  rewrite <- (append_nil_r w) at 1. rewrite split_from_run by assumption.
  simpl. unfold flush. now rewrite He.
Qed.

Lemma split_from_blank (acc rest : string) :
  split_from acc (String " " rest) = flush acc (split_from "" rest).
Proof. reflexivity. Qed.

Lemma join_cons2 (sep w w2 : string) (ws : list string) :
  join sep (w :: w2 :: ws) = (w ++ sep ++ join sep (w2 :: ws))%string.
Proof. reflexivity. Qed.

(** Words joined by single blanks split back into themselves. *)
Lemma split_join (ws : list string) :
  Forall (fun w => is_word w = true) ws -> split (join " " ws) = ws.
Proof.
  induction 1 as [|w ws Hw Hws IH]; [reflexivity|].
  destruct ws as [|w2 ws].
  - simpl. now apply split_word.
  - apply is_word_inv in Hw as [He Hn].
    rewrite join_cons2. unfold split in *.
    rewrite split_from_run by assumption.
    change (" " ++ join " " (w2 :: ws))%string
      with (String " " (join " " (w2 :: ws))).
    rewrite split_from_blank, IH. simpl. unfold flush. now rewrite He.
Qed.




End StrFacts.

(** ** Facts about dictionaries *)

Module DictFacts.
Section Facts.
Context {K V : Type} (eq_dec : forall x y : K, {x = y} + {x <> y}).

Local Abbreviation get := (Dict.get eq_dec).
Local Abbreviation set := (Dict.set eq_dec).

Lemma get_set_same (k : K) (v : V) d : get k (set k v d) = Some v.
Proof.
  induction d as [|[k' v'] d IH]; simpl.
  - destruct (eq_dec k k); congruence.
  - destruct (eq_dec k k') as [->|Hne]; simpl.
    + destruct (eq_dec k' k'); congruence.
    + destruct (eq_dec k k'); congruence.
Qed.

Lemma get_set_other (k k' : K) (v : V) d :
  k <> k' -> get k' (set k v d) = get k' d.
Proof.
  intros Hne. induction d as [|[k2 v2] d IH]; simpl.
  - destruct (eq_dec k' k); congruence.
  - destruct (eq_dec k k2) as [->|Hne2]; simpl.
    + destruct (eq_dec k' k2); congruence.
    + destruct (eq_dec k' k2); congruence.
Qed.

Lemma get_in (k : K) (v : V) d : get k d = Some v -> In (k, v) d.
Proof.
  induction d as [|[k' v'] d IH]; simpl; [discriminate|].
  destruct (eq_dec k k') as [->|Hne]; intros H.
  - left. congruence.
  - right. auto.
Qed.

Lemma in_keys_get (k : K) (d : @Dict.t K V) :
  In k (Dict.keys d) -> exists v, get k d = Some v.
Proof.
  induction d as [|[k' v'] d IH]; simpl; [tauto|].
  intros H. destruct (eq_dec k k') as [->|Hne]; [eauto|].
  destruct H as [H|H]; [congruence | auto].
Qed.

Lemma get_in_keys (k : K) (v : V) d : get k d = Some v -> In k (Dict.keys d).
Proof.
  intros H. apply get_in in H. unfold Dict.keys.
  change k with (fst (k, v)). now apply in_map.
Qed.

Lemma in_set (k k' : K) (v v' : V) d :
  In (k', v') (set k v d) -> (k', v') = (k, v) \/ In (k', v') d.
Proof.
  induction d as [|[k2 v2] d IH]; simpl.
  - intros [H|[]]. left. congruence.
  - destruct (eq_dec k k2) as [->|Hne]; simpl.
    + intros [H|H]; [left; congruence | right; right; assumption].
    + intros [H|H]; [right; left; assumption|].
      destruct (IH H); [left | right; right]; assumption.
Qed.

Lemma set_fresh (k : K) (v : V) d :
  ~ In k (Dict.keys d) -> set k v d = d ++ [(k, v)].
Proof.
  induction d as [|[k2 v2] d IH]; simpl; [reflexivity|].
  intros H. destruct (eq_dec k k2) as [->|Hne]; [tauto|].
  rewrite IH by tauto. reflexivity.
Qed.

(** Entry-wise properties survive an assignment. *)
Lemma all_entries_set (P : K -> V -> Prop) (k : K) (v : V) d :
  (forall k' v', In (k', v') d -> P k' v') -> P k v ->
  forall k' v', In (k', v') (set k v d) -> P k' v'.
Proof.
  intros Hd Hk k' v' H. apply in_set in H as [H|H]; [|auto].
  inversion H; subst. assumption.
Qed.
End Facts.
End DictFacts.

(** ** Facts about the Cartesian product *)

Section ProductFacts.
Context {A : Type}.

Lemma length_flat_map_const {B} (f : A -> list B) (n : nat) (l : list A) :
  (forall x, In x l -> List.length (f x) = n) ->
  List.length (flat_map f l) = List.length l * n.
Proof.
  induction l as [|x l IH]; intros H; simpl; [reflexivity|].
  rewrite length_app, H by (now left).
  rewrite IH; [reflexivity|]. intros y Hy. apply H. now right.
Qed.

Lemma product_length (pools : list (list A)) :
  List.length (product pools)
  = fold_right Nat.mul 1 (map (@List.length A) pools).
Proof.
  induction pools as [|pool rest IH]; simpl; [reflexivity|].
  rewrite (length_flat_map_const _ (List.length (product rest))).
  - now rewrite IH.
  - intros x _. now rewrite length_map.
Qed.

(** The members of the product are the choices of one element per pool,
    in the order of the pools. *)
Lemma product_spec (pools : list (list A)) (u : list A) :
  In u (product pools) <-> Forall2 (fun x pool => In x pool) u pools.
Proof.
  revert u. induction pools as [|pool rest IH]; intros u; simpl.
  - split.
    + intros [<-|[]]. constructor.
    + intros H. inversion H. now left.
  - rewrite in_flat_map. split.
    + intros (x & Hx & Hu). apply in_map_iff in Hu as (u' & <- & Hu').
      constructor; [assumption | now apply IH].
    + intros H. inversion H as [|x p u' r Hx Hu']; subst.
      exists x. split; [assumption|]. apply in_map. now apply IH.
Qed.

Lemma product_member_length (pools : list (list A)) (u : list A) :
  In u (product pools) -> List.length u = List.length pools.
Proof.
  intros H. apply product_spec in H.
  induction H; simpl; congruence.
Qed.
End ProductFacts.

(** ** Loops that copy one dictionary into another *)

Section AssignAll.
Context {V W : Type} (f : V -> W) (src : sdict V).

Lemma assign_all_notin (ks : list string) (dst : sdict W) (c : string) :
  ~ In c ks -> sget c (assign_all f src ks dst) = sget c dst.
Proof.
  revert dst. induction ks as [|k ks IH]; intros dst Hc; simpl; [reflexivity|].
  unfold assign_all in *. simpl. rewrite IH by (simpl in Hc; tauto).
  destruct (sget k src); [|reflexivity].
  apply DictFacts.get_set_other. simpl in Hc. intros ->. tauto.
Qed.

Lemma assign_all_in (ks : list string) (dst : sdict W) (c : string) (v : V) :
  In c ks -> sget c src = Some v ->
  sget c (assign_all f src ks dst) = Some (f v).
Proof.
  revert dst. induction ks as [|k ks IH]; intros dst Hc Hv; [destruct Hc|].
  destruct (in_dec string_dec c ks) as [Hin|Hout].
  - unfold assign_all in *. simpl. now apply IH.
  - destruct Hc as [->|Hc]; [|tauto].
    unfold assign_all in *. simpl.
    fold (assign_all f src ks (match sget c src with
                               | Some v0 => sset c (f v0) dst
                               | None => dst end)).
    rewrite assign_all_notin by assumption. rewrite Hv.
    apply DictFacts.get_set_same.
Qed.
End AssignAll.

(** ** The stages, run *)

Section Stages.
Context {RS : RandomSource}.

(** An invariant of the body is an invariant of the loop, whether the loop
    ends or raises. *)
Lemma for_each_final {A} (I : State -> Prop) (l : list A) (body : A -> M unit) :
  (forall x s, In x l -> I s -> I (final (body x s))) ->
  forall s, I s -> I (final (for_each l body s)).
Proof.
  induction l as [|x l IH]; intros Hbody s Hs; simpl; [assumption|].
  unfold bind. pose proof (Hbody x s (or_introl eq_refl) Hs) as Hx.
  destruct (body x s) as [[] s'|e s']; simpl in *; [|assumption].
  apply IH; [|assumption]. intros y t Hy. apply Hbody. now right.
Qed.

Lemma final_bind {A B} (I : State -> Prop) (m : M A) (k : A -> M B) s :
  I (final (m s)) ->
  (forall a s', I s' -> I (final (k a s'))) ->
  I (final (bind m k s)).
Proof.
  unfold bind. intros Hm Hk. destruct (m s); simpl in *; auto.
Qed.

Lemma permutation_loop (ks : list string) : forall s,
  (forall k, In k ks -> In k (Dict.keys (filled_prompts (self s)))) ->
  for_each ks (fun category =>
    d <- get_self ;;
    samples <- or_raise (KeyError category) (sget category (filled_prompts d)) ;;
    update_self
      (with_premutated_prompts
         (sset category (permutations_of samples) (premutated_prompts d)))) s
  = Ok tt (mkState
             (with_premutated_prompts
                (assign_all permutations_of (filled_prompts (self s)) ks
                   (premutated_prompts (self s)))
                (self s))
             (env s)).
Proof.
  induction ks as [|k ks IH]; intros s Hks.
  - destruct s as [[] ?]. reflexivity.
  - destruct (DictFacts.in_keys_get string_dec k _ (Hks k (or_introl eq_refl)))
      as [v Hv].
    cbn [for_each]. unfold bind at 1. unfold bind at 1. unfold get_self.
    unfold bind at 1. unfold sget. rewrite Hv. cbn [or_raise ret].
    unfold update_self at 1. rewrite IH.
    + cbn. unfold assign_all. cbn [fold_left]. unfold sget. rewrite Hv.
      reflexivity.
    + intros k' Hk'. cbn. apply Hks. now right.
Qed.

(** [_permutation_generation] cannot fail; it leaves in
    [premutated_prompts], for every category of [filled_prompts], the
    products of its filled templates, one after the other. *)
Lemma permutation_generation_run (s : State) :
  _permutation_generation s
  = Ok tt (mkState
             (with_premutated_prompts
                (assign_all permutations_of (filled_prompts (self s))
                   (Dict.keys (filled_prompts (self s)))
                   (premutated_prompts (self s)))
                (self s))
             (env s)).
Proof.
  unfold _permutation_generation. unfold bind at 1. unfold get_self at 1.
  now apply permutation_loop.
Qed.

Lemma permutations_of_app (a b : list (list (list labelled))) :
  permutations_of (a ++ b) = permutations_of a ++ permutations_of b.
Proof. unfold permutations_of. apply flat_map_app. Qed.

End Stages.

(** ** The Permutation Expander *)

Section Expander.
Context {RS : RandomSource}.

Lemma expansion_of_category (s : State) (category : string)
  (samples : list (list (list labelled))) :
  sget category (filled_prompts (self s)) = Some samples ->
  exists s',
    _permutation_generation s = Ok tt s'
    /\ sget category (premutated_prompts (self s')) = Some (permutations_of samples).
Proof.
  intros H. eexists. split; [apply permutation_generation_run|].
  cbn. apply assign_all_in; [|assumption].
  eapply DictFacts.get_in_keys. exact H.
Qed.

(** C1: a filled template with slots of sizes n_1..n_k contributes, to the
    expansion list of its category, exactly n_1 * ... * n_k utterances (the
    product of its slots, between the products of the templates before and
    after it); the utterances are exactly the choices of one pair per slot
    in slot order, so each has k pairs. *)
Theorem C1_expander_count_and_shape (s : State) (category : string)
  (before after : list (list (list labelled))) (sample : list (list labelled)) :
  sget category (filled_prompts (self s)) = Some (before ++ sample :: after) ->
  exists s',
    _permutation_generation s = Ok tt s'
    /\ sget category (premutated_prompts (self s'))
       = Some (permutations_of before ++ product sample ++ permutations_of after)
    /\ List.length (product sample) = size_product sample
    /\ (forall u, In u (product sample)
                  <-> Forall2 (fun pair slot => In pair slot) u sample)
    /\ (forall u, In u (product sample) -> List.length u = List.length sample).
Proof.
  intros H. destruct (expansion_of_category _ _ _ H) as (s' & Hrun & Hget).
  exists s'. repeat split.
  - assumption.
  - rewrite Hget, permutations_of_app. unfold permutations_of at 2.
    cbn [flat_map]. reflexivity.
  - apply product_length.
  - now apply product_spec.
  - now apply product_spec.
  - apply product_member_length.
Qed.

(** C7, as the code has it: a template with no token fills to a template
    with no slot, whose product is the one empty utterance; it contributes
    exactly one (empty) utterance to the expansion list of its category. *)
Theorem C7_empty_template_contributes_one (s : State) (category template : string)
  (before after : list (list (list labelled))) (slots : list (list labelled)) :
  Str.split template = [] ->
  fill_sample (entities (self s)) template = inr slots ->
  sget category (filled_prompts (self s)) = Some (before ++ slots :: after) ->
  slots = []
  /\ product slots = [[]]
  /\ exists s',
       _permutation_generation s = Ok tt s'
       /\ sget category (premutated_prompts (self s'))
          = Some (permutations_of before ++ [[]] ++ permutations_of after).
Proof.
  intros Hsplit Hfill H.
  unfold fill_sample in Hfill. rewrite Hsplit in Hfill. cbn in Hfill.
  injection Hfill as <-. split; [reflexivity|]. split; [reflexivity|].
  destruct (expansion_of_category _ _ _ H) as (s' & Hrun & Hget).
  exists s'. split; [assumption|].
  rewrite Hget, permutations_of_app. reflexivity.
Qed.

End Expander.

Lemma C1_witness :
  sget "play" (filled_prompts (self (demo_filled 5 false [])))
  = Some ([] ++ [[("play", 0%Z)]; [("yesterday", 1%Z); ("let it be", 1%Z)]] :: [])
  /\ exists s',
       _permutation_generation (demo_filled 5 false []) = Ok tt s'
       /\ sget "play" (premutated_prompts (self s'))
          = Some (permutations_of []
                  ++ product [[("play", 0%Z)]; [("yesterday", 1%Z); ("let it be", 1%Z)]]
                  ++ permutations_of [])
       /\ List.length (product [[("play", 0%Z)]; [("yesterday", 1%Z); ("let it be", 1%Z)]])
          = size_product [[("play", 0%Z)]; [("yesterday", 1%Z); ("let it be", 1%Z)]]
       /\ (forall u,
             In u (product [[("play", 0%Z)]; [("yesterday", 1%Z); ("let it be", 1%Z)]])
             <-> Forall2 (fun pair slot => In pair slot) u
                   [[("play", 0%Z)]; [("yesterday", 1%Z); ("let it be", 1%Z)]])
       /\ (forall u,
             In u (product [[("play", 0%Z)]; [("yesterday", 1%Z); ("let it be", 1%Z)]])
             -> List.length u = 2).
Proof.
  split; [reflexivity|].
  apply (C1_expander_count_and_shape (demo_filled 5 false []) "play" [] []
           [[("play", 0%Z)]; [("yesterday", 1%Z); ("let it be", 1%Z)]]).
  reflexivity.
Defined.

(** C7 as stated fails: the blank template of [blank_filled] leaves one
    utterance, not none, in the expansion list of its intent. *)
Lemma C7_counterexample :
  Str.split "" = []
  /\ sget "blank" (filled_prompts (self blank_filled)) = Some [[]]
  /\ exists s',
       _permutation_generation blank_filled = Ok tt s'
       /\ sget "blank" (premutated_prompts (self s')) = Some [[]]
       /\ List.length (permutations_of [[]]) <> 0.
Proof.
  split; [reflexivity|]. split; [reflexivity|].
  eexists. split; [reflexivity|]. split; [reflexivity|]. discriminate.
Qed.

Lemma C7_witness :
  Str.split "" = []
  /\ (@nil (list labelled)) = []
  /\ product (@nil (list labelled)) = [[]]
  /\ exists s',
       _permutation_generation blank_filled = Ok tt s'
       /\ sget "blank" (premutated_prompts (self s'))
          = Some (permutations_of [] ++ [[]] ++ permutations_of []).
Proof.
  split; [reflexivity|].
  apply (C7_empty_template_contributes_one blank_filled "blank" "" [] [] []);
    reflexivity.
Defined.

(** ** The Sampler/Assembler *)

Section Sampler.
Context {RS : RandomSource}.

Lemma append_examples_run (category : string) (samples : list (list labelled)) :
  forall (s : State) (index : nat),
    (samples <> [] ->
     list_index category (Dict.values (intents_label (self s))) = Some index) ->
    for_each samples (append_example category) s
    = Ok tt (mkState
               (with_dataset
                  (dataset (self s) ++ map (fun u => example_of u index) samples)
                  (self s))
               (env s)).
Proof.
  induction samples as [|u samples IH]; intros s index Hidx.
  - cbn. rewrite app_nil_r. destruct s as [[] ?]. reflexivity.
  - specialize (Hidx ltac:(discriminate)).
    cbn [for_each]. unfold bind at 1. unfold append_example at 1.
    unfold bind at 1. unfold get_self at 1. unfold bind at 1.
    rewrite Hidx. cbn [or_raise ret]. unfold update_self at 1.
    rewrite (IH _ index) by (intros _; exact Hidx).
    cbn. rewrite <- app_assoc. reflexivity.
Qed.

(** [random.choices] on a population that is not empty: [k] elements, the
    ones at the indices that the source gives. *)
Lemma choices_run {A} (population : list A) (k : nat) :
  population <> [] ->
  forall s,
  exists drawn,
    choices population k s
    = Ok drawn
        (mkState (self s)
           (with_random_state
              (snd (draws (List.length population) k (random_state (env s))))
              (env s)))
    /\ map (nth_error population)
           (fst (draws (List.length population) k (random_state (env s))))
       = map Some drawn.
Proof.
  intros Hne. induction k as [|k IH]; intros s.
  - exists []. split; [|reflexivity]. cbn. destruct s as [? []]. reflexivity.
  - assert (Hlen : 0 < List.length population)
      by (destruct population; [congruence | simpl; lia]).
    pose proof (randindex_lt _ (random_state (env s)) Hlen) as Hlt.
    cbn [choices draws]. unfold bind at 1. unfold random_index at 1.
    destruct (randindex (List.length population) (random_state (env s)))
      as [i g1] eqn:Hdraw.
    cbn [fst] in Hlt.
    destruct (nth_error population i) as [x|] eqn:Hx;
      [|apply nth_error_None in Hx; lia].
    unfold bind at 1. cbn [or_raise ret]. unfold bind at 1.
    destruct (IH (mkState (self s) (with_random_state g1 (env s))))
      as (rest & Hrun & Hsel).
    rewrite Hrun. cbn [self env random_state with_random_state] in *.
    destruct (draws (List.length population) k g1) as [rest_idx g2].
    exists (x :: rest). split.
    + cbn. reflexivity.
    + cbn [fst map] in *. now rewrite Hx, Hsel.
Qed.

Lemma draws_length (n k : nat) (g : rng) : List.length (fst (draws n k g)) = k.
Proof.
  revert g. induction k as [|k IH]; intros g; cbn; [reflexivity|].
  destruct (randindex n g) as [i g1]. specialize (IH g1).
  destruct (draws n k g1). cbn in *. now rewrite IH.
Qed.

Lemma selected_members {A} (population drawn : list A) (idxs : list nat) :
  map (nth_error population) idxs = map Some drawn ->
  Forall (fun u => In u population) drawn.
Proof.
  revert idxs. induction drawn as [|x drawn IH]; intros idxs H; [constructor|].
  destruct idxs as [|i idxs]; [discriminate|]. cbn in H.
  injection H as Hx Hrest. constructor; [|eauto].
  eapply nth_error_In. eassumption.
Qed.

(** [l.index(x)] finds every member. *)
Lemma list_index_in (x : string) (l : list string) :
  In x l -> exists i, list_index x l = Some i.
Proof.
  induction l as [|y l IH]; [intros []|]. intros Hin. cbn.
  destruct (string_dec y x) as [_|Hne]; [eauto|].
  destruct Hin as [Heq|Hin]; [congruence|].
  destruct (IH Hin) as [i ->]. cbn. eauto.
Qed.

(** Any sequence of indices below the size, repeats included, comes out of
    the tape that holds it. *)
Lemma tape_draws_any (n : nat) (idxs : list nat) :
  Forall (fun i => i < n) idxs ->
  @draws tape_source n (List.length idxs) idxs = (idxs, []).
Proof.
  induction 1 as [|i idxs Hi Hall IH]; [reflexivity|].
  cbn [List.length draws randindex tape_source tape_index].
  rewrite IH. now rewrite Nat.mod_small.
Qed.

(** The body of the sampling loop on the shortfall branch. *)
Lemma sample_category_short (s : State) (category : string)
  (available : list (list labelled)) :
  sget category (generated_prompts (self s)) = Some available ->
  duplicates (self s) = false ->
  (Z.of_nat (List.length available) < samples_per_intent (self s))%Z ->
  sample_category category s
  = for_each available (append_example category)
      (mkState (self s)
         (with_stdout
            (stdout (env s) ++ [shortfall_message category (List.length available)])
            (env s))).
Proof.
  intros Hget Hdup Hlt.
  unfold sample_category. unfold bind at 1. unfold get_self at 1.
  unfold bind at 1. rewrite Hget. cbn [or_raise ret].
  rewrite Hdup. apply Z.ltb_lt in Hlt. rewrite Hlt. cbn [negb andb].
  unfold bind at 1. unfold bind at 1. unfold print, update_env. reflexivity.
Qed.

Lemma sample_category_missing (s : State) (category : string) :
  sget category (generated_prompts (self s)) = None ->
  sample_category category s = Raise (KeyError category) s.
Proof.
  intros Hget. unfold sample_category. unfold bind at 1. unfold get_self at 1.
  unfold bind at 1. rewrite Hget. reflexivity.
Qed.


(** C4, as the code has it: on the quota branch, for a population that is
    not empty and a quota that is not negative, the sampler makes exactly
    [samples_per_intent] draws, each over the whole population (the element
    at the index that the random source gives for the size of the
    population), emits one Example per draw and prints nothing. *)
Theorem C4_quota_branch (s : State) (category : string)
  (available : list (list labelled)) :
  sget category (generated_prompts (self s)) = Some available ->
  duplicates (self s) = true
  \/ (samples_per_intent (self s) <= Z.of_nat (List.length available))%Z ->
  available <> [] ->
  (0 <= samples_per_intent (self s))%Z ->
  In category (Dict.values (intents_label (self s))) ->
  exists index drawn s',
    sample_category category s = Ok tt s'
    /\ list_index category (Dict.values (intents_label (self s))) = Some index
    /\ map (nth_error available)
           (fst (draws (List.length available)
                   (Z.to_nat (samples_per_intent (self s)))
                   (random_state (env s))))
       = map Some drawn
    /\ Z.of_nat (List.length drawn) = samples_per_intent (self s)
    /\ Forall (fun u => In u available) drawn
    /\ dataset (self s')
       = dataset (self s) ++ map (fun u => example_of u index) drawn
    /\ Z.of_nat (List.length (dataset (self s')))
       = (Z.of_nat (List.length (dataset (self s))) + samples_per_intent (self s))%Z
    /\ stdout (env s') = stdout (env s).
Proof.
  intros Hget Hbranch Hne Hq Hin.
  destruct (list_index_in category _ Hin) as [index Hidx].
  destruct (choices_run available (Z.to_nat (samples_per_intent (self s))) Hne s)
    as (drawn & Hrun & Hsel).
  assert (Hlen : List.length drawn = Z.to_nat (samples_per_intent (self s))).
  { rewrite <- (length_map Some), <- Hsel, length_map. apply draws_length. }
  assert (Hcond : negb (duplicates (self s))
                  && (Z.of_nat (List.length available) <? samples_per_intent (self s))%Z
                  = false).
  { destruct Hbranch as [->|Hle]; [reflexivity|].
    apply andb_false_iff. right. apply Z.ltb_ge. exact Hle. }
  exists index, drawn. eexists. split.
  - unfold sample_category. unfold bind at 1. unfold get_self at 1.
    unfold bind at 1. rewrite Hget. cbn [or_raise ret].
    rewrite Hcond. unfold bind at 1. rewrite Hrun.
    apply (append_examples_run _ _ _ index). intros _. exact Hidx.
  - cbn. repeat split.
    + exact Hidx.
    + exact Hsel.
    + rewrite Hlen. now apply Z2Nat.id.
    + eapply selected_members. exact Hsel.
    + rewrite length_app, length_map, Hlen, Nat2Z.inj_add, Z2Nat.id by assumption.
      reflexivity.
Qed.

End Sampler.


Lemma C4_witness :
  exists index drawn s',
    sample_category "play"
      (final ((_slot_filling ;;; _permutation_generation ;;; _distributed_entities_label)
                (demo_loaded 3 true [1; 0; 1])))
    = Ok tt s'
    /\ List.length drawn = 3
    /\ dataset (self s') = map (fun u => example_of u index) drawn.
Proof.
  destruct (C4_quota_branch
              (final ((_slot_filling ;;; _permutation_generation ;;; _distributed_entities_label)
                        (demo_loaded 3 true [1; 0; 1])))
              "play"
              [[("play", 0%Z); ("yesterday", 1%Z)];
               [("play", 0%Z); ("let", 1%Z); ("it", 1%Z); ("be", 1%Z)]])
    as (index & drawn & s' & Hrun & _ & _ & Hlen & _ & Hds & _).
  - reflexivity.
  - left. reflexivity.
  - discriminate.
  - now vm_compute.
  - left. reflexivity.
  - exists index, drawn, s'. split; [exact Hrun|]. split; [|exact Hds].
    apply Nat2Z.inj. exact Hlen.
Defined.

(** C4 as stated fails for an intent without utterances: with duplicates
    allowed the draw is made from an empty population, [IndexError] ends the
    run and no Example is emitted. *)
Lemma C4_counterexample :
  duplicates (self (silent_loaded 5 true)) = true
  /\ exists s',
       genrate_dataset (silent_loaded 5 true) = Raise IndexError s'
       /\ sget "silent" (generated_prompts (self s')) = Some []
       /\ dataset (self s') = [].
Proof.
  split; [reflexivity|]. eexists. split; [reflexivity|]. split; reflexivity.
Qed.

(** ** A dataset directory that does not exist *)

Section MissingDirectory.
Context {RS : RandomSource}.

Lemma load_missing (path : string) (samples : Z) (dup : bool) (e : Env) :
  isdir e path = false ->
  load (mkState (__init__ path samples dup) e)
  = Ok tt (mkState (__init__ path samples dup)
             (with_stdout (stdout e ++ [missing_directory_message]) e)).
Proof.
  intros H. unfold load, bind, get_self, get_env. cbn. rewrite H. reflexivity.
Qed.

(** [save] when its first file cannot be opened. *)
Lemma save_first_open_fails (s : State) (save_path : option string)
  (form : string) (dir : string) (x : exn) :
  match save_path with None => dataset_path (self s) | Some p => p end = dir ->
  open_error (env s) (dir ++ "/intent_labels.json") = Some x ->
  save save_path form s = Raise x s.
Proof.
  intros Hdir Hopen.
  unfold save. unfold bind at 1. unfold get_self at 1. rewrite Hdir.
  unfold bind at 1. unfold _save_maps. unfold bind at 1. unfold get_self at 1.
  unfold bind at 1. unfold write_file at 1. unfold bind at 1. unfold get_env at 1.
  rewrite Hopen. reflexivity.
Qed.

(** C9, as the code has it: [load] prints the diagnostic and returns
    without raising, the object stays as [__init__] left it, and generation
    adds no Example.  When the dataset path is not the empty path, a [save]
    to the dataset directory (the default, and what the script does) fails
    at its first [open], with what that [open] raises, since no file can be
    opened in a directory that does not exist: no file is written. *)
Theorem C9_missing_directory_saved_in_place (path : string) (samples : Z)
  (dup : bool) (save_path : option string) (form : string) (e : Env) :
  isdir e path = false ->
  path <> "" ->
  no_file_without_directory e ->
  save_path = None \/ save_path = Some path ->
  load (mkState (__init__ path samples dup) e)
  = Ok tt (mkState (__init__ path samples dup)
             (with_stdout (stdout e ++ ["Dataset directory does not exist"]) e))
  /\ exists x s',
       open_error e (path ++ "/intent_labels.json") = Some x
       /\ session path samples dup save_path form e = Raise x s'
       /\ self s' = __init__ path samples dup
       /\ stdout (env s') = stdout e ++ ["Dataset directory does not exist"]
       /\ written (env s') = written e.
Proof.
  intros Hdir Hpath Hworld Hsave. split; [now apply load_missing|].
  pose proof (Hworld path "intent_labels.json" Hpath Hdir eq_refl) as Hopen.
  cbn [append] in Hopen.
  destruct (open_error e (path ++ "/intent_labels.json")) as [x|] eqn:Hx;
    [|congruence].
  exists x. eexists. split; [reflexivity|]. split.
  - unfold session. unfold bind at 1. rewrite load_missing by assumption.
    unfold bind at 1. cbn [genrate_dataset].
    assert (Hgen : genrate_dataset
                     (mkState (__init__ path samples dup)
                        (with_stdout (stdout e ++ [missing_directory_message]) e))
                   = Ok tt (mkState (__init__ path samples dup)
                              (with_stdout (stdout e ++ [missing_directory_message]) e)))
      by reflexivity.
    rewrite Hgen.
    apply (save_first_open_fails _ save_path form path).
    + destruct Hsave as [->| ->]; reflexivity.
    + exact Hx.
  - cbn. repeat split.
Qed.

End MissingDirectory.

(** The world of the scenarios lets no file be opened outside [ds]. *)
Lemma no_slash_app (a b : string) : no_slash (a ++ String "/" b) = false.
Proof.
  induction a as [|c a IH]; cbn; [reflexivity|].
  rewrite IH. apply andb_false_r.
Qed.

Lemma directory_of_path (dir name d file : string) :
  (dir ++ String "/" name)%string = (d ++ String "/" file)%string ->
  no_slash d = true -> no_slash file = true -> dir = d.
Proof.
  revert d. induction dir as [|c dir IH]; intros [|c' d] Heq Hd Hfile; cbn in *.
  - reflexivity.
  - injection Heq as <- _. discriminate.
  - injection Heq as -> <-. now rewrite no_slash_app in Hfile.
  - injection Heq as <- Heq. apply andb_prop in Hd as [_ Hd].
    f_equal. now apply IH.
Qed.

Lemma demo_env_directories (tape : list nat) :
  no_file_without_directory (demo_env tape).
Proof.
  intros dir name _ Hdir _ Hopen. cbn [demo_env isdir open_error] in *.
  unfold demo_open in Hopen.
  destruct (existsb _ _) eqn:Hex; [|discriminate].
  apply existsb_exists in Hex as (p & Hin & Heq).
  apply String.eqb_eq in Heq.
  assert (Hds : dir = "ds").
  { cbn in Hin.
    destruct Hin as [<-|[<-|[<-|[<-|[<-|[]]]]]];
      apply (directory_of_path dir name "ds" _ Heq); reflexivity. }
  subst dir. discriminate.
Qed.

Lemma C9_witness :
  exists s',
    main "nowhere" 3 true (demo_env [])
    = Raise (OSError "nowhere/intent_labels.json") s'
    /\ self s' = __init__ "nowhere" 3 true
    /\ stdout (env s') = ["Dataset directory does not exist"]
    /\ written (env s') = [].
Proof.
  destruct (C9_missing_directory_saved_in_place
              "nowhere" 3 true (Some "nowhere") "csv" (demo_env []))
    as (_ & x & s' & Hopen & Hrun & Hself & Hout & Hwr).
  - reflexivity.
  - discriminate.
  - apply demo_env_directories.
  - right. reflexivity.
  - exists s'. injection Hopen as <-.
    split; [exact Hrun|]. split; [exact Hself|].
    split; [exact Hout | exact Hwr].
Defined.

(** C9 as stated fails when the output is saved elsewhere: with the dataset
    directory missing and [save_path] naming a directory that exists, the run
    ends normally and three files are written.  It fails for the script
    itself when the dataset path is the empty path: [load] finds no
    directory, and [save] writes its three files into the root directory. *)
Lemma C9_counterexample :
  (isdir (demo_env []) "nowhere" = false
   /\ exists s',
        session "nowhere" 3 true (Some "ds") "csv" (demo_env []) = Ok tt s'
        /\ written (env s')
           = [("ds/intent_labels.json", JsonMap []);
              ("ds/entity_labels.json", JsonMap []);
              ("ds/dataset.csv", Frame [])])
  /\ (isdir root_env "" = false
      /\ exists s',
           main "" 3 true root_env = Ok tt s'
           /\ stdout (env s') = ["Dataset directory does not exist"]
           /\ written (env s')
              = [("/intent_labels.json", JsonMap []);
                 ("/entity_labels.json", JsonMap []);
                 ("/dataset.csv", Frame [])]).
Proof.
  split; (split; [reflexivity|]).
  - exists (final (session "nowhere" 3 true (Some "ds") "csv" (demo_env []))).
    split; vm_compute; reflexivity.
  - exists (final (main "" 3 true root_env)).
    split; [|split]; vm_compute; reflexivity.
Qed.

(** ** Slot filling and unknown entity names *)

Section SlotFilling.
Context {RS : RandomSource}.

(** A rule for loops: an invariant [I], a property [Good] of the elements
    whose body returned, and a property [E] of the exception and state of a
    body that raised. *)
Lemma for_each_rule {A} (I : State -> Prop) (Good : A -> Prop)
  (E : exn -> State -> Prop) (l : list A) (body : A -> M unit) :
  (forall x t, In x l -> I t ->
     match body x t with
     | Ok _ t' => I t' /\ Good x
     | Raise e t' => E e t'
     end) ->
  forall t, I t ->
    match for_each l body t with
    | Ok _ t' => I t' /\ (forall x, In x l -> Good x)
    | Raise e t' => E e t'
    end.
Proof.
  induction l as [|x l IH]; intros Hbody t Ht.
  - cbn. split; [assumption | intros ? []].
  - cbn [for_each]. unfold bind.
    pose proof (Hbody x t (or_introl eq_refl) Ht) as Hx.
    destruct (body x t) as [[] t1|e t1]; [|assumption].
    destruct Hx as [Ht1 Hgood].
    assert (Hrest : forall y u, In y l -> I u ->
              match body y u with
              | Ok _ t' => I t' /\ Good y
              | Raise e t' => E e t'
              end) by (intros y u Hy; apply Hbody; now right).
    pose proof (IH Hrest t1 Ht1) as Hl.
    destruct (for_each l body t1) as [[] t2|e t2]; [|assumption].
    destruct Hl as [Ht2 Hall]. split; [assumption|].
    intros y [<-|Hy]; auto.
Qed.

Lemma only_filled_refl (s : State) : only_filled s s.
Proof. exists (filled_prompts (self s)). destruct s as [[] ?]. reflexivity. Qed.

Lemma only_filled_set (s t : State) fp :
  only_filled s t ->
  only_filled s (mkState (with_filled_prompts fp (self t)) (env t)).
Proof. intros [fp0 ->]. exists fp. reflexivity. Qed.

Lemma only_filled_fields (s t : State) :
  only_filled s t ->
  entities (self t) = entities (self s)
  /\ intents (self t) = intents (self s)
  /\ dataset (self t) = dataset (self s)
  /\ env t = env s.
Proof. intros [fp ->]. repeat split. Qed.

(** The comprehension fails only with the [KeyError] of a name that is not
    loaded. *)
Lemma fill_words_error (ents : sdict (list labelled)) (words : list string) (e : exn) :
  fill_words ents words = inl e ->
  exists name, e = KeyError name /\ sget name ents = None.
Proof.
  induction words as [|w words IH]; cbn; [discriminate|].
  unfold fill_word.
  destruct (is_placeholder w).
  - destruct (sget (Str.slice_1_m1 w) ents) eqn:Hget.
    + destruct (fill_words ents words); [|discriminate].
      intros H. injection H as <-. now apply IH.
    + intros H. injection H as <-. eauto.
  - destruct (fill_words ents words); [|discriminate].
    intros H. injection H as <-. now apply IH.
Qed.

(** A placeholder that names no loaded group makes it fail. *)
Lemma fill_words_unknown (ents : sdict (list labelled)) (words : list string)
  (word : string) :
  In word words -> is_placeholder word = true ->
  sget (Str.slice_1_m1 word) ents = None ->
  exists e, fill_words ents words = inl e.
Proof.
  intros Hin Hph Hget. induction words as [|w words IH]; [destruct Hin|].
  cbn. destruct (fill_word ents w) as [e|slot] eqn:Hw; [eauto|].
  destruct Hin as [->|Hin].
  - unfold fill_word in Hw. rewrite Hph, Hget in Hw. discriminate.
  - destruct (IH Hin) as [e ->]. eauto.
Qed.

(** The loop over the templates of one intent. *)
Lemma fill_samples_rule (s : State) (intent : string) (samples : list string) :
  forall t,
    only_filled s t /\ sget intent (filled_prompts (self t)) <> None ->
    match for_each samples (fill_and_append intent) t with
    | Ok _ t' =>
        (only_filled s t' /\ sget intent (filled_prompts (self t')) <> None)
        /\ (forall sample, In sample samples -> fills (entities (self s)) sample)
    | Raise e t' =>
        (exists name, e = KeyError name /\ sget name (entities (self s)) = None)
        /\ only_filled s t'
    end.
Proof.
  apply for_each_rule. intros sample t _ [Hof Hkey].
  destruct (only_filled_fields _ _ Hof) as (Hents & _).
  unfold fill_and_append, bind, get_self.
  destruct (sget intent (filled_prompts (self t))) as [cur|]; [|congruence].
  cbn [or_raise ret]. rewrite Hents.
  destruct (fill_sample (entities (self s)) sample) as [e|slots] eqn:Hfill.
  - cbn. split; [|assumption]. eapply fill_words_error. exact Hfill.
  - unfold update_self. split; [split|].
    + now apply only_filled_set.
    + cbn [self filled_prompts with_filled_prompts]. unfold sget, sset.
      rewrite DictFacts.get_set_same. discriminate.
    + exists slots. exact Hfill.
Qed.

(** [_slot_filling] either fills every template of every intent, or raises
    the [KeyError] of a name that is not loaded; it changes nothing but
    [filled_prompts]. *)
Lemma slot_filling_rule (s : State) :
  match _slot_filling s with
  | Ok _ t' =>
      only_filled s t'
      /\ (forall intent samples sample,
            sget intent (intents (self s)) = Some samples ->
            In sample samples -> fills (entities (self s)) sample)
  | Raise e t' =>
      (exists name, e = KeyError name /\ sget name (entities (self s)) = None)
      /\ only_filled s t'
  end.
Proof.
  unfold _slot_filling. unfold bind at 1. unfold get_self at 1.
  pose proof (for_each_rule (only_filled s)
    (fun intent => forall samples sample,
       sget intent (intents (self s)) = Some samples ->
       In sample samples -> fills (entities (self s)) sample)
    (fun e t' =>
       (exists name, e = KeyError name /\ sget name (entities (self s)) = None)
       /\ only_filled s t')
    (Dict.keys (intents (self s)))
    (fun intent =>
      update_self (fun d => with_filled_prompts (sset intent [] (filled_prompts d)) d) ;;;
      d <- get_self ;;
      samples <- or_raise (KeyError intent) (sget intent (intents d)) ;;
      for_each samples (fill_and_append intent))) as Hloop.
  match type of Hloop with ?P -> _ => assert (Hbody : P) end.
  { intros intent t Hin Hof.
    destruct (only_filled_fields _ _ Hof) as (_ & Hints & _).
    unfold bind at 1. unfold update_self at 1. unfold bind at 1.
    unfold get_self at 1. cbn [self intents with_filled_prompts].
    unfold bind at 1. rewrite Hints.
    destruct (DictFacts.in_keys_get string_dec intent _ Hin) as [samples Hget].
    unfold sget at 1. rewrite Hget. cbn [or_raise ret].
    pose proof (fill_samples_rule s intent samples
                  (mkState
                     (with_filled_prompts
                        (sset intent [] (filled_prompts (self t))) (self t))
                     (env t))) as Hinner.
    match type of Hinner with ?P -> _ => assert (Hpre : P) end.
    { split; [now apply only_filled_set|].
      cbn [self filled_prompts with_filled_prompts]. unfold sget, sset.
      rewrite DictFacts.get_set_same. discriminate. }
    specialize (Hinner Hpre).
    match goal with
    | |- match ?o with _ => _ end => destruct o as [[] t1|e t1]
    end; [|assumption].
    destruct Hinner as [[Hof1 _] Hall]. split; [assumption|].
    intros samples' sample Hget' Hs. unfold sget in Hget'.
    rewrite Hget in Hget'. injection Hget' as <-. now apply Hall. }
  specialize (Hloop Hbody s (only_filled_refl s)).
  match goal with
  | |- match ?o with _ => _ end => destruct o as [[] t1|e t1]
  end; [|assumption].
  destruct Hloop as [Hof Hall]. split; [assumption|].
  intros intent samples sample Hget Hs.
  apply (Hall intent) with (samples := samples); [|assumption|assumption].
  eapply DictFacts.get_in_keys. exact Hget.
Qed.

(** C6: a placeholder that names no loaded entity group makes slot filling
    raise [KeyError], a [LookupError], for a name that is not loaded; the
    error leaves [genrate_dataset] at once, before any later stage: the
    dataset gets no Example, for any intent, and the world is untouched. *)
Theorem C6_unknown_entity_aborts (s : State) (intent sample word : string)
  (samples : list string) :
  sget intent (intents (self s)) = Some samples ->
  In sample samples ->
  In word (Str.split sample) ->
  is_placeholder word = true ->
  sget (Str.slice_1_m1 word) (entities (self s)) = None ->
  exists name s',
    _slot_filling s = Raise (KeyError name) s'
    /\ genrate_dataset s = Raise (KeyError name) s'
    /\ sget name (entities (self s)) = None
    /\ dataset (self s') = dataset (self s)
    /\ env s' = env s.
Proof.
  intros Hget Hs Hw Hph Hnone.
  pose proof (slot_filling_rule s) as Hrule.
  destruct (_slot_filling s) as [[] t|e t] eqn:Hrun.
  - destruct Hrule as [_ Hall].
    destruct (Hall intent samples sample Hget Hs) as [slots Hfill].
    destruct (fill_words_unknown _ _ _ Hw Hph Hnone) as [e He].
    unfold fill_sample in Hfill. congruence.
  - destruct Hrule as [(name & -> & Hname) Hof].
    destruct (only_filled_fields _ _ Hof) as (_ & _ & Hds & Henv).
    exists name, t. repeat split; try assumption.
    unfold genrate_dataset, bind. now rewrite Hrun.
Qed.

End SlotFilling.

Lemma C6_witness :
  exists name s',
    genrate_dataset unknown_loaded = Raise (KeyError name) s'
    /\ sget name (entities (self unknown_loaded)) = None
    /\ dataset (self s') = []
    /\ env s' = env unknown_loaded.
Proof.
  destruct (C6_unknown_entity_aborts unknown_loaded "call" "call {contact} now"
              "{contact}" ["call {contact} now"])
    as (name & s' & _ & Hrun & Hname & Hds & Henv).
  - reflexivity.
  - left. reflexivity.
  - right. left. reflexivity.
  - reflexivity.
  - reflexivity.
  - exists name, s'. split; [exact Hrun|]. split; [exact Hname|].
    split; [exact Hds | exact Henv].
Defined.

(** ** Alignment of labels and words *)

Section AssignAllEntries.
Context {V W : Type} (f : V -> W) (src : sdict V).

Lemma assign_all_entries (P : string -> W -> Prop) (ks : list string) :
  (forall k v, sget k src = Some v -> P k (f v)) ->
  forall dst,
    (forall k w, In (k, w) dst -> P k w) ->
    forall k w, In (k, w) (assign_all f src ks dst) -> P k w.
Proof.
  intros Hf. induction ks as [|k0 ks IH]; intros dst Hdst; [exact Hdst|].
  unfold assign_all in *. cbn [fold_left]. apply IH.
  destruct (sget k0 src) eqn:Hget; [|exact Hdst].
  apply DictFacts.all_entries_set; auto.
Qed.
End AssignAllEntries.

Section Alignment.
Context {RS : RandomSource}.

Lemma distribution_loop (ks : list string) : forall s,
  (forall k, In k ks -> In k (Dict.keys (premutated_prompts (self s)))) ->
  for_each ks (fun category =>
    d <- get_self ;;
    samples <- or_raise (KeyError category) (sget category (premutated_prompts d)) ;;
    update_self
      (with_generated_prompts
         (sset category (category_prompts_of samples) (generated_prompts d)))) s
  = Ok tt (mkState
             (with_generated_prompts
                (assign_all category_prompts_of (premutated_prompts (self s)) ks
                   (generated_prompts (self s)))
                (self s))
             (env s)).
Proof.
  induction ks as [|k ks IH]; intros s Hks.
  - destruct s as [[] ?]. reflexivity.
  - destruct (DictFacts.in_keys_get string_dec k _ (Hks k (or_introl eq_refl)))
      as [v Hv].
    cbn [for_each]. unfold bind at 1. unfold bind at 1. unfold get_self.
    unfold bind at 1. unfold sget. rewrite Hv. cbn [or_raise ret].
    unfold update_self at 1. rewrite IH.
    + cbn. unfold assign_all. cbn [fold_left]. unfold sget. rewrite Hv.
      reflexivity.
    + intros k' Hk'. cbn. apply Hks. now right.
Qed.

(** [_distributed_entities_label] cannot fail; it leaves in
    [generated_prompts], for every category of [premutated_prompts], its
    utterances with the labels redistributed. *)
Lemma distributed_entities_label_run (s : State) :
  _distributed_entities_label s
  = Ok tt (mkState
             (with_generated_prompts
                (assign_all category_prompts_of (premutated_prompts (self s))
                   (Dict.keys (premutated_prompts (self s)))
                   (generated_prompts (self s)))
                (self s))
             (env s)).
Proof.
  unfold _distributed_entities_label. unfold bind at 1. unfold get_self at 1.
  now apply distribution_loop.
Qed.

Lemma distribute_word_words (word : labelled) : words_only (distribute_word word).
Proof.
  unfold distribute_word, words_only.
  destruct (Str.is_empty (fst word)); [constructor|].
  apply Forall_map. cbn [fst]. apply StrFacts.split_words.
Qed.

(** The Label Redistributor leaves words only. *)
Lemma distribute_sample_words (sample : list labelled) :
  words_only (distribute_sample sample).
Proof.
  unfold distribute_sample, words_only.
  induction sample as [|w sample IH]; cbn; [constructor|].
  apply Forall_app. split; [apply distribute_word_words | exact IH].
Qed.



(** Whatever [random.choices] returns was in the population, and it leaves
    the object alone. *)
Lemma choices_members {A} (population : list A) (k : nat) : forall s,
  match choices population k s with
  | Ok drawn s' => self s' = self s /\ Forall (fun u => In u population) drawn
  | Raise _ s' => self s' = self s
  end.
Proof.
  induction k as [|k IH]; intros s; cbn [choices].
  - cbn. auto.
  - unfold bind at 1. unfold random_index at 1.
    destruct (randindex (List.length population) (random_state (env s))) as [i g1].
    unfold bind at 1.
    destruct (nth_error population i) as [x|] eqn:Hx; cbn [or_raise ret raise];
      [|reflexivity].
    unfold bind at 1.
    specialize (IH (mkState (self s) (with_random_state g1 (env s)))).
    destruct (choices population k _) as [rest s'|e s']; [|exact IH].
    destruct IH as [Hself Hall]. cbn. split; [exact Hself|].
    constructor; [|exact Hall]. eapply nth_error_In. exact Hx.
Qed.

Section SamplingInvariant.
Variable U : string -> list labelled -> Prop.
Variable X : Example -> Prop.
Hypothesis example_of_X : forall category u index, U category u -> X (example_of u index).

Lemma entrywise_self (s t : State) :
  self t = self s -> entrywise U X s -> entrywise U X t.
Proof. unfold entrywise. intros ->. tauto. Qed.

Lemma append_examples_entrywise (category : string) (samples : list (list labelled)) :
  Forall (U category) samples ->
  forall s, entrywise U X s ->
    entrywise U X (final (for_each samples (append_example category) s)).
Proof.
  intros Hall. apply for_each_final. intros u t Hu [Hgen Hds].
  unfold append_example, bind, get_self.
  destruct (list_index category (Dict.values (intents_label (self t))));
    cbn; [|split; assumption].
  split; [exact Hgen|]. apply Forall_app. split; [exact Hds|].
  constructor; [|constructor]. apply (example_of_X category).
  rewrite Forall_forall in Hall. now apply Hall.
Qed.

(** Each Example that the body of the sampling loop appends is built from
    one of the labelled utterances of the category, on either branch. *)
Lemma sample_category_entrywise (category : string) (s : State) :
  entrywise U X s -> entrywise U X (final (sample_category category s)).
Proof.
  intros Hs. unfold sample_category. unfold bind at 1. unfold get_self at 1.
  unfold bind at 1.
  destruct (sget category (generated_prompts (self s))) as [available|] eqn:Hget;
    cbn [or_raise ret raise]; [|exact Hs].
  assert (Hav : Forall (U category) available).
  { destruct Hs as [Hgen _]. apply (Hgen category).
    apply (DictFacts.get_in string_dec). exact Hget. }
  unfold bind at 1.
  destruct (negb (duplicates (self s))
            && (Z.of_nat (List.length available) <? samples_per_intent (self s))%Z).
  - cbn. apply append_examples_entrywise; [exact Hav|].
    eapply entrywise_self; [|exact Hs]. reflexivity.
  - pose proof (choices_members available
                  (Z.to_nat (samples_per_intent (self s))) s) as Hch.
    destruct (choices available _ s) as [drawn s1|e s1].
    + destruct Hch as [Hself Hin].
      apply append_examples_entrywise.
      * rewrite Forall_forall in *. intros u Hu. apply Hav. now apply Hin.
      * eapply entrywise_self; [exact Hself | exact Hs].
    + cbn. eapply entrywise_self; [exact Hch | exact Hs].
Qed.

Lemma generate_dataset_entrywise (s : State) :
  entrywise U X s -> entrywise U X (final (_generate_dataset s)).
Proof.
  intros Hs. unfold _generate_dataset. unfold bind at 1. unfold get_self at 1.
  apply for_each_final; [|exact Hs].
  intros category t _. apply sample_category_entrywise.
Qed.

End SamplingInvariant.








End Alignment.



(** ** Reproducibility *)

Section Reproducibility.
Context {RS : RandomSource}.

Lemma same_result_final {A} (o1 o2 : outcome A) :
  same_result o1 o2 -> self (final o1) = self (final o2).
Proof. destruct o1, o2; cbn; tauto. Qed.

(** A loop whose body does not look at the world does not either.  [P] is
    a property of the object that the body may rely on and has to keep. *)
Lemma for_each_same {A} (P : Dataset -> Prop) (l : list A) (body : A -> M unit) :
  (forall x s1 s2, In x l -> self s1 = self s2 -> P (self s1) ->
     same_result (body x s1) (body x s2) /\ P (self (final (body x s1)))) ->
  forall s1 s2, self s1 = self s2 -> P (self s1) ->
    same_result (for_each l body s1) (for_each l body s2)
    /\ P (self (final (for_each l body s1))).
Proof.
  induction l as [|x l IH]; intros Hbody s1 s2 Hself HP.
  - cbn. auto.
  - cbn [for_each]. unfold bind.
    destruct (Hbody x s1 s2 (or_introl eq_refl) Hself HP) as [Hsame HP1].
    destruct (body x s1) as [[] t1|e1 t1], (body x s2) as [[] t2|e2 t2];
      cbn in Hsame, HP1; try tauto.
    + apply IH; try tauto. intros y u1 u2 Hy. apply Hbody. now right.
    + cbn. tauto.
Qed.

Lemma bind_same {A B} (m : M A) (k : A -> M B) (s1 s2 : State) :
  same_result (m s1) (m s2) ->
  (forall a t1 t2, m s1 = Ok a t1 -> self t1 = self t2 ->
                   same_result (k a t1) (k a t2)) ->
  same_result (bind m k s1) (bind m k s2).
Proof.
  unfold bind. intros Hm Hk.
  destruct (m s1) as [a1 t1|e1 t1], (m s2) as [a2 t2|e2 t2]; cbn in Hm;
    try tauto; [|exact Hm].
  destruct Hm as [<- Hself]. now apply Hk.
Qed.

Lemma fill_and_append_same (intent sample : string) (s1 s2 : State) :
  self s1 = self s2 ->
  same_result (fill_and_append intent sample s1) (fill_and_append intent sample s2).
Proof.
  destruct s1 as [d e1], s2 as [d2 e2]. cbn [self]. intros <-.
  unfold fill_and_append, bind, get_self, update_self. cbn [self].
  destruct (sget intent (filled_prompts d)); cbn; [|auto].
  destruct (fill_sample (entities d) sample); cbn; auto.
Qed.

Lemma slot_filling_same (s1 s2 : State) :
  self s1 = self s2 -> same_result (_slot_filling s1) (_slot_filling s2).
Proof.
  destruct s1 as [d e1], s2 as [d2 e2]. cbn [self]. intros <-.
  unfold _slot_filling, bind at 1 3, get_self at 1 3. cbn [self].
  apply (for_each_same (fun _ => True)); [|reflexivity|exact I].
  intros intent [c f1] [c2 f2] _ Ht _. cbn [self] in Ht. subst c2.
  split; [|exact I].
  unfold bind at 1 4, update_self at 1 2, bind at 1 3, get_self at 1 2.
  cbn [self]. unfold bind at 1 2.
  destruct (sget intent (intents (with_filled_prompts _ c)));
    cbn [or_raise ret raise]; [|cbn; auto].
  apply (for_each_same (fun _ => True)); [|reflexivity|exact I].
  intros sample u1 u2 _ Hu _. split; [|exact I].
  now apply fill_and_append_same.
Qed.

Lemma append_example_same (category : string) (u : list labelled) (s1 s2 : State) :
  self s1 = self s2 ->
  same_result (append_example category u s1) (append_example category u s2).
Proof.
  destruct s1 as [d e1], s2 as [d2 e2]. cbn [self]. intros <-.
  unfold append_example, bind, get_self, update_self. cbn [self].
  destruct (list_index category (Dict.values (intents_label d))); cbn; auto.
Qed.

Lemma append_example_keeps (category : string) (u : list labelled) (s : State) :
  generated_prompts (self (final (append_example category u s)))
  = generated_prompts (self s)
  /\ duplicates (self (final (append_example category u s))) = duplicates (self s)
  /\ samples_per_intent (self (final (append_example category u s)))
     = samples_per_intent (self s).
Proof.
  unfold append_example, bind, get_self.
  destruct (list_index category (Dict.values (intents_label (self s))));
    cbn; auto.
Qed.

Lemma all_short_keeps (d d' : Dataset) :
  generated_prompts d' = generated_prompts d ->
  duplicates d' = duplicates d ->
  samples_per_intent d' = samples_per_intent d ->
  all_short d -> all_short d'.
Proof. unfold all_short. intros -> -> ->. tauto. Qed.

(** Without a draw, the body of the sampling loop does not look at the
    world. *)
Lemma sample_category_same (category : string) (s1 s2 : State) :
  self s1 = self s2 -> all_short (self s1) ->
  same_result (sample_category category s1) (sample_category category s2)
  /\ all_short (self (final (sample_category category s1))).
Proof.
  intros Hself Hshort.
  destruct (sget category (generated_prompts (self s1))) as [available|] eqn:Hget.
  - pose proof Hshort as [Hdup Hlt].
    pose proof (Hlt category available
                  (DictFacts.get_in string_dec _ _ _ Hget)) as Hav.
    rewrite (sample_category_short s1 category available) by assumption.
    rewrite (sample_category_short s2 category available)
      by (rewrite <- Hself; assumption).
    rewrite <- Hself.
    apply (for_each_same all_short).
    + intros u t1 t2 _ Ht Hsh. split; [now apply append_example_same|].
      destruct (append_example_keeps category u t1) as (Hg & Hd & Hq).
      now apply (all_short_keeps (self t1)).
    + reflexivity.
    + exact Hshort.
  - rewrite !sample_category_missing by (rewrite <- ?Hself; assumption).
    cbn. auto.
Qed.

Lemma generate_dataset_same (s1 s2 : State) :
  self s1 = self s2 -> all_short (self s1) ->
  same_result (_generate_dataset s1) (_generate_dataset s2).
Proof.
  destruct s1 as [d e1], s2 as [d2 e2]. cbn [self]. intros <- Hshort.
  unfold _generate_dataset, bind at 1 2, get_self at 1 2. cbn [self].
  apply (for_each_same all_short); [|reflexivity|exact Hshort].
  intros category t1 t2 _. apply sample_category_same.
Qed.

(** Sampling leaves [generated_prompts], the flag and the quota as they
    are. *)
Lemma sample_category_keeps (category : string) (s : State) :
  generated_prompts (self (final (sample_category category s)))
  = generated_prompts (self s)
  /\ duplicates (self (final (sample_category category s))) = duplicates (self s)
  /\ samples_per_intent (self (final (sample_category category s)))
     = samples_per_intent (self s).
Proof.
  set (K := fun t : State =>
              generated_prompts (self t) = generated_prompts (self s)
              /\ duplicates (self t) = duplicates (self s)
              /\ samples_per_intent (self t) = samples_per_intent (self s)).
  assert (Happ : forall samples t, K t ->
            K (final (for_each samples (append_example category) t))).
  { intros samples. apply for_each_final. intros u t _ (Hg & Hd & Hq).
    destruct (append_example_keeps category u t) as (Hg' & Hd' & Hq').
    unfold K. repeat split; congruence. }
  change (K (final (sample_category category s))).
  unfold sample_category. unfold bind at 1. unfold get_self at 1.
  unfold bind at 1.
  destruct (sget category (generated_prompts (self s))) as [available|];
    cbn [or_raise ret raise]; [|unfold K; cbn; auto].
  unfold bind at 1.
  destruct (negb (duplicates (self s))
            && (Z.of_nat (List.length available) <? samples_per_intent (self s))%Z).
  - cbn. apply Happ. unfold K. cbn. auto.
  - pose proof (choices_members available
                  (Z.to_nat (samples_per_intent (self s))) s) as Hch.
    destruct (choices available _ s) as [drawn t|e t].
    + destruct Hch as [Hself _]. apply Happ. unfold K. rewrite Hself. auto.
    + cbn. unfold K. rewrite Hch. auto.
Qed.

Lemma generate_dataset_keeps (s : State) :
  generated_prompts (self (final (_generate_dataset s)))
  = generated_prompts (self s)
  /\ duplicates (self (final (_generate_dataset s))) = duplicates (self s)
  /\ samples_per_intent (self (final (_generate_dataset s)))
     = samples_per_intent (self s).
Proof.
  unfold _generate_dataset. unfold bind at 1 2 3. unfold get_self at 1 2 3.
  apply (for_each_final
           (fun t => generated_prompts (self t) = generated_prompts (self s)
                     /\ duplicates (self t) = duplicates (self s)
                     /\ samples_per_intent (self t) = samples_per_intent (self s)));
    [|auto].
  intros category t _ (Hg & Hd & Hq).
  destruct (sample_category_keeps category t) as (Hg' & Hd' & Hq').
  repeat split; congruence.
Qed.

(** A generation run, stage by stage. *)
Lemma genrate_dataset_steps (s t : State) :
  _slot_filling s = Ok tt t ->
  genrate_dataset s = _generate_dataset (mkState (expanded (self t)) (env t)).
Proof.
  intros H. unfold genrate_dataset. unfold bind at 1. rewrite H.
  unfold bind at 1. rewrite permutation_generation_run.
  unfold bind at 1. rewrite distributed_entities_label_run.
  reflexivity.
Qed.

Lemma genrate_dataset_raise (s t : State) (e : exn) :
  _slot_filling s = Raise e t -> genrate_dataset s = Raise e t.
Proof. intros H. unfold genrate_dataset. unfold bind at 1. now rewrite H. Qed.

(** C8, as the code has it: the sampler is not seeded, and a run is
    reproducible as far as it makes no draw.  With duplicates disallowed and
    every category left with fewer labelled utterances than the quota, two
    runs on the same object end the same way and with the same Examples,
    whatever the state of the random source (and the rest of the world). *)
Theorem C8_reproducible_without_draws (s1 s2 : State) :
  self s1 = self s2 ->
  duplicates (self s1) = false ->
  (forall category us,
      In (category, us) (generated_prompts (self (final (genrate_dataset s1)))) ->
      (Z.of_nat (List.length us) < samples_per_intent (self s1))%Z) ->
  same_result (genrate_dataset s1) (genrate_dataset s2)
  /\ dataset (self (final (genrate_dataset s1)))
     = dataset (self (final (genrate_dataset s2))).
Proof.
  intros Hself Hdup Hshort.
  assert (Hsame : same_result (genrate_dataset s1) (genrate_dataset s2)).
  { pose proof (slot_filling_same s1 s2 Hself) as H1.
    pose proof (slot_filling_rule s1) as Hrule.
    destruct (_slot_filling s1) as [[] t1|e1 t1] eqn:Hrun1,
             (_slot_filling s2) as [[] t2|e2 t2] eqn:Hrun2;
      cbn in H1; try tauto.
    - destruct H1 as [_ Ht]. destruct Hrule as [[fp Hfp] _].
      rewrite (genrate_dataset_steps s1 t1 Hrun1) in *.
      rewrite (genrate_dataset_steps s2 t2 Hrun2).
      apply generate_dataset_same; [cbn; now rewrite Ht|].
      destruct (generate_dataset_keeps (mkState (expanded (self t1)) (env t1)))
        as (Hg & Hd & Hq).
      cbn [self] in Hg, Hd, Hq |- *.
      assert (Hd1 : duplicates (expanded (self t1)) = duplicates (self s1))
        by (rewrite Hfp; reflexivity).
      assert (Hq1 : samples_per_intent (expanded (self t1))
                    = samples_per_intent (self s1))
        by (rewrite Hfp; reflexivity).
      split; [congruence|].
      intros category us Hin. rewrite Hq1. apply (Hshort category).
      rewrite Hg. exact Hin.
    - rewrite (genrate_dataset_raise s1 t1 e1 Hrun1).
      rewrite (genrate_dataset_raise s2 t2 e2 Hrun2). exact H1. }
  split; [exact Hsame|].
  apply same_result_final in Hsame. now rewrite Hsame.
Qed.

End Reproducibility.

Lemma C8_witness :
  dataset (self (final (genrate_dataset (demo_loaded 5 false [0]))))
  = dataset (self (final (genrate_dataset (demo_loaded 5 false [1; 2; 3])))).
Proof.
  apply (C8_reproducible_without_draws
           (demo_loaded 5 false [0]) (demo_loaded 5 false [1; 2; 3])).
  - reflexivity.
  - reflexivity.
  - intros category us H. vm_compute in H.
    destruct H as [H|[H|[]]]; injection H as <- <-; reflexivity.
Defined.

(** C8 as stated fails: the same entities, intents, quota and flag, and two
    states of the random source, give two different sets of Examples. *)
Lemma C8_counterexample :
  self (demo_loaded 1 true [0; 0]) = self (demo_loaded 1 true [1; 1])
  /\ dataset (self (final (genrate_dataset (demo_loaded 1 true [0; 0]))))
     = [mkExample "play yesterday" 0 [0%Z; 1%Z];
        mkExample "weather in new york" 1 [0%Z; 0%Z; 2%Z; 2%Z]]
  /\ dataset (self (final (genrate_dataset (demo_loaded 1 true [1; 1]))))
     = [mkExample "play let it be" 0 [0%Z; 1%Z; 1%Z; 1%Z];
        mkExample "weather in" 1 [0%Z; 0%Z]]
  /\ dataset (self (final (genrate_dataset (demo_loaded 1 true [0; 0]))))
     <> dataset (self (final (genrate_dataset (demo_loaded 1 true [1; 1])))).
Proof.
  split; [reflexivity|]. split; [reflexivity|]. split; [reflexivity|].
  vm_compute. discriminate.
Qed.

(** ** Entity ids and the origin of labels *)

Section Loader.

Lemma read_samples_ids (start_id : Z) (ls : list string) :
  Forall (fun p : labelled => snd p = start_id) (read_samples true start_id ls).
Proof.
  unfold read_samples. apply Forall_map. apply Forall_forall.
  intros line _. reflexivity.
Qed.

Lemma load_raw_loop_ids (files : list File) : forall start_id data,
  (1 <= start_id)%Z -> group_ids data ->
  group_ids (load_raw_loop true files start_id data).
Proof.
  induction files as [|file files IH]; intros start_id data Hstart Hdata;
    [exact Hdata|].
  cbn [load_raw_loop]. apply IH; [lia|].
  unfold group_ids, sset.
  apply (DictFacts.all_entries_set string_dec
           (fun _ values => exists id, (1 <= id)%Z
                                       /\ Forall (fun p : labelled => snd p = id) values)).
  - exact Hdata.
  - exists start_id. split; [exact Hstart | apply read_samples_ids].
Qed.

(** The ids that [_load_raw] attaches: one per group, at least 1. *)
Lemma load_raw_ids (files : list File) : group_ids (_load_raw files true).
Proof.
  unfold _load_raw. apply load_raw_loop_ids; [lia|]. intros ? ? [].
Qed.

End Loader.

Section Origin.
Context {RS : RandomSource}.

(** The object that [load] leaves is fresh but for the entities, the
    intents and their label maps, and its entity ids are those of
    [_load_raw]. *)
Lemma load_fresh (path : string) (samples : Z) (dup : bool) (e : Env) :
  filled_prompts (self (loaded path samples dup e)) = []
  /\ premutated_prompts (self (loaded path samples dup e)) = []
  /\ generated_prompts (self (loaded path samples dup e)) = []
  /\ dataset (self (loaded path samples dup e)) = []
  /\ group_ids (entities (self (loaded path samples dup e))).
Proof.
  unfold loaded, load, bind, get_self, get_env. cbn.
  destruct (isdir e path); cbn; repeat split; try (intros ? ? []).
  apply load_raw_ids.
Qed.

Lemma fill_words_sourced (ents : sdict (list labelled)) :
  group_ids ents ->
  forall tokens slots u,
    fill_words ents tokens = inr slots ->
    Forall2 (fun pair slot => In pair slot) u slots ->
    Forall2 (sourced ents) tokens u.
Proof.
  intros Hids. induction tokens as [|token tokens IH]; intros slots u Hfill Hu.
  - cbn in Hfill. injection Hfill as <-. inversion Hu. constructor.
  - cbn in Hfill.
    destruct (fill_word ents token) as [e|slot] eqn:Hw; [discriminate|].
    destruct (fill_words ents tokens) as [e|slots'] eqn:Hws; [discriminate|].
    injection Hfill as <-. inversion Hu as [|choice slot0 u' slots0 Hc Hu']; subst.
    constructor; [|now apply (IH slots')].
    unfold fill_word in Hw. unfold sourced.
    destruct (is_placeholder token).
    + destruct (sget (Str.slice_1_m1 token) ents) as [values|] eqn:Hget;
        [|discriminate].
      injection Hw as <-. exists values.
      destruct (Hids _ _ (DictFacts.get_in string_dec _ _ _ Hget))
        as (id & Hid & Hall).
      pose proof Hall as Hall'. rewrite Forall_forall in Hall'.
      rewrite (Hall' _ Hc). repeat split; assumption.
    + injection Hw as <-. destruct Hc as [<-|[]]. reflexivity.
Qed.

(** The entries that slot filling adds are filled templates of the
    category. *)
Lemma slot_filling_filled (s : State) :
  (forall category samples,
      In (category, samples) (filled_prompts (self s)) ->
      Forall (filled_from (entities (self s)) (intents (self s)) category) samples) ->
  forall category samples,
    In (category, samples) (filled_prompts (self (final (_slot_filling s)))) ->
    Forall (filled_from (entities (self s)) (intents (self s)) category) samples.
Proof.
  set (P := fun category samples =>
              Forall (filled_from (entities (self s)) (intents (self s)) category)
                     samples).
  set (I := fun t : State =>
              only_filled s t
              /\ forall category samples,
                   In (category, samples) (filled_prompts (self t)) ->
                   P category samples).
  intros Hs. enough (HI : I (final (_slot_filling s))) by exact (proj2 HI).
  unfold _slot_filling. unfold bind at 1. unfold get_self at 1.
  apply for_each_final; [|split; [apply only_filled_refl | exact Hs]].
  intros intent t Hin [Hof Hent].
  destruct (only_filled_fields _ _ Hof) as (Hents & Hints & _).
  unfold bind at 1. unfold update_self at 1. unfold bind at 1.
  unfold get_self at 1. cbn [self intents with_filled_prompts].
  unfold bind at 1. rewrite Hints.
  destruct (sget intent (intents (self s))) as [templates|] eqn:Hget;
    cbn [or_raise ret raise final].
  2:{ split; [now apply only_filled_set|]. cbn [self filled_prompts with_filled_prompts].
      apply DictFacts.all_entries_set; [exact Hent | constructor]. }
  apply for_each_final.
  - intros sample u Hsample [Hofu Hentu].
    destruct (only_filled_fields _ _ Hofu) as (Hentsu & _).
    unfold fill_and_append, bind, get_self.
    destruct (sget intent (filled_prompts (self u))) as [cur|] eqn:Hcur;
      cbn [or_raise ret raise final]; [|split; assumption].
    rewrite Hentsu.
    destruct (fill_sample (entities (self s)) sample) as [e|slots] eqn:Hfill;
      cbn [of_sum ret raise final]; [split; assumption|].
    unfold update_self. cbn [final]. split; [now apply only_filled_set|].
    cbn [self filled_prompts with_filled_prompts].
    apply DictFacts.all_entries_set; [exact Hentu|].
    unfold P. apply Forall_app. split.
    + apply (Hentu intent). apply (DictFacts.get_in string_dec). exact Hcur.
    + constructor; [|constructor]. exists templates, sample. auto.
  - split; [now apply only_filled_set|].
    cbn [self filled_prompts with_filled_prompts].
    apply DictFacts.all_entries_set; [exact Hent | constructor].
Qed.

(** What the two pure stages make of filled templates. *)
Lemma expanded_generated (d : Dataset) (ents : sdict (list labelled))
  (ints : sdict (list string)) :
  group_ids ents ->
  (forall category samples,
      In (category, samples) (filled_prompts d) ->
      Forall (filled_from ents ints category) samples) ->
  premutated_prompts d = [] ->
  generated_prompts d = [] ->
  forall category us,
    In (category, us) (generated_prompts (expanded d)) ->
    Forall (labelled_from ents ints category) us.
Proof.
  intros Hids Hfilled Hpp Hgp. unfold expanded.
  cbn [generated_prompts premutated_prompts with_generated_prompts
       with_premutated_prompts].
  rewrite Hpp, Hgp.
  apply (assign_all_entries category_prompts_of _
           (fun category us => Forall (labelled_from ents ints category) us));
    [|intros ? ? []].
  intros category expansions Hget. apply (DictFacts.get_in string_dec) in Hget.
  revert category expansions Hget.
  pose proof (assign_all_entries permutations_of (filled_prompts d)
                (fun category us => Forall (labelled_from ents ints category)
                                           (category_prompts_of us))) as H.
  apply H; [|intros ? ? []]. clear H.
  intros category samples Hget. apply (DictFacts.get_in string_dec) in Hget.
  specialize (Hfilled _ _ Hget). rewrite Forall_forall in Hfilled.
  unfold category_prompts_of, permutations_of.
  apply Forall_map. apply Forall_forall. intros u Hu.
  apply in_flat_map in Hu as (slots & Hslots & Hu).
  destruct (Hfilled _ Hslots) as (templates & template & Hts & Ht & Hfill).
  exists u. split; [|reflexivity].
  exists templates, template. repeat split; try assumption.
  apply (fill_words_sourced ents Hids _ slots); [exact Hfill|].
  now apply product_spec.
Qed.

Lemma labelled_example (ents : sdict (list labelled)) (ints : sdict (list string))
  (category : string) (g : list labelled) (index : nat) :
  labelled_from ents ints category g -> example_from ents ints (example_of g index).
Proof.
  intros (u & Hu & ->). exists category, u. repeat split. exact Hu.
Qed.

(** Every word that a choice turns into carries the label of the choice:
    0 for a literal token, the id of the group, at least 1, for a
    placeholder. *)
Lemma sourced_labels (ents : sdict (list labelled)) (token : string)
  (choice : labelled) :
  sourced ents token choice ->
  forall w l,
    In (w, l) (distribute_word choice) ->
    l = snd choice
    /\ (l = 0%Z <-> is_placeholder token = false)
    /\ (is_placeholder token = true -> (1 <= l)%Z).
Proof.
  intros Hsrc w l Hin.
  assert (Hl : l = snd choice).
  { unfold distribute_word in Hin.
    destruct (Str.is_empty (fst choice)); [destruct Hin|].
    apply in_map_iff in Hin as (w' & Heq & _). congruence. }
  split; [exact Hl|]. unfold sourced in Hsrc.
  destruct (is_placeholder token).
  - destruct Hsrc as (values & _ & _ & Hge & _). rewrite <- Hl in Hge.
    repeat split; intros; try congruence; lia.
  - subst choice. cbn in Hl. repeat split; congruence.
Qed.

(** C3: every Example that a generation run emits after [load] comes from a
    template of its intent by one choice per token; a literal token gives
    itself with label 0, a placeholder gives a value of the group it names
    with the id that [_load_raw] gave the group, which is at least 1 and the
    same on all values of the group; the words of the Example inherit the
    label of their choice.  So label 0 sits on words of literal tokens only,
    and never on a word of an entity value. *)
Theorem C3_label_zero_only_on_literals (path : string) (samples : Z) (dup : bool)
  (e : Env) (ex : Example) :
  In ex (dataset (self (final (genrate_dataset (loaded path samples dup e))))) ->
  exists category templates template choices,
    sget category (intents (self (loaded path samples dup e))) = Some templates
    /\ In template templates
    /\ Forall2 (sourced (entities (self (loaded path samples dup e))))
               (Str.split template) choices
    /\ prompts ex = Str.join " " (map fst (distribute_sample choices))
    /\ word_entities ex = map snd (distribute_sample choices)
    /\ Forall2
         (fun token choice =>
            forall w l,
              In (w, l) (distribute_word choice) ->
              l = snd choice
              /\ (l = 0%Z <-> is_placeholder token = false)
              /\ (is_placeholder token = true -> (1 <= l)%Z))
         (Str.split template) choices.
Proof.
  destruct (load_fresh path samples dup e) as (Hfp & Hpp & Hgp & Hds & Hids).
  remember (loaded path samples dup e) as s0 eqn:Hs0. clear Hs0.
  intros Hex.
  assert (HX : Forall (example_from (entities (self s0)) (intents (self s0)))
                 (dataset (self (final (genrate_dataset s0))))).
  { pose proof (slot_filling_rule s0) as Hrule.
    pose proof (slot_filling_filled s0) as Hfilled.
    destruct (_slot_filling s0) as [[] t|x t] eqn:Hrun.
    - destruct Hrule as [Hof _].
      destruct (only_filled_fields _ _ Hof) as (_ & _ & Hdst & _).
      destruct Hof as [fp Hfpt].
      rewrite (genrate_dataset_steps s0 t Hrun).
      apply (generate_dataset_entrywise
               (labelled_from (entities (self s0)) (intents (self s0)))
               (example_from (entities (self s0)) (intents (self s0)))).
      + intros category u index. apply labelled_example.
      + split.
        * cbn [self]. apply expanded_generated; [exact Hids| | |].
          -- apply Hfilled. rewrite Hfp. intros ? ? [].
          -- rewrite Hfpt. cbn. exact Hpp.
          -- rewrite Hfpt. cbn. exact Hgp.
        * cbn [self]. unfold expanded. cbn. rewrite Hdst, Hds. constructor.
    - rewrite (genrate_dataset_raise s0 t x Hrun). cbn [final].
      destruct Hrule as [_ Hof].
      destruct (only_filled_fields _ _ Hof) as (_ & _ & Hdst & _).
      rewrite Hdst, Hds. constructor. }
  rewrite Forall_forall in HX.
  destruct (HX ex Hex) as (category & u & (templates & template & Hts & Ht & Hsrc)
                           & Htext & Hlabels).
  exists category, templates, template, u. repeat split; try assumption.
  clear - Hsrc. induction Hsrc as [|token choice tokens u Hc Hrest IH];
    constructor; [|exact IH].
  now apply (sourced_labels _ _ _ Hc).
Qed.

End Origin.

Lemma C3_witness :
  exists category templates template choices,
    sget category (intents (self (loaded "ds" 5 false (demo_env [])))) = Some templates
    /\ In template templates
    /\ Forall2 (sourced (entities (self (loaded "ds" 5 false (demo_env [])))))
               (Str.split template) choices
    /\ "weather in new york" = Str.join " " (map fst (distribute_sample choices))
    /\ [0%Z; 0%Z; 2%Z; 2%Z] = map snd (distribute_sample choices)
    /\ Forall2
         (fun token choice =>
            forall w l,
              In (w, l) (distribute_word choice) ->
              l = snd choice
              /\ (l = 0%Z <-> is_placeholder token = false)
              /\ (is_placeholder token = true -> (1 <= l)%Z))
         (Str.split template) choices.
Proof.
  apply (C3_label_zero_only_on_literals "ds" 5 false (demo_env [])
           (mkExample "weather in new york" 1 [0%Z; 0%Z; 2%Z; 2%Z])).
  right. right. left. reflexivity.
Defined.

(** ** The entity label map and the entity ids *)

Section Numbering.

Lemma groups_from_keys (files : list File) : forall start,
  Dict.keys (groups_from start files) = map stem files.
Proof.
  induction files as [|f files IH]; intros start; cbn; [reflexivity|].
  f_equal. apply IH.
Qed.

Lemma load_raw_loop_distinct (files : list File) : forall start data,
  NoDup (map stem files) ->
  (forall f, In f files -> ~ In (stem f) (Dict.keys data)) ->
  load_raw_loop true files start data = data ++ groups_from start files.
Proof.
  induction files as [|f files IH]; intros start data Hnd Hfresh; cbn.
  - now rewrite app_nil_r.
  - inversion Hnd as [|x l Hx Hnd']; subst.
    unfold sset. rewrite DictFacts.set_fresh by (apply Hfresh; now left).
    rewrite IH; [now rewrite <- app_assoc|exact Hnd'|].
    intros g Hg. unfold Dict.keys. rewrite map_app, in_app_iff. cbn.
    intros [Hin|[Heq|[]]].
    + apply (Hfresh g); [now right | exact Hin].
    + apply Hx. rewrite Heq. now apply in_map.
Qed.

Lemma mapping_loop_fresh (items : list string) : forall counter labels,
  (forall k, In k (Dict.keys labels) -> (k < counter)%Z) ->
  mapping_loop items counter labels = labels ++ labels_from counter items.
Proof.
  induction items as [|item items IH]; intros counter labels Hlt; cbn.
  - now rewrite app_nil_r.
  - unfold zset. rewrite DictFacts.set_fresh.
    + rewrite IH; [now rewrite <- app_assoc|].
      intros k. unfold Dict.keys. rewrite map_app, in_app_iff. cbn.
      intros [Hin|[<-|[]]]; [|lia]. specialize (Hlt k Hin). lia.
    + intros Hin. specialize (Hlt _ Hin). lia.
Qed.

Lemma labels_from_names (items : list string) : forall start key name,
  In (key, name) (labels_from start items) -> In name items.
Proof.
  induction items as [|item items IH]; intros start key name; cbn; [tauto|].
  intros [H|H]; [left; congruence | right; eauto].
Qed.

Lemma groups_from_names (files : list File) (start : Z) (name : string)
  (values : list labelled) :
  In (name, values) (groups_from start files) -> In name (map stem files).
Proof.
  intros H. rewrite <- (groups_from_keys files start).
  unfold Dict.keys. change name with (fst (name, values)). now apply in_map.
Qed.

Lemma numbering_agrees (files : list File) : forall start key name values,
  NoDup (map stem files) ->
  In (key, name) (labels_from start (map stem files)) ->
  In (name, values) (groups_from start files) ->
  Forall (fun p : labelled => snd p = key) values.
Proof.
  induction files as [|f files IH]; intros start key name values Hnd Hl Hg;
    [destruct Hl|].
  inversion Hnd as [|x l Hx Hnd']; subst. cbn in Hl, Hg.
  destruct Hl as [Hl|Hl], Hg as [Hg|Hg].
  - injection Hl as <- <-. injection Hg as <-. apply read_samples_ids.
  - injection Hl as <- <-. apply groups_from_names in Hg. contradiction.
  - injection Hg as <- _. apply labels_from_names in Hl. contradiction.
  - now apply (IH (start + 1)%Z key name).
Qed.

(** When no two entity files share a stem, the key of a group in the entity
    label map is the id on the values of the group: 1 plus the position of
    its file. *)
Lemma label_map_matches_ids (files : list File) (key : Z) (name : string)
  (values : list labelled) :
  NoDup (map stem files) ->
  In (key, name) (_generate_mapping (_load_raw files true) 1) ->
  sget name (_load_raw files true) = Some values ->
  Forall (fun p : labelled => snd p = key) values.
Proof.
  intros Hnd Hkey Hget. apply (DictFacts.get_in string_dec) in Hget.
  unfold _generate_mapping, _load_raw in *.
  rewrite load_raw_loop_distinct in Hkey, Hget by (auto; intros ? ? []).
  cbn [app] in Hkey, Hget.
  rewrite mapping_loop_fresh in Hkey by (intros ? []).
  cbn [app] in Hkey. rewrite groups_from_keys in Hkey.
  now apply (numbering_agrees files 1%Z key name).
Qed.

End Numbering.

(** C10 fails on the code when two entity files share a stem: the later
    file takes the place of the earlier one in the dictionary and brings its
    own id, while the label map numbers the keys of the dictionary afresh.
    Here [city] is key 1 of the label map and its values carry id 3, which
    the map does not have; the Examples are labelled with 3. *)
Lemma C10_duplicate_stem_diverges :
  entities (self (loaded "ds" 5 false two_cities_env))
  = [("city", [("new york", 3%Z)]); ("song", [("yesterday", 2%Z)])]
  /\ entities_label (self (loaded "ds" 5 false two_cities_env))
     = [(1%Z, "city"); (2%Z, "song")]
  /\ dataset (self (final (genrate_dataset (loaded "ds" 5 false two_cities_env))))
     = [mkExample "weather in new york" 0 [0%Z; 0%Z; 3%Z; 3%Z]].
Proof. repeat split; vm_compute; reflexivity. Qed.

(** ** The categories that reach the sampler are in the intent label map *)

Section Categories.
Context {RS : RandomSource}.

Lemma keys_set {V} (k k0 : string) (v : V) (d : sdict V) :
  In k (Dict.keys (sset k0 v d)) -> k = k0 \/ In k (Dict.keys d).
Proof.
  unfold Dict.keys. intros H. apply in_map_iff in H as ([k' v'] & <- & Hin).
  apply DictFacts.in_set in Hin as [Heq|Hin].
  - left. now injection Heq.
  - right. change k' with (fst (k', v')). now apply in_map.
Qed.

Lemma assign_all_keys {V W} (f : V -> W) (src : sdict V) (ks : list string) :
  forall (dst : sdict W) k,
    In k (Dict.keys (assign_all f src ks dst)) ->
    In k (Dict.keys src) \/ In k (Dict.keys dst).
Proof.
  induction ks as [|k0 ks IH]; intros dst k H; [now right|].
  unfold assign_all in *. cbn [fold_left] in H. apply IH in H as [H|H]; [now left|].
  destruct (sget k0 src) as [v|] eqn:Hget; [|now right].
  apply keys_set in H as [->|H]; [left|now right].
  eapply DictFacts.get_in_keys. exact Hget.
Qed.

Lemma slot_filling_keys (s : State) (k : string) :
  In k (Dict.keys (filled_prompts (self (final (_slot_filling s))))) ->
  In k (Dict.keys (filled_prompts (self s))) \/ In k (Dict.keys (intents (self s))).
Proof.
  set (I := fun t : State =>
              forall k, In k (Dict.keys (filled_prompts (self t))) ->
                        In k (Dict.keys (filled_prompts (self s)))
                        \/ In k (Dict.keys (intents (self s)))).
  enough (HI : I (final (_slot_filling s))) by apply HI.
  unfold _slot_filling. unfold bind at 1. unfold get_self at 1.
  apply for_each_final; [|intros k' Hk'; now left].
  intros intent t Hin Ht.
  assert (Hset : I (mkState (with_filled_prompts
                               (sset intent [] (filled_prompts (self t))) (self t))
                            (env t))).
  { intros k' Hk'. cbn in Hk'. apply keys_set in Hk' as [->|Hk']; [now right|auto]. }
  unfold bind at 1. unfold update_self at 1.
  apply final_bind; [exact Hset|]. intros d u Hu.
  apply final_bind.
  { destruct (sget intent (intents d)); cbn; exact Hu. }
  intros samples v Hv. apply for_each_final; [|exact Hv].
  intros sample w _ Hw. unfold fill_and_append, bind, get_self.
  destruct (sget intent (filled_prompts (self w))) as [cur|] eqn:Hcur;
    cbn [or_raise ret raise final]; [|exact Hw].
  destruct (fill_sample (entities (self w)) sample);
    cbn [of_sum ret raise final]; [exact Hw|].
  intros k' Hk'. cbn in Hk'. apply keys_set in Hk' as [->|Hk']; [|auto].
  apply Hw. eapply DictFacts.get_in_keys. exact Hcur.
Qed.

Lemma labels_from_values (items : list string) : forall start,
  Dict.values (labels_from start items) = items.
Proof.
  induction items as [|item items IH]; intros start; cbn; [reflexivity|].
  f_equal. apply IH.
Qed.

(** The values of a label map are the keys it was made from, in order. *)
Lemma generate_mapping_values {V} (data : sdict V) (start_at : Z) :
  Dict.values (_generate_mapping data start_at) = Dict.keys data.
Proof.
  unfold _generate_mapping. rewrite mapping_loop_fresh by (intros ? []).
  apply labels_from_values.
Qed.

Lemma load_intents_label (path : string) (samples : Z) (dup : bool) (e : Env) :
  Dict.values (intents_label (self (loaded path samples dup e)))
  = Dict.keys (intents (self (loaded path samples dup e))).
Proof.
  unfold loaded, load, bind, get_self, get_env. cbn.
  destruct (isdir e path); cbn; [|reflexivity].
  apply generate_mapping_values.
Qed.

(** After [load], every category that the sampler meets has an index in
    the intent label map. *)
Lemma categories_labelled (path : string) (samples : Z) (dup : bool) (e : Env)
  (t : State) (category : string) :
  _slot_filling (loaded path samples dup e) = Ok tt t ->
  In category (Dict.keys (generated_prompts (expanded (self t)))) ->
  In category (Dict.values (intents_label (expanded (self t)))).
Proof.
  intros Hrun Hin.
  destruct (load_fresh path samples dup e) as (Hfp & Hpp & Hgp & _ & _).
  pose proof (load_intents_label path samples dup e) as Hlab.
  pose proof (slot_filling_keys (loaded path samples dup e)) as Hkeys.
  pose proof (slot_filling_rule (loaded path samples dup e)) as Hrule.
  rewrite Hrun in Hkeys, Hrule. cbn [final] in Hkeys.
  destruct Hrule as [[fp Ht] _]. rewrite Hfp in Hkeys.
  assert (Hlab' : Dict.values (intents_label (expanded (self t)))
                  = Dict.keys (intents (self (loaded path samples dup e))))
    by (rewrite Ht; exact Hlab).
  rewrite Hlab'. unfold expanded in Hin.
  cbn [generated_prompts premutated_prompts with_generated_prompts
       with_premutated_prompts] in Hin.
  assert (Hpp' : premutated_prompts (self t) = []) by (rewrite Ht; exact Hpp).
  assert (Hgp' : generated_prompts (self t) = []) by (rewrite Ht; exact Hgp).
  rewrite Hpp', Hgp' in Hin.
  apply assign_all_keys in Hin as [Hin|[]].
  apply assign_all_keys in Hin as [Hin|[]].
  destruct (Hkeys category Hin) as [[]|H]. exact H.
Qed.

End Categories.

(** * Further properties of the code *)

(** ** The Cartesian product, once more *)

Section ProductMore.
Context {A : Type}.

(** A pool without an element leaves no combination at all, and only that
    does. *)
Lemma product_empty_iff (pools : list (list A)) :
  product pools = [] <-> In [] pools.
Proof.
  induction pools as [|pool rest IH]; cbn.
  - split; [discriminate | intros []].
  - split.
    + intros H. destruct pool as [|x pool]; [now left|]. right. apply IH.
      cbn in H. apply app_eq_nil in H as [H _].
      destruct (product rest); [reflexivity | discriminate].
    + intros [->|H]; [reflexivity|]. apply IH in H. rewrite H.
      induction pool as [|x pool IHp]; cbn; auto.
Qed.

Lemma NoDup_map_cons (x : A) (l : list (list A)) :
  NoDup l -> NoDup (map (cons x) l).
Proof.
  induction 1 as [|u l Hu Hl IH]; cbn; constructor; [|exact IH].
  intros H. apply in_map_iff in H as (v & Heq & Hv). injection Heq as ->.
  contradiction.
Qed.

(** Pools without repetitions give combinations without repetitions. *)
Lemma product_NoDup (pools : list (list A)) :
  Forall (@NoDup A) pools -> NoDup (product pools).
Proof.
  induction 1 as [|pool rest Hpool Hrest IH]; cbn.
  - constructor; [intros [] | constructor].
  - induction Hpool as [|x pool Hx Hpool IHp]; cbn; [constructor|].
    apply NoDup_app; [now apply NoDup_map_cons | exact IHp |].
    intros u Hu Hu'. apply in_map_iff in Hu as (v & <- & _).
    apply in_flat_map in Hu' as (y & Hy & Hu').
    apply in_map_iff in Hu' as (w & Heq & _). injection Heq as -> _.
    contradiction.
Qed.

End ProductMore.

(** ** Filled templates and their expansions *)

Section FilledTemplates.

Lemma fill_words_slots (ents : sdict (list labelled)) (words : list string) :
  forall slots,
    fill_words ents words = inr slots ->
    Forall2 (fun word slot =>
               if is_placeholder word
               then sget (Str.slice_1_m1 word) ents = Some slot
               else slot = [(word, 0%Z)])
            words slots.
Proof.
  induction words as [|w words IH]; intros slots H; cbn in H.
  - injection H as <-. constructor.
  - destruct (fill_word ents w) as [e|slot] eqn:Hw; [discriminate|].
    destruct (fill_words ents words) as [e|rest]; [discriminate|].
    injection H as <-. constructor; [|now apply IH].
    unfold fill_word in Hw. destruct (is_placeholder w).
    + destruct (sget (Str.slice_1_m1 w) ents); [|discriminate]. congruence.
    + congruence.
Qed.

(** X1: a template that fills contributes no utterance exactly when one of
    its placeholders names an entity group without a value (an entity file
    with comment lines only). *)
Theorem empty_group_silences_template (ents : sdict (list labelled))
  (template : string) (slots : list (list labelled)) :
  fill_sample ents template = inr slots ->
  (product slots = []
   <-> exists word,
         In word (Str.split template)
         /\ is_placeholder word = true
         /\ sget (Str.slice_1_m1 word) ents = Some []).
Proof.
  unfold fill_sample. intros H. apply fill_words_slots in H.
  rewrite product_empty_iff. induction H as [|w slot ws slots Hw Hws IH].
  - split; [intros [] | intros (w & [] & _)].
  - split.
    + intros [Hs|Hs].
      * subst slot. exists w. destruct (is_placeholder w); [|discriminate].
        repeat split; [now left | assumption].
      * apply IH in Hs as (w' & Hin & Hp & Hg). exists w'.
        repeat split; [now right | assumption | assumption].
    + intros (w' & [<-|Hin] & Hp & Hg).
      * rewrite Hp in Hw. left. congruence.
      * right. apply IH. eauto.
Qed.

(** X2: when no entity group repeats a value, no template repeats an
    expanded utterance. *)
Theorem distinct_values_distinct_expansions (ents : sdict (list labelled))
  (template : string) (slots : list (list labelled)) :
  (forall name values, sget name ents = Some values -> NoDup values) ->
  fill_sample ents template = inr slots ->
  NoDup (product slots).
Proof.
  unfold fill_sample. intros Hents H. apply fill_words_slots in H.
  apply product_NoDup. induction H as [|w slot ws slots Hw Hws IH];
    constructor; [|exact IH].
  destruct (is_placeholder w).
  - eapply Hents. exact Hw.
  - subst slot. constructor; [intros [] | constructor].
Qed.

End FilledTemplates.

Lemma empty_group_witness :
  product [[("weather", 0%Z)]; []] = []
  <-> exists word,
        In word (Str.split "weather {city}")
        /\ is_placeholder word = true
        /\ sget (Str.slice_1_m1 word) empty_city = Some [].
Proof.
  apply (empty_group_silences_template empty_city "weather {city}").
  vm_compute; reflexivity.
Defined.

Lemma distinct_values_witness :
  NoDup (product [[("play", 0%Z)]; [("yesterday", 1%Z); ("let it be", 1%Z)]]).
Proof.
  apply (distinct_values_distinct_expansions
           [("song", [("yesterday", 1%Z); ("let it be", 1%Z)])] "play {song}").
  - intros name values H. unfold sget in H. cbn in H.
    destruct (string_dec name "song"); [|discriminate].
    injection H as <-. repeat constructor; cbn; intuition discriminate.
  - vm_compute; reflexivity.
Defined.

(** ** The Label Redistributor *)

Section Redistributor.

(** The test for the empty string is subsumed by the split: an empty value
    has no word. *)
Lemma distribute_word_split (word : labelled) :
  distribute_word word = map (fun w => (w, snd word)) (Str.split (fst word)).
Proof.
  unfold distribute_word. destruct word as [[|c s] l]; reflexivity.
Qed.

(** X3: the words of a redistributed utterance are the words of its values,
    in order; each carries the label of its value; there are as many pairs
    as the values have words. *)
Theorem distribute_sample_words_and_labels (sample : list labelled) :
  words_of (distribute_sample sample)
  = flat_map (fun p => Str.split (fst p)) sample
  /\ labels_of (distribute_sample sample)
     = flat_map (fun p => repeat (snd p) (List.length (Str.split (fst p)))) sample
  /\ List.length (distribute_sample sample)
     = list_sum (map (fun p => List.length (Str.split (fst p))) sample).
Proof.
  unfold words_of, labels_of, distribute_sample.
  induction sample as [|p sample (IHw & IHl & IHn)]; [repeat split|].
  change (flat_map distribute_word (p :: sample))
    with (distribute_word p ++ flat_map distribute_word sample).
  rewrite !map_app, length_app. unfold labelled in *. rewrite IHw, IHl, IHn.
  rewrite distribute_word_split, !map_map, length_map. cbn [fst snd].
  rewrite map_id. repeat split. cbn [flat_map]. f_equal.
  induction (Str.split (fst p)); cbn; congruence.
Qed.

Lemma distribute_words_only (u : list labelled) :
  words_only u -> distribute_sample u = u.
Proof.
  unfold distribute_sample. induction 1 as [|[w l] u Hw Hu IH]; [reflexivity|].
  cbn [flat_map]. rewrite IH, distribute_word_split. cbn [fst snd] in *.
  now rewrite StrFacts.split_word.
Qed.

(** X4: redistribution is idempotent: it leaves its own result (every
    utterance made of words) as it is. *)
Theorem distribute_sample_idempotent (sample : list labelled) :
  distribute_sample (distribute_sample sample) = distribute_sample sample.
Proof. apply distribute_words_only. apply distribute_sample_words. Qed.

Lemma combine_fst_snd {A B} (l : list (A * B)) :
  combine (map fst l) (map snd l) = l.
Proof. induction l as [|[a b] l IH]; cbn; congruence. Qed.

(** X5: an Example can be decoded: splitting its text and pairing the
    words with its labels gives back the labelled utterance it was built
    from. *)
Theorem example_round_trip (sample : list labelled) (index : nat) :
  combine (Str.split (prompts (example_of (distribute_sample sample) index)))
          (word_entities (example_of (distribute_sample sample) index))
  = distribute_sample sample
  /\ prompt_intent (example_of (distribute_sample sample) index) = Z.of_nat index.
Proof.
  split; [|reflexivity]. cbn [prompts word_entities example_of].
  pose proof (distribute_sample_words sample) as Hw.
  rewrite StrFacts.split_join by (apply Forall_map; exact Hw).
  apply combine_fst_snd.
Qed.

End Redistributor.

(** ** Placeholders *)

Section Placeholders.

Lemma endswith_snoc (s : string) (c d : ascii) :
  Str.endswith_char d (s ++ String c "") = Ascii.eqb c d.
Proof.
  induction s as [|x s IH]; [reflexivity|].
  cbn. rewrite IH. destruct (s ++ String c "")%string eqn:E; [|reflexivity].
  destruct s; discriminate.
Qed.

Lemma drop_last_snoc (s : string) (c : ascii) :
  Str.drop_last (s ++ String c "") = s.
Proof.
  induction s as [|x s IH]; [reflexivity|].
  cbn. rewrite IH. destruct (s ++ String c "")%string eqn:E; [|reflexivity].
  destruct s; discriminate.
Qed.

Lemma endswith_drop_last (s : string) (c : ascii) :
  Str.endswith_char c s = true -> s = (Str.drop_last s ++ String c "")%string.
Proof.
  induction s as [|x s IH]; [discriminate|]. cbn.
  destruct s as [|y s].
  - intros H. apply Ascii.eqb_eq in H. now subst.
  - intros H. cbn. f_equal. now apply IH.
Qed.

(** X6: a token is a placeholder exactly when it is a name between braces,
    and the name looked up is that name; it is filled with the values of the
    group of that name, or fails with the [KeyError] of that name.  Any
    other token is a literal with label 0. *)
Theorem placeholder_round_trip (ents : sdict (list labelled)) (word : string) :
  (is_placeholder word = true <-> word = placeholder (Str.slice_1_m1 word))
  /\ (forall name,
        is_placeholder (placeholder name) = true
        /\ Str.slice_1_m1 (placeholder name) = name
        /\ fill_word ents (placeholder name)
           = match sget name ents with
             | Some values => inr values
             | None => inl (KeyError name)
             end)
  /\ (is_placeholder word = false -> fill_word ents word = inr [(word, 0%Z)]).
Proof.
  assert (Hname : forall name,
            is_placeholder (placeholder name) = true
            /\ Str.slice_1_m1 (placeholder name) = name).
  { intros name.
    assert (E : placeholder name = (String "{" name ++ String "}" "")%string)
      by reflexivity.
    rewrite E. unfold is_placeholder. rewrite endswith_snoc. split; [reflexivity|].
    change (Str.slice_1_m1 (String "{" name ++ String "}" ""))
      with (Str.drop_last (name ++ String "}" "")).
    apply drop_last_snoc. }
  split; [|split].
  - split.
    + unfold is_placeholder, placeholder. intros H.
      apply andb_true_iff in H as [H1 H2].
      destruct word as [|c s]; [discriminate|]. cbn in H1.
      apply Ascii.eqb_eq in H1. subst c. cbn [Str.slice_1_m1].
      destruct s as [|d s]; [discriminate|].
      change (Str.endswith_char "}" (String d s) = true) in H2.
      apply endswith_drop_last in H2.
      change (String "{" (String d s)
              = String "{" (Str.drop_last (String d s) ++ String "}" ""))%string.
      f_equal. exact H2.
    + intros ->. apply Hname.
  - intros name. destruct (Hname name) as [H1 H2]. repeat split; try assumption.
    unfold fill_word. now rewrite H1, H2.
  - intros H. unfold fill_word. now rewrite H.
Qed.

End Placeholders.

(** ** The loader *)

Section LoaderMore.

Lemma keys_set_in {V} (k : string) (v : V) (d : sdict V) :
  In k (Dict.keys d) -> Dict.keys (sset k v d) = Dict.keys d.
Proof.
  unfold sset. induction d as [|[k' v'] d IH]; cbn; [intros []|].
  destruct (string_dec k k') as [->|Hne]; [reflexivity|].
  intros [H|H]; [congruence|]. cbn. f_equal. now apply IH.
Qed.

Lemma keys_set_fresh {V} (k : string) (v : V) (d : sdict V) :
  ~ In k (Dict.keys d) -> Dict.keys (sset k v d) = Dict.keys d ++ [k].
Proof.
  intros H. unfold sset. rewrite DictFacts.set_fresh by exact H.
  unfold Dict.keys. now rewrite map_app.
Qed.

Lemma load_raw_loop_keys (b : bool) (files : list File) : forall start data,
  Dict.keys (load_raw_loop b files start data)
  = fold_left (fun acc x => if in_dec string_dec x acc then acc else acc ++ [x])
      (map stem files) (Dict.keys data).
Proof.
  induction files as [|f files IH]; intros start data; [reflexivity|].
  cbn [load_raw_loop map fold_left]. rewrite IH. f_equal.
  destruct (in_dec string_dec (stem f) (Dict.keys data)) as [Hin|Hout].
  - now apply keys_set_in.
  - now apply keys_set_fresh.
Qed.

Lemma first_occurrences_loop (l : list string) : forall acc,
  NoDup acc ->
  NoDup (fold_left (fun acc x => if in_dec string_dec x acc then acc else acc ++ [x])
           l acc)
  /\ (forall k,
        In k (fold_left
                (fun acc x => if in_dec string_dec x acc then acc else acc ++ [x])
                l acc)
        <-> In k acc \/ In k l)
  /\ List.length (fold_left
                    (fun acc x => if in_dec string_dec x acc then acc else acc ++ [x])
                    l acc)
     <= List.length acc + List.length l.
Proof.
  induction l as [|x l IH]; intros acc Hacc; cbn [fold_left].
  - repeat split; [assumption | tauto | intros [H|[]]; exact H | cbn; lia].
  - destruct (in_dec string_dec x acc) as [Hin|Hout].
    + destruct (IH acc Hacc) as (Hnd & Hmem & Hlen). repeat split.
      * exact Hnd.
      * intros H. apply Hmem in H. cbn. tauto.
      * intros [H|[<-|H]]; apply Hmem; tauto.
      * cbn. lia.
    + assert (Hacc' : NoDup (acc ++ [x])).
      { apply NoDup_app; [exact Hacc | repeat constructor; intros [] |].
        intros y Hy [<-|[]]. contradiction. }
      destruct (IH (acc ++ [x]) Hacc') as (Hnd & Hmem & Hlen). repeat split.
      * exact Hnd.
      * intros H. apply Hmem in H. rewrite in_app_iff in H. cbn in *. tauto.
      * intros H. apply Hmem. rewrite in_app_iff. cbn in *. tauto.
      * rewrite length_app in Hlen. cbn in *. lia.
Qed.

(** X7: the dictionary that [_load_raw] returns has one key per distinct
    stem, in the order in which the stems first occur; so it has no more
    entries than there are files. *)
Theorem load_raw_keys (files : list File) (assign_ids : bool) :
  Dict.keys (_load_raw files assign_ids) = first_occurrences (map stem files)
  /\ NoDup (Dict.keys (_load_raw files assign_ids))
  /\ (forall name, In name (Dict.keys (_load_raw files assign_ids))
                   <-> In name (map stem files))
  /\ List.length (_load_raw files assign_ids) <= List.length files.
Proof.
  unfold _load_raw, first_occurrences.
  pose proof (load_raw_loop_keys assign_ids files 1 []) as Hkeys.
  cbn [Dict.keys map] in Hkeys.
  destruct (first_occurrences_loop (map stem files) [] (NoDup_nil _))
    as (Hnd & Hmem & Hlen).
  split; [exact Hkeys|]. rewrite Hkeys. split; [exact Hnd|]. split.
  - intros name. rewrite Hmem. cbn. tauto.
  - rewrite <- (length_map fst). change (map fst ?d) with (Dict.keys d).
    rewrite Hkeys. rewrite length_map in Hlen. exact Hlen.
Qed.

Lemma load_raw_loop_other (b : bool) (files : list File) (name : string) :
  forall start data,
    ~ In name (map stem files) ->
    sget name (load_raw_loop b files start data) = sget name data.
Proof.
  induction files as [|f files IH]; intros start data Hout; [reflexivity|].
  cbn [load_raw_loop]. rewrite IH by (cbn in Hout; tauto).
  unfold sget, sset. apply DictFacts.get_set_other. cbn in Hout. tauto.
Qed.

Lemma load_raw_loop_last (b : bool) (before : list File) :
  forall (file : File) (after : list File) start data,
    ~ In (stem file) (map stem after) ->
    sget (stem file) (load_raw_loop b (before ++ file :: after) start data)
    = Some (read_samples b (start + Z.of_nat (List.length before)) (lines file)).
Proof.
  induction before as [|g before IH]; intros file after start data Hout.
  - cbn [app load_raw_loop List.length]. rewrite load_raw_loop_other by exact Hout.
    unfold sget, sset. rewrite DictFacts.get_set_same. do 2 f_equal. cbn. lia.
  - cbn [app load_raw_loop]. rewrite IH by exact Hout. do 2 f_equal.
    cbn [List.length]. lia.
Qed.

(** X8: of the files that share a stem the last one wins: the group holds
    the lines of that file only, comment lines dropped and the others
    lower-cased and stripped, each with the id 1 plus the position of the
    file in the list. *)
Theorem load_raw_last_file_wins (assign_ids : bool) (before after : list File)
  (file : File) :
  ~ In (stem file) (map stem after) ->
  sget (stem file) (_load_raw (before ++ file :: after) assign_ids)
  = Some (map (fun line => mk_sample assign_ids line
                             (1 + Z.of_nat (List.length before)))
              (filter (fun line => negb (is_comment line)) (lines file))).
Proof. intros H. unfold _load_raw. now rewrite load_raw_loop_last. Qed.

End LoaderMore.

Lemma load_raw_last_file_wins_witness :
  sget "city"
    (_load_raw ([mkFile "city" ["Paris"]; mkFile "song" ["Yesterday"]]
                ++ mkFile "city" ["# towns"; "New York"] :: [])
       true)
  = Some [("new york", 3%Z)].
Proof.
  apply (load_raw_last_file_wins true
           [mkFile "city" ["Paris"]; mkFile "song" ["Yesterday"]] []
           (mkFile "city" ["# towns"; "New York"])).
  intros [].
Defined.

(** ** Normalised lines *)

Section Normalised.
Import Str.

Lemma lower_char_idempotent (c : ascii) : lower_char (lower_char c) = lower_char c.
Proof. destruct c as [[] [] [] [] [] [] [] []]; reflexivity. Qed.

Lemma isspace_lower_char (c : ascii) : isspace (lower_char c) = isspace c.
Proof. destruct c as [[] [] [] [] [] [] [] []]; reflexivity. Qed.

Lemma lower_all_chars (s : string) : all_chars is_lower_char s = true <-> lower s = s.
Proof.
  induction s as [|c s IH]; cbn; [tauto|].
  unfold is_lower_char at 1. rewrite andb_true_iff, IH, Ascii.eqb_eq. split.
  - intros [-> ->]. reflexivity.
  - intros H. injection H as H1 H2. rewrite H1, H2. auto.
Qed.

Lemma lower_is_lower (s : string) : all_chars is_lower_char (lower s) = true.
Proof.
  induction s as [|c s IH]; cbn; [reflexivity|]. rewrite IH.
  unfold is_lower_char. rewrite lower_char_idempotent, Ascii.eqb_refl. reflexivity.
Qed.

Lemma all_chars_app (P : ascii -> bool) (a b : string) :
  all_chars P (a ++ b) = all_chars P a && all_chars P b.
Proof. induction a as [|c a IH]; cbn; [reflexivity|]. now rewrite IH, andb_assoc. Qed.

Lemma all_chars_lstrip (P : ascii -> bool) (s : string) :
  all_chars P s = true -> all_chars P (lstrip s) = true.
Proof.
  induction s as [|c s IH]; cbn; [auto|]. intros H.
  destruct (isspace c); [|exact H]. apply andb_true_iff in H as [_ H]. auto.
Qed.

Lemma all_chars_rstrip (P : ascii -> bool) (s : string) :
  all_chars P s = true -> all_chars P (rstrip s) = true.
Proof.
  induction s as [|c s IH]; cbn; [auto|]. intros H.
  apply andb_true_iff in H as [Hc H].
  destruct (isspace c && is_empty (rstrip s)); cbn; [reflexivity|].
  now rewrite Hc, IH.
Qed.

Lemma all_chars_drop_last (P : ascii -> bool) (s : string) :
  all_chars P s = true -> all_chars P (drop_last s) = true.
Proof.
  induction s as [|c s IH]; cbn; [auto|]. intros H.
  apply andb_true_iff in H as [Hc H]. destruct s; [reflexivity|].
  cbn [all_chars]. rewrite Hc. now apply IH.
Qed.

Lemma all_chars_split_from (P : ascii -> bool) (s : string) : forall acc,
  all_chars P acc = true -> all_chars P s = true ->
  Forall (fun w => all_chars P w = true) (split_from acc s).
Proof.
  induction s as [|c s IH]; intros acc Hacc Hs; cbn.
  - unfold flush. destruct (is_empty acc); constructor; auto.
  - cbn in Hs. apply andb_true_iff in Hs as [Hc Hs].
    destruct (isspace c).
    + unfold flush. destruct (is_empty acc); [|constructor; [exact Hacc|]];
        now apply IH.
    + apply IH; [|exact Hs]. rewrite all_chars_app, Hacc. cbn. now rewrite Hc.
Qed.

Lemma rstrip_idempotent (s : string) : rstrip (rstrip s) = rstrip s.
Proof.
  induction s as [|c s IH]; [reflexivity|]. cbn [rstrip].
  destruct (isspace c && is_empty (rstrip s)) eqn:E; [reflexivity|].
  cbn [rstrip]. now rewrite IH, E.
Qed.

Lemma lstrip_rstrip (s : string) :
  lstrip s = s -> lstrip (rstrip s) = rstrip s.
Proof.
  destruct s as [|c s]; [reflexivity|]. cbn [lstrip rstrip].
  destruct (isspace c) eqn:Hc.
  - intros H. exfalso.
    assert (Hlen : String.length (lstrip s) <= String.length s).
    { clear. induction s as [|d s IH]; cbn; [lia|].
      destruct (isspace d); cbn; lia. }
    rewrite H in Hlen. cbn in Hlen. lia.
  - intros _. cbn [andb]. cbn [lstrip]. now rewrite Hc.
Qed.

Lemma lstrip_idempotent (s : string) : lstrip (lstrip s) = lstrip s.
Proof.
  induction s as [|c s IH]; [reflexivity|]. cbn [lstrip].
  destruct (isspace c) eqn:Hc; [exact IH|]. cbn [lstrip]. now rewrite Hc.
Qed.

Lemma strip_idempotent (s : string) : strip (strip s) = strip s.
Proof.
  unfold strip. rewrite lstrip_rstrip by apply lstrip_idempotent.
  apply rstrip_idempotent.
Qed.

Lemma normalised_line (line : string) :
  lower (strip (lower line)) = strip (lower line)
  /\ strip (strip (lower line)) = strip (lower line).
Proof.
  split; [|apply strip_idempotent]. apply lower_all_chars. unfold strip.
  apply all_chars_rstrip, all_chars_lstrip, lower_is_lower.
Qed.

(** A property of the samples of every file is a property of every entry
    that [_load_raw] returns. *)
Lemma load_raw_entries (assign_ids : bool) (files : list File)
  (P : string -> list (sample_t assign_ids) -> Prop) :
  (forall file start, In file files ->
                      P (stem file) (read_samples assign_ids start (lines file))) ->
  forall name samples,
    In (name, samples) (_load_raw files assign_ids) -> P name samples.
Proof.
  intros HP.
  assert (Hgen : forall fs start data,
            (forall f, In f fs -> In f files) ->
            (forall name samples, In (name, samples) data -> P name samples) ->
            forall name samples,
              In (name, samples) (load_raw_loop assign_ids fs start data) ->
              P name samples).
  { induction fs as [|f fs IH]; intros start data Hsub Hdata; [exact Hdata|].
    cbn [load_raw_loop]. apply IH; [intros g Hg; apply Hsub; now right|].
    unfold sset. apply (DictFacts.all_entries_set string_dec P); [exact Hdata|].
    apply HP. apply Hsub. now left. }
  apply (Hgen files 1%Z [] (fun f H => H)). intros ? ? [].
Qed.

Lemma read_samples_text (assign_ids : bool) (start : Z) (ls : list string)
  (x : sample_t assign_ids) :
  In x (read_samples assign_ids start ls) ->
  exists line,
    In line ls /\ is_comment line = false
    /\ x = mk_sample assign_ids line start
    /\ sample_text assign_ids x = strip (lower line).
Proof.
  unfold read_samples. intros Hin.
  apply in_map_iff in Hin as (line & Heq & Hline).
  apply filter_In in Hline as [Hline Hc]. apply negb_true_iff in Hc.
  exists line. repeat split; auto.
  subst x. destruct assign_ids; reflexivity.
Qed.

(** X9: whatever [_load_raw] loads is normalised: every entity value and
    every template is a line of a file of that stem which does not start
    with [#], lower-cased and stripped; [lower] and [strip] leave it as it
    is. *)
Theorem load_raw_normalised (files : list File) (assign_ids : bool)
  (name : string) (samples : list (sample_t assign_ids)) (x : sample_t assign_ids) :
  In (name, samples) (_load_raw files assign_ids) ->
  In x samples ->
  lower (sample_text assign_ids x) = sample_text assign_ids x
  /\ strip (sample_text assign_ids x) = sample_text assign_ids x
  /\ exists file line id,
       In file files /\ stem file = name /\ In line (lines file)
       /\ is_comment line = false
       /\ x = mk_sample assign_ids line id
       /\ sample_text assign_ids x = strip (lower line).
Proof.
  intros Hent Hx. revert x Hx.
  apply (load_raw_entries assign_ids files
           (fun name samples =>
              forall x, In x samples ->
              lower (sample_text assign_ids x) = sample_text assign_ids x
              /\ strip (sample_text assign_ids x) = sample_text assign_ids x
              /\ exists file line id,
                   In file files /\ stem file = name /\ In line (lines file)
                   /\ is_comment line = false
                   /\ x = mk_sample assign_ids line id
                   /\ sample_text assign_ids x = strip (lower line)));
    [|exact Hent].
  intros file start Hfile x Hin.
  apply read_samples_text in Hin as (line & Hline & Hc & Hx & Htext).
  rewrite Htext. destruct (normalised_line line) as [H1 H2].
  repeat split; try assumption.
  exists file, line, start. repeat split; auto.
Qed.

(** X10: the templates are lower-cased and the stems are not: a placeholder
    of a loaded template names a lower-case group, so an entity file whose
    stem has a capital letter cannot be referred to. *)
Theorem loaded_placeholders_are_lower_case (files : list File)
  (name template word : string) (templates : list string) :
  In (name, templates) (_load_raw files false) ->
  In template templates ->
  In word (split template) ->
  lower (slice_1_m1 word) = slice_1_m1 word.
Proof.
  intros Hent Htpl Hword.
  assert (Hlow : lower template = template).
  { apply (load_raw_entries false files
             (fun _ templates =>
                forall template, In template templates ->
                                 lower template = template))
      with (name := name) (samples := templates); [|exact Hent|exact Htpl].
    intros file start _ tpl Hin.
    apply read_samples_text in Hin as (line & _ & _ & _ & Htext).
    cbn [sample_text] in Htext. rewrite Htext. apply normalised_line. }
  apply lower_all_chars in Hlow. apply lower_all_chars.
  pose proof (all_chars_split_from is_lower_char template "" eq_refl Hlow) as Hall.
  rewrite Forall_forall in Hall. specialize (Hall word Hword).
  destruct word as [|c w]; [reflexivity|]. cbn in Hall |- *.
  apply andb_true_iff in Hall as [_ Hall]. now apply all_chars_drop_last.
Qed.

End Normalised.

Lemma load_raw_normalised_witness :
  Str.lower "new york" = "new york"
  /\ Str.strip "new york" = "new york"
  /\ exists file line id,
       In file [mkFile "city" ["# towns"; " New York "]]
       /\ stem file = "city" /\ In line (lines file)
       /\ is_comment line = false
       /\ ("new york", 1%Z) = mk_sample true line id
       /\ "new york" = Str.strip (Str.lower line).
Proof.
  apply (load_raw_normalised [mkFile "city" ["# towns"; " New York "]] true
           "city" [("new york", 1%Z)] ("new york", 1%Z)).
  - left. reflexivity.
  - left. reflexivity.
Defined.

Lemma loaded_placeholders_witness :
  Str.lower (Str.slice_1_m1 "{city}") = Str.slice_1_m1 "{city}".
Proof.
  apply (loaded_placeholders_are_lower_case
           [mkFile "Weather" ["Weather in {City}"]] "Weather" "weather in {city}"
           "{city}" ["weather in {city}"]).
  - left. reflexivity.
  - left. reflexivity.
  - right. right. left. reflexivity.
Defined.

(** ** The label maps *)

Section LabelMaps.

Lemma labels_from_get (items : list string) : forall start i,
  Dict.get Z.eq_dec (start + Z.of_nat i)%Z (labels_from start items)
  = nth_error items i.
Proof.
  induction items as [|item items IH]; intros start i; cbn.
  - now destruct i.
  - destruct i as [|i].
    + destruct (Z.eq_dec (start + Z.of_nat 0) start); [reflexivity | lia].
    + destruct (Z.eq_dec (start + Z.of_nat (S i)) start); [lia|].
      replace (start + Z.of_nat (S i))%Z with ((start + 1) + Z.of_nat i)%Z by lia.
      apply IH.
Qed.

Lemma labels_from_below (items : list string) : forall start key,
  (key < start)%Z -> Dict.get Z.eq_dec key (labels_from start items) = None.
Proof.
  induction items as [|item items IH]; intros start key Hlt; cbn; [reflexivity|].
  destruct (Z.eq_dec key start); [lia|]. apply IH. lia.
Qed.

Lemma labels_from_keys (items : list string) : forall start,
  Dict.keys (labels_from start items)
  = map (fun i => (start + Z.of_nat i)%Z) (seq 0 (List.length items)).
Proof.
  unfold Dict.keys.
  induction items as [|item items IH]; intros start; [reflexivity|].
  cbn [labels_from map fst List.length seq]. f_equal; [lia|].
  rewrite IH, <- seq_shift, map_map. apply map_ext. intros i. lia.
Qed.

Lemma generate_mapping_labels_from {V} (data : sdict V) (start_at : Z) :
  _generate_mapping data start_at = labels_from start_at (Dict.keys data).
Proof. unfold _generate_mapping. now rewrite mapping_loop_fresh by (intros ? []). Qed.

(** X11: the label map numbers the keys of the dictionary consecutively from
    [start_at], in their order: looking up [start_at + i] gives the [i]-th
    key (nothing past the last), nothing lies below [start_at], and the
    values of the map are the keys of the dictionary. *)
Theorem generate_mapping_lookup {V} (data : sdict V) (start_at : Z) :
  (forall i, Dict.get Z.eq_dec (start_at + Z.of_nat i)%Z
               (_generate_mapping data start_at)
             = nth_error (Dict.keys data) i)
  /\ (forall key, (key < start_at)%Z ->
                  Dict.get Z.eq_dec key (_generate_mapping data start_at) = None)
  /\ Dict.keys (_generate_mapping data start_at)
     = map (fun i => (start_at + Z.of_nat i)%Z) (seq 0 (List.length data))
  /\ Dict.values (_generate_mapping data start_at) = Dict.keys data.
Proof.
  rewrite generate_mapping_labels_from. repeat split.
  - intros i. apply labels_from_get.
  - intros key. apply labels_from_below.
  - rewrite labels_from_keys. unfold Dict.keys. now rewrite length_map.
  - apply labels_from_values.
Qed.

Lemma list_index_nth (x : string) (l : list string) : forall i,
  list_index x l = Some i -> nth_error l i = Some x.
Proof.
  induction l as [|y l IH]; intros i; cbn; [discriminate|].
  destruct (string_dec y x) as [->|Hne].
  - intros H. injection H as <-. reflexivity.
  - destruct (list_index x l) as [j|]; [|discriminate].
    cbn. intros H. injection H as <-. cbn. now apply IH.
Qed.

End LabelMaps.

(** ** The intent index of an Example *)

Section IntentIndex.
Context {RS : RandomSource}.

Variable labels : zdict string.
Variable U : string -> list labelled -> Prop.
Variable X : Example -> Prop.
Hypothesis assembled :
  forall category u index,
    U category u ->
    list_index category (Dict.values labels) = Some index ->
    X (example_of u index).

Local Abbreviation indexed := (indexed labels U X).

Lemma append_examples_indexed (category : string) (samples : list (list labelled)) :
  Forall (U category) samples ->
  forall s, indexed s -> indexed (final (for_each samples (append_example category) s)).
Proof.
  intros Hall. apply for_each_final. intros u t Hu (Hlab & Hgen & Hds).
  unfold append_example, bind, get_self.
  destruct (list_index category (Dict.values (intents_label (self t)))) as [i|] eqn:Hi;
    cbn; [|repeat split; assumption].
  split; [exact Hlab|]. split; [exact Hgen|]. apply Forall_app. split; [exact Hds|].
  constructor; [|constructor]. apply (assembled category).
  - rewrite Forall_forall in Hall. now apply Hall.
  - now rewrite <- Hlab.
Qed.

Lemma sample_category_indexed (category : string) (s : State) :
  indexed s -> indexed (final (sample_category category s)).
Proof.
  intros Hs. unfold sample_category. unfold bind at 1. unfold get_self at 1.
  unfold bind at 1.
  destruct (sget category (generated_prompts (self s))) as [available|] eqn:Hget;
    cbn [or_raise ret raise]; [|exact Hs].
  assert (Hav : Forall (U category) available).
  { destruct Hs as (_ & Hgen & _). apply (Hgen category).
    apply (DictFacts.get_in string_dec). exact Hget. }
  unfold bind at 1.
  destruct (negb (duplicates (self s))
            && (Z.of_nat (List.length available) <? samples_per_intent (self s))%Z).
  - cbn. apply append_examples_indexed; [exact Hav|]. exact Hs.
  - pose proof (choices_members available
                  (Z.to_nat (samples_per_intent (self s))) s) as Hch.
    destruct (choices available _ s) as [drawn s1|e s1].
    + destruct Hch as [Hself Hin].
      apply append_examples_indexed.
      * rewrite Forall_forall in *. intros u Hu. apply Hav. now apply Hin.
      * unfold indexed, entrywise. rewrite Hself. exact Hs.
    + cbn. unfold indexed, entrywise. rewrite Hch. exact Hs.
Qed.

Lemma generate_dataset_indexed (s : State) :
  indexed s -> indexed (final (_generate_dataset s)).
Proof.
  intros Hs. unfold _generate_dataset. unfold bind at 1. unfold get_self at 1.
  apply for_each_final; [|exact Hs].
  intros category t _. apply sample_category_indexed.
Qed.

End IntentIndex.

Section IntentIndexDecoded.
Context {RS : RandomSource}.

Lemma load_intents_label_eq (path : string) (samples : Z) (dup : bool) (e : Env) :
  intents_label (self (loaded path samples dup e))
  = _generate_mapping (intents (self (loaded path samples dup e))) 0.
Proof.
  unfold loaded, load, bind, get_self, get_env. cbn.
  destruct (isdir e path); reflexivity.
Qed.

(** X12: [prompt_intent] can be decoded with the intent label map: after
    [load], every Example that a generation run emits carries the key under
    which the label map holds the intent whose template it was expanded
    from. *)
Theorem prompt_intent_decodes (path : string) (samples : Z) (dup : bool)
  (e : Env) (ex : Example) :
  In ex (dataset (self (final (genrate_dataset (loaded path samples dup e))))) ->
  exists category u,
    from_template (entities (self (loaded path samples dup e)))
                  (intents (self (loaded path samples dup e))) category u
    /\ prompts ex = Str.join " " (map fst (distribute_sample u))
    /\ word_entities ex = map snd (distribute_sample u)
    /\ Dict.get Z.eq_dec (prompt_intent ex)
         (intents_label (self (loaded path samples dup e)))
       = Some category.
Proof.
  destruct (load_fresh path samples dup e) as (Hfp & Hpp & Hgp & Hds & Hids).
  pose proof (load_intents_label_eq path samples dup e) as Hlab.
  remember (loaded path samples dup e) as s0 eqn:Hs0. clear Hs0.
  intros Hex.
  set (ents := entities (self s0)) in *. set (ints := intents (self s0)) in *.
  set (labels := intents_label (self s0)) in *.
  assert (Hasm : forall category g index,
            labelled_from ents ints category g ->
            list_index category (Dict.values labels) = Some index ->
            example_of_intent ents ints labels (example_of g index)).
  { intros category g index (u & Hu & ->) Hidx. exists category, u.
    repeat split; [exact Hu|]. cbn [prompt_intent example_of].
    rewrite Hlab in Hidx |- *. rewrite generate_mapping_values in Hidx.
    apply list_index_nth in Hidx.
    rewrite generate_mapping_labels_from.
    change (Z.of_nat index) with (0 + Z.of_nat index)%Z.
    now rewrite labels_from_get. }
  assert (HX : indexed labels (labelled_from ents ints)
                 (example_of_intent ents ints labels)
                 (final (genrate_dataset s0))).
  { pose proof (slot_filling_rule s0) as Hrule.
    pose proof (slot_filling_filled s0) as Hfilled.
    destruct (_slot_filling s0) as [[] t|x t] eqn:Hrun.
    - destruct Hrule as [Hof _].
      destruct (only_filled_fields _ _ Hof) as (_ & _ & Hdst & _).
      destruct Hof as [fp Hfpt].
      rewrite (genrate_dataset_steps s0 t Hrun).
      apply (generate_dataset_indexed labels _ _ Hasm).
      split; [rewrite Hfpt; reflexivity|]. split.
      + cbn [self]. apply expanded_generated; [exact Hids| | |].
        * apply Hfilled. rewrite Hfp. intros ? ? [].
        * rewrite Hfpt. cbn. exact Hpp.
        * rewrite Hfpt. cbn. exact Hgp.
      + cbn [self]. unfold expanded. cbn. rewrite Hdst, Hds. constructor.
    - rewrite (genrate_dataset_raise s0 t x Hrun). cbn [final].
      destruct Hrule as [_ Hof].
      destruct (only_filled_fields _ _ Hof) as (_ & _ & Hdst & _).
      destruct Hof as [fp Hfpt].
      split; [rewrite Hfpt; reflexivity|]. split.
      + rewrite Hfpt. cbn. rewrite Hgp. intros ? ? [].
      + rewrite Hdst, Hds. constructor. }
  destruct HX as (_ & _ & HX). rewrite Forall_forall in HX.
  exact (HX ex Hex).
Qed.

End IntentIndexDecoded.

Lemma prompt_intent_decodes_witness :
  exists category u,
    from_template (entities (self (loaded "ds" 5 false (demo_env []))))
                  (intents (self (loaded "ds" 5 false (demo_env [])))) category u
    /\ "weather in" = Str.join " " (map fst (distribute_sample u))
    /\ [0%Z; 0%Z] = map snd (distribute_sample u)
    /\ Dict.get Z.eq_dec 1%Z (intents_label (self (loaded "ds" 5 false (demo_env []))))
       = Some category.
Proof.
  apply (prompt_intent_decodes "ds" 5 false (demo_env [])
           (mkExample "weather in" 1 [0%Z; 0%Z])).
  right. right. right. left. reflexivity.
Defined.

(** ** Edges of the sampler *)

Section SamplerEdges.
Context {RS : RandomSource}.

(** X13: with duplicates allowed and a positive quota, an intent without a
    labelled utterance makes the sampler raise [IndexError]; the object is
    as it was, nothing is printed, and the loop stops there: the intents
    after it are not sampled. *)
Theorem empty_population_raises (s : State) (category : string) (rest : list string) :
  sget category (generated_prompts (self s)) = Some [] ->
  duplicates (self s) = true ->
  (0 < samples_per_intent (self s))%Z ->
  exists s',
    sample_category category s = Raise IndexError s'
    /\ for_each (category :: rest) sample_category s = Raise IndexError s'
    /\ self s' = self s
    /\ stdout (env s') = stdout (env s)
    /\ written (env s') = written (env s).
Proof.
  intros Hget Hdup Hq.
  assert (Hrun : exists s', sample_category category s = Raise IndexError s'
                            /\ self s' = self s
                            /\ stdout (env s') = stdout (env s)
                            /\ written (env s') = written (env s)).
  { unfold sample_category. unfold bind at 1. unfold get_self at 1.
    unfold bind at 1. rewrite Hget. cbn [or_raise ret]. rewrite Hdup.
    cbn [negb andb]. unfold bind at 1.
    destruct (Z.to_nat (samples_per_intent (self s))) as [|k] eqn:Hk; [lia|].
    cbn [choices]. unfold bind at 1. unfold random_index.
    destruct (randindex (List.length (@nil (list labelled))) (random_state (env s)))
      as [i g].
    unfold bind at 1. destruct i; cbn; eauto. }
  destruct Hrun as (s' & Hrun & Hrest). exists s'. split; [exact Hrun|].
  split; [|exact Hrest]. cbn [for_each]. unfold bind. now rewrite Hrun.
Qed.

(** X14: a quota of zero or less switches the sampler off: for any flag and
    any intents, also empty or unlabelled ones, [_generate_dataset] returns
    with the state as it was: no Example, no message, no draw. *)
Theorem nonpositive_quota_emits_nothing (s : State) :
  (samples_per_intent (self s) <= 0)%Z ->
  _generate_dataset s = Ok tt s.
Proof.
  intros Hq. unfold _generate_dataset. unfold bind at 1. unfold get_self at 1.
  assert (Hbody : forall category,
            In category (Dict.keys (generated_prompts (self s))) ->
            sample_category category s = Ok tt s).
  { intros category Hin.
    destruct (DictFacts.in_keys_get string_dec category _ Hin) as [available Hget].
    unfold sample_category. unfold bind at 1. unfold get_self at 1.
    unfold bind at 1. unfold sget. rewrite Hget. cbn [or_raise ret].
    assert (Hcond : (Z.of_nat (List.length available) <? samples_per_intent (self s))%Z
                    = false) by (apply Z.ltb_ge; lia).
    rewrite Hcond, andb_false_r. unfold bind at 1.
    replace (Z.to_nat (samples_per_intent (self s))) with 0 by lia.
    reflexivity. }
  induction (Dict.keys (generated_prompts (self s))) as [|k ks IH]; [reflexivity|].
  cbn [for_each]. unfold bind. rewrite Hbody by now left.
  apply IH. intros c Hc. apply Hbody. now right.
Qed.

Lemma list_index_none (x : string) (l : list string) :
  ~ In x l -> list_index x l = None.
Proof.
  induction l as [|y l IH]; [reflexivity|]. intros H. cbn.
  destruct (string_dec y x) as [->|_]; [exfalso; apply H; now left|].
  rewrite IH; [reflexivity|]. intros Hin. apply H. now right.
Qed.

(** X15: a category that the intent label map does not hold (one left in
    the object by an earlier [load]) makes the shortfall branch raise
    [ValueError] at its first utterance, after the diagnostic is printed and
    before any Example is added. *)
Theorem unlabelled_category_raises (s : State) (category : string)
  (u : list labelled) (others : list (list labelled)) :
  sget category (generated_prompts (self s)) = Some (u :: others) ->
  duplicates (self s) = false ->
  (Z.of_nat (List.length (u :: others)) < samples_per_intent (self s))%Z ->
  ~ In category (Dict.values (intents_label (self s))) ->
  exists s',
    sample_category category s = Raise (ValueError category) s'
    /\ self s' = self s
    /\ stdout (env s')
       = stdout (env s) ++ [shortfall_message category (List.length (u :: others))].
Proof.
  intros Hget Hdup Hlt Hout.
  rewrite (sample_category_short s category (u :: others)) by assumption.
  cbn [for_each]. unfold bind at 1. unfold append_example.
  unfold bind at 1. unfold get_self at 1. unfold bind at 1. cbn [self].
  rewrite list_index_none by exact Hout. cbn. eauto.
Qed.

End SamplerEdges.

Lemma empty_population_witness :
  exists s',
    sample_category "silent" (final (expand (silent_loaded 5 true)))
    = Raise IndexError s'
    /\ dataset (self s') = [].
Proof.
  destruct (empty_population_raises (final (expand (silent_loaded 5 true)))
              "silent" [])
    as (s' & Hrun & _ & Hself & _).
  - vm_compute; reflexivity.
  - vm_compute; reflexivity.
  - now vm_compute.
  - exists s'. split; [exact Hrun|]. rewrite Hself; vm_compute; reflexivity.
Defined.

Lemma nonpositive_quota_witness :
  _generate_dataset (final (expand (demo_loaded 0 true [])))
  = Ok tt (final (expand (demo_loaded 0 true []))).
Proof.
  apply (nonpositive_quota_emits_nothing (final (expand (demo_loaded 0 true [])))).
  now vm_compute.
Defined.

Lemma unlabelled_category_witness :
  exists s',
    sample_category "play" (final (expand reloaded)) = Raise (ValueError "play") s'
    /\ dataset (self s') = dataset (self reloaded).
Proof.
  destruct (unlabelled_category_raises (final (expand reloaded)) "play"
              [("play", 0%Z); ("yesterday", 1%Z)]
              [[("play", 0%Z); ("let", 1%Z); ("it", 1%Z); ("be", 1%Z)]])
    as (s' & Hrun & Hself & _).
  - vm_compute; reflexivity.
  - vm_compute; reflexivity.
  - now vm_compute.
  - vm_compute. intros [H|[]]. discriminate.
  - exists s'. split; [exact Hrun|]. rewrite Hself; vm_compute; reflexivity.
Defined.

(** ** What generation leaves alone *)

Section Frame.
Context {RS : RandomSource}.

Lemma extends_refl (s : State) : extends s s.
Proof.
  unfold extends. repeat split; try reflexivity.
  - exists []. now rewrite app_nil_r.
  - exists []. now rewrite app_nil_r.
Qed.

Lemma extends_trans (s t u : State) : extends s t -> extends t u -> extends s u.
Proof.
  unfold extends.
  intros (A0 & A1 & A2 & A3 & A4 & A5 & A6 & A7 & A8 & A9 & A10 & [x Hx] & [m Hm])
         (B0 & B1 & B2 & B3 & B4 & B5 & B6 & B7 & B8 & B9 & B10 & [y Hy] & [n Hn]).
  repeat split; try congruence.
  - exists (x ++ y). rewrite Hy, Hx. now rewrite app_assoc.
  - exists (m ++ n). rewrite Hn, Hm. now rewrite app_assoc.
Qed.

Lemma extends_only_filled (s t : State) : only_filled s t -> extends s t.
Proof.
  intros [fp ->]. unfold extends. cbn. repeat split.
  - exists []. now rewrite app_nil_r.
  - exists []. now rewrite app_nil_r.
Qed.

Lemma choices_extends {A} (population : list A) (k : nat) : forall s,
  extends s (final (choices population k s)).
Proof.
  induction k as [|k IH]; intros s; cbn [choices].
  - apply extends_refl.
  - unfold bind at 1. unfold random_index at 1.
    destruct (randindex (List.length population) (random_state (env s))) as [i g1].
    assert (H1 : extends s (mkState (self s) (with_random_state g1 (env s)))).
    { unfold extends. cbn. repeat split.
      - exists []. now rewrite app_nil_r.
      - exists []. now rewrite app_nil_r. }
    unfold bind at 1.
    destruct (nth_error population i) as [x|]; cbn [or_raise ret raise final];
      [|exact H1].
    unfold bind at 1.
    specialize (IH (mkState (self s) (with_random_state g1 (env s)))).
    destruct (choices population k _) as [rest s'|e s']; cbn [final] in *;
      apply (extends_trans _ _ _ H1 IH).
Qed.

Lemma append_example_extends (category : string) (u : list labelled) (s : State) :
  extends s (final (append_example category u s)).
Proof.
  unfold append_example, bind, get_self.
  destruct (list_index category (Dict.values (intents_label (self s))));
    cbn; [|apply extends_refl].
  unfold extends. cbn. repeat split; eauto.
  exists []. now rewrite app_nil_r.
Qed.

Lemma sample_category_extends (category : string) (s : State) :
  extends s (final (sample_category category s)).
Proof.
  assert (Happ : forall samples t, extends s t ->
            extends s (final (for_each samples (append_example category) t))).
  { intros samples. apply for_each_final. intros u t _ Ht.
    apply (extends_trans _ _ _ Ht). apply append_example_extends. }
  unfold sample_category. unfold bind at 1. unfold get_self at 1.
  unfold bind at 1.
  destruct (sget category (generated_prompts (self s))) as [available|];
    cbn [or_raise ret raise final]; [|apply extends_refl].
  unfold bind at 1.
  destruct (negb (duplicates (self s))
            && (Z.of_nat (List.length available) <? samples_per_intent (self s))%Z).
  - cbn. apply Happ. unfold extends. cbn. repeat split; eauto.
    exists []. now rewrite app_nil_r.
  - pose proof (choices_extends available
                  (Z.to_nat (samples_per_intent (self s))) s) as Hch.
    destruct (choices available _ s) as [drawn t|e t]; cbn [final] in *;
      [now apply Happ | exact Hch].
Qed.

Lemma generate_dataset_extends (s : State) :
  extends s (final (_generate_dataset s)).
Proof.
  unfold _generate_dataset. unfold bind at 1. unfold get_self at 1.
  apply (for_each_final (extends s)); [|apply extends_refl].
  intros category t _ Ht. apply (extends_trans _ _ _ Ht).
  apply sample_category_extends.
Qed.

(** A generation run extends the state, however it ends. *)
Lemma genrate_dataset_frame (s : State) :
  extends s (final (genrate_dataset s)).
Proof.
  pose proof (slot_filling_rule s) as Hrule.
  destruct (_slot_filling s) as [[] t|x t] eqn:Hrun.
  - destruct Hrule as [Hof _]. rewrite (genrate_dataset_steps s t Hrun).
    apply extends_only_filled in Hof.
    apply (extends_trans _ t); [exact Hof|].
    apply (extends_trans _ (mkState (expanded (self t)) (env t)));
      [|apply generate_dataset_extends].
    unfold extends, expanded. cbn. repeat split.
    + exists []. now rewrite app_nil_r.
    + exists []. now rewrite app_nil_r.
  - destruct Hrule as [_ Hof]. rewrite (genrate_dataset_raise s t x Hrun).
    now apply extends_only_filled.
Qed.

(** X16: however a generation run ends, it has not touched the loaded
    entities and intents, their label maps, the configuration or the file
    system, and it has removed neither an Example from the dataset nor a
    line from the output: both have only grown at the end. *)
Theorem genrate_dataset_extends (s : State) :
  dataset_path (self (final (genrate_dataset s))) = dataset_path (self s)
  /\ samples_per_intent (self (final (genrate_dataset s))) = samples_per_intent (self s)
  /\ duplicates (self (final (genrate_dataset s))) = duplicates (self s)
  /\ entities (self (final (genrate_dataset s))) = entities (self s)
  /\ entities_label (self (final (genrate_dataset s))) = entities_label (self s)
  /\ intents (self (final (genrate_dataset s))) = intents (self s)
  /\ intents_label (self (final (genrate_dataset s))) = intents_label (self s)
  /\ isdir (env (final (genrate_dataset s))) = isdir (env s)
  /\ glob (env (final (genrate_dataset s))) = glob (env s)
  /\ written (env (final (genrate_dataset s))) = written (env s)
  /\ (exists examples,
        dataset (self (final (genrate_dataset s))) = dataset (self s) ++ examples)
  /\ (exists messages,
        stdout (env (final (genrate_dataset s))) = stdout (env s) ++ messages).
Proof. exact (proj2 (genrate_dataset_frame s)). Qed.

End Frame.

(** ** Saving *)

Section Saving.
Context {RS : RandomSource}.

(** [write_file] on a file that can be opened, and on one that cannot. *)
Lemma write_file_opens (dir name : string) (c : Content) (s : State) :
  open_error (env s) (dir ++ name) = None ->
  write_file dir name c s
  = Ok tt (mkState (self s)
             (with_written (written (env s) ++ [((dir ++ name)%string, c)]) (env s))).
Proof.
  intros Hopen. unfold write_file, bind, get_env. now rewrite Hopen.
Qed.

Lemma write_file_fails (dir name : string) (c : Content) (s : State) (x : exn) :
  open_error (env s) (dir ++ name) = Some x ->
  write_file dir name c s = Raise x s.
Proof.
  intros Hopen. unfold write_file, bind, get_env. now rewrite Hopen.
Qed.

(** The last step of [save]: one file, named after the format. *)
Lemma save_dispatch (dir form : string) (c : Content) (s : State) :
  (if string_dec form "csv" then write_file dir "/dataset.csv" c
   else if string_dec form "pkl" then write_file dir "/dataset.pkl" c
   else write_file dir "/dataset.json" c) s
  = write_file dir (dataset_file form) c s.
Proof.
  unfold dataset_file.
  destruct (string_dec form "csv"); [|destruct (string_dec form "pkl")];
    reflexivity.
Qed.

Lemma written_nil (s : State) :
  mkState (self s) (with_written (written (env s) ++ []) (env s)) = s.
Proof. rewrite app_nil_r. destruct s as [d []]. reflexivity. Qed.

(** [save], whatever the world answers. *)
Lemma save_run (s : State) (save_path : option string) (form : string) :
  save save_path form s
  = let s' :=
      mkState (self s)
        (with_written
           (written (env s)
            ++ opened (env s) (save_files save_path form (self s)))
           (env s)) in
    match first_failure (env s) (save_files save_path form (self s)) with
    | None => Ok tt s'
    | Some x => Raise x s'
    end.
Proof.
  unfold save_files, save_dir.
  set (dir := match save_path with None => dataset_path (self s) | Some p => p end).
  cbn [opened first_failure fst].
  unfold save. unfold bind at 1. unfold get_self at 1. fold dir.
  unfold bind at 1. unfold _save_maps. unfold bind at 1. unfold get_self at 1.
  unfold bind at 1.
  destruct (open_error (env s) (dir ++ "/intent_labels.json")) as [x|] eqn:H1.
  { rewrite (write_file_fails _ _ _ _ x H1). now rewrite written_nil. }
  rewrite (write_file_opens _ _ _ _ H1).
  destruct (open_error (env s) (dir ++ "/entity_labels.json")) as [x|] eqn:H2.
  { rewrite (write_file_fails _ _ _ _ x) by exact H2. reflexivity. }
  rewrite write_file_opens by exact H2.
  cbn [self env written with_written].
  rewrite save_dispatch.
  destruct (open_error (env s) (dir ++ dataset_file form)) as [x|] eqn:H3.
  { rewrite (write_file_fails _ _ _ _ x) by exact H3.
    cbn [with_written stdout isdir glob open_error written random_state].
    rewrite <- app_assoc. reflexivity. }
  rewrite write_file_opens by exact H3.
  cbn [self env with_written stdout isdir glob open_error written random_state].
  rewrite <- !app_assoc. reflexivity.
Qed.

Lemma first_failure_none (e : Env) (files : list (string * Content)) :
  first_failure e files = None
  <-> Forall (fun file => open_error e (fst file) = None) files.
Proof.
  induction files as [|file files IH]; cbn.
  - split; [constructor | reflexivity].
  - destruct (open_error e (fst file)) eqn:Hopen.
    + split; [discriminate|]. intros H. inversion H. congruence.
    + rewrite IH. split; [now constructor | intros H; now inversion H].
Qed.

Lemma opened_all (e : Env) (files : list (string * Content)) :
  first_failure e files = None -> opened e files = files.
Proof.
  induction files as [|file files IH]; cbn; [reflexivity|].
  destruct (open_error e (fst file)); [discriminate|].
  intros H. now rewrite IH.
Qed.

(** X17: [save] opens its files one after the other, in this order: the
    intent label map, the entity label map and the dataset, in a file named
    after the format, where every format but [csv] and [pkl] means json.  It
    stops at the first file that cannot be opened and raises what [open]
    raises for it: the files before that one are written and stay, the ones
    after it are not opened.  So [save] returns exactly when all three files
    can be opened, and has then written the three.  The object is left as
    it is and nothing is printed, in every case. *)
Theorem save_stops_at_first_failure (s : State) (save_path : option string)
  (form : string) :
  save save_path form s
  = (let s' :=
       mkState (self s)
         (with_written
            (written (env s)
             ++ opened (env s) (save_files save_path form (self s)))
            (env s)) in
     match first_failure (env s) (save_files save_path form (self s)) with
     | None => Ok tt s'
     | Some x => Raise x s'
     end)
  /\ ((exists s', save save_path form s = Ok tt s')
      <-> Forall (fun file => open_error (env s) (fst file) = None)
            (save_files save_path form (self s)))
  /\ (forall s',
        save save_path form s = Ok tt s' ->
        self s' = self s
        /\ stdout (env s') = stdout (env s)
        /\ written (env s')
           = written (env s) ++ save_files save_path form (self s)).
Proof.
  split; [apply save_run|]. split.
  - rewrite save_run. cbv zeta. rewrite <- first_failure_none.
    destruct (first_failure (env s) (save_files save_path form (self s))).
    + split; [intros [s' H]; discriminate | discriminate].
    + split; [reflexivity | eauto].
  - intros s'. rewrite save_run. cbv zeta.
    destruct (first_failure (env s) (save_files save_path form (self s)))
      eqn:Hfirst; [discriminate|].
    rewrite (opened_all _ _ Hfirst).
    intros H. injection H as <-. cbn. repeat split.
Qed.


End Saving.

Lemma save_stops_witness :
  exists s',
    save None "csv" (loaded "ds" 5 false protected_env)
    = Raise (OSError "ds/entity_labels.json") s'
    /\ written (env s')
       = [("ds/intent_labels.json", JsonMap [(0%Z, "play"); (1%Z, "weather")])].
Proof.
  destruct (save_stops_at_first_failure
              (loaded "ds" 5 false protected_env) None "csv") as [Hrun _].
  rewrite Hrun. eexists. split; vm_compute; reflexivity.
Defined.

(** ** Slot filling, when it succeeds *)

Section SlotFillingSuccess.
Context {RS : RandomSource}.

Lemma set_set {V} (k : string) (v1 v2 : V) (d : sdict V) :
  sset k v2 (sset k v1 d) = sset k v2 d.
Proof.
  unfold sset. induction d as [|[k' v'] d IH]; cbn.
  - destruct (string_dec k k); [reflexivity | congruence].
  - destruct (string_dec k k') as [->|Hne]; cbn.
    + destruct (string_dec k' k'); [reflexivity | congruence].
    + destruct (string_dec k k'); [congruence|]. now rewrite IH.
Qed.

Lemma set_get_same {V} (k : string) (v : V) (d : sdict V) :
  sget k d = Some v -> sset k v d = d.
Proof.
  unfold sget, sset. induction d as [|[k' v'] d IH]; cbn; [discriminate|].
  destruct (string_dec k k') as [->|Hne].
  - intros H. injection H as ->. reflexivity.
  - intros H. now rewrite IH.
Qed.

Lemma fill_words_known (ents : sdict (list labelled)) (words : list string) :
  (forall word, In word words -> is_placeholder word = true ->
                sget (Str.slice_1_m1 word) ents <> None) ->
  exists slots, fill_words ents words = inr slots.
Proof.
  induction words as [|w words IH]; intros H; [now exists []|].
  destruct IH as [slots Hslots]; [intros w' Hw'; apply H; now right|].
  cbn. unfold fill_word. rewrite Hslots.
  destruct (is_placeholder w) eqn:Hp; [|eauto].
  destruct (sget (Str.slice_1_m1 w) ents) eqn:Hget; [eauto|].
  exfalso. apply (H w); auto. now left.
Qed.

Lemma fills_iff (ents : sdict (list labelled)) (sample : string) :
  fills ents sample
  <-> forall word, In word (Str.split sample) -> is_placeholder word = true ->
                   sget (Str.slice_1_m1 word) ents <> None.
Proof.
  split.
  - intros [slots Hfill] word Hin Hp Hget.
    destruct (fill_words_unknown _ _ _ Hin Hp Hget) as [e He].
    unfold fill_sample in Hfill. congruence.
  - intros H. now apply fill_words_known.
Qed.

Lemma fill_samples_Forall2 (ents : sdict (list labelled)) (samples : list string) :
  forall filled,
    fill_samples ents samples = inr filled ->
    Forall2 (fun sample slots => fill_sample ents sample = inr slots) samples filled.
Proof.
  induction samples as [|x samples IH]; intros filled H; cbn in H.
  - injection H as <-. constructor.
  - destruct (fill_sample ents x) as [e|slots] eqn:Hx; [discriminate|].
    destruct (fill_samples ents samples) as [e|rest]; [discriminate|].
    injection H as <-. constructor; auto.
Qed.

Lemma fill_samples_fills (ents : sdict (list labelled)) (samples : list string) :
  (forall sample, In sample samples -> fills ents sample) ->
  fill_samples ents samples = inr (filled_of ents samples).
Proof.
  unfold filled_of. induction samples as [|x samples IH]; intros H; [reflexivity|].
  cbn. destruct (H x (or_introl eq_refl)) as [slots ->].
  rewrite IH by (intros y Hy; apply H; now right).
  destruct (fill_samples ents samples); reflexivity.
Qed.

Lemma fill_samples_loop (intent : string) (samples : list string) :
  forall (t : State) cur filled,
    sget intent (filled_prompts (self t)) = Some cur ->
    fill_samples (entities (self t)) samples = inr filled ->
    for_each samples (fill_and_append intent) t
    = Ok tt (mkState
               (with_filled_prompts
                  (sset intent (cur ++ filled) (filled_prompts (self t))) (self t))
               (env t)).
Proof.
  induction samples as [|x samples IH]; intros t cur filled Hcur Hfill; cbn in Hfill.
  - injection Hfill as <-. rewrite app_nil_r, set_get_same by exact Hcur.
    destruct t as [[] ?]. reflexivity.
  - destruct (fill_sample (entities (self t)) x) as [e|slots] eqn:Hx; [discriminate|].
    destruct (fill_samples (entities (self t)) samples) as [e|rest] eqn:Hrest;
      [discriminate|].
    injection Hfill as <-.
    cbn [for_each]. unfold bind at 1. unfold fill_and_append at 1.
    unfold bind at 1. unfold get_self at 1. unfold bind at 1.
    rewrite Hcur. cbn [or_raise ret]. unfold bind at 1. rewrite Hx.
    cbn [of_sum ret]. unfold update_self at 1.
    rewrite (IH _ (cur ++ [slots]) rest).
    + unfold with_filled_prompts.
      cbn [self env dataset_path samples_per_intent duplicates entities
           entities_label intents intents_label filled_prompts
           premutated_prompts generated_prompts dataset].
      rewrite set_set, <- app_assoc. reflexivity.
    + cbn. unfold sget, sset. apply DictFacts.get_set_same.
    + cbn. exact Hrest.
Qed.

Lemma slot_filling_loop (ents : sdict (list labelled)) (ints : sdict (list string))
  (ks : list string) :
  (forall k samples sample, sget k ints = Some samples -> In sample samples ->
                            fills ents sample) ->
  forall t,
    entities (self t) = ents -> intents (self t) = ints ->
    (forall k, In k ks -> In k (Dict.keys ints)) ->
    for_each ks (fun intent =>
      update_self (fun d => with_filled_prompts (sset intent [] (filled_prompts d)) d) ;;;
      d <- get_self ;;
      samples <- or_raise (KeyError intent) (sget intent (intents d)) ;;
      for_each samples (fill_and_append intent)) t
    = Ok tt (mkState
               (with_filled_prompts
                  (assign_all (filled_of ents) ints ks (filled_prompts (self t)))
                  (self t))
               (env t)).
Proof.
  intros Hall. induction ks as [|k ks IH]; intros t Hents Hints Hks.
  - destruct t as [[] ?]. reflexivity.
  - destruct (DictFacts.in_keys_get string_dec k _ (Hks k (or_introl eq_refl)))
      as [samples Hget].
    cbn [for_each]. unfold bind at 1. unfold bind at 1. unfold update_self at 1.
    unfold bind at 1. unfold get_self at 1. cbn [self intents with_filled_prompts].
    unfold bind at 1. rewrite Hints. unfold sget at 1. rewrite Hget.
    cbn [or_raise ret].
    rewrite (fill_samples_loop k samples _ [] (filled_of ents samples)).
    + rewrite IH.
      * unfold with_filled_prompts.
        cbn [self env dataset_path samples_per_intent duplicates entities
             entities_label intents intents_label filled_prompts
             premutated_prompts generated_prompts dataset].
        unfold assign_all. cbn [fold_left].
        change (sget k ints = Some samples) in Hget. rewrite Hget.
        cbn [app]. now rewrite set_set.
      * exact Hents.
      * exact Hints.
      * intros k' Hk'. apply Hks. now right.
    + cbn. unfold sget, sset. apply DictFacts.get_set_same.
    + cbn [self entities with_filled_prompts]. rewrite Hents.
      apply fill_samples_fills. intros sample Hs. now apply (Hall k samples).
Qed.

(** What [_slot_filling] returns when every template fills. *)
Lemma slot_filling_run (s : State) :
  (forall k samples sample, sget k (intents (self s)) = Some samples ->
                            In sample samples -> fills (entities (self s)) sample) ->
  _slot_filling s
  = Ok tt (mkState
             (with_filled_prompts
                (assign_all (filled_of (entities (self s))) (intents (self s))
                   (Dict.keys (intents (self s))) (filled_prompts (self s)))
                (self s))
             (env s)).
Proof.
  intros Hall. unfold _slot_filling. unfold bind at 1. unfold get_self at 1.
  now apply slot_filling_loop.
Qed.

(** X18: slot filling returns exactly when every placeholder of every
    template of every intent names a loaded entity group. *)
Theorem slot_filling_succeeds_iff (s : State) :
  (exists t, _slot_filling s = Ok tt t)
  <-> all_known (entities (self s)) (intents (self s)).
Proof.
  split.
  - intros [t Hrun] intent samples sample word Hget Hs Hw Hp.
    pose proof (slot_filling_rule s) as Hrule. rewrite Hrun in Hrule.
    destruct Hrule as [_ Hall]. apply (fills_iff _ sample); auto.
    now apply (Hall intent samples).
  - intros Hknown. eexists. apply slot_filling_run.
    intros k samples sample Hget Hs. apply fills_iff.
    intros word Hw Hp. now apply (Hknown k samples sample word).
Qed.

(** X19: when slot filling returns, every intent holds its filled templates,
    one per template and in the order of the templates, whatever it held
    before; the entries of names that are no intent (left by an earlier
    run) stay as they are, and nothing else of the state changes. *)
Theorem slot_filling_result (s t : State) :
  _slot_filling s = Ok tt t ->
  only_filled s t
  /\ (forall intent samples,
        sget intent (intents (self s)) = Some samples ->
        exists filled,
          sget intent (filled_prompts (self t)) = Some filled
          /\ Forall2 (fun sample slots =>
                        fill_sample (entities (self s)) sample = inr slots)
                     samples filled)
  /\ (forall name,
        ~ In name (Dict.keys (intents (self s))) ->
        sget name (filled_prompts (self t)) = sget name (filled_prompts (self s))).
Proof.
  intros Hrun.
  pose proof (slot_filling_rule s) as Hrule. rewrite Hrun in Hrule.
  destruct Hrule as [Hof Hall].
  rewrite (slot_filling_run s Hall) in Hrun. injection Hrun as <-.
  split; [exact Hof|]. cbn [self filled_prompts with_filled_prompts]. split.
  - intros intent samples Hget. exists (filled_of (entities (self s)) samples).
    split.
    + apply assign_all_in; [|exact Hget]. eapply DictFacts.get_in_keys. exact Hget.
    + apply fill_samples_Forall2. apply fill_samples_fills.
      intros sample Hs. now apply (Hall intent samples).
  - intros name Hout. now apply assign_all_notin.
Qed.

End SlotFillingSuccess.

Lemma slot_filling_result_witness :
  exists filled,
    sget "play" (filled_prompts (self (demo_filled 5 false []))) = Some filled
    /\ Forall2 (fun sample slots =>
                  fill_sample (entities (self (demo_loaded 5 false []))) sample
                  = inr slots)
               ["play {song}"] filled.
Proof.
  destruct (slot_filling_result (demo_loaded 5 false []) (demo_filled 5 false []))
    as (_ & H & _).
  - vm_compute; reflexivity.
  - apply (H "play" ["play {song}"]). vm_compute; reflexivity.
Defined.

(** ** A whole session *)

Section Session.
Context {RS : RandomSource}.

(** [load] returns in every case, and leaves the path, the file system and
    the dataset alone. *)
Lemma load_returns (s : State) :
  exists s1,
    load s = Ok tt s1
    /\ dataset_path (self s1) = dataset_path (self s)
    /\ open_error (env s1) = open_error (env s)
    /\ written (env s1) = written (env s).
Proof.
  unfold load, bind, get_self, get_env, print, update_env, update_self. cbn.
  destruct (isdir (env s) (dataset_path (self s))); eexists;
    (split; [reflexivity|]); cbn; auto.
Qed.

(** X20: when a session of load, generation and save returns, each of the
    three files of [save] could be opened, and the session has added
    exactly these three to the files written: the two label maps and the
    dataset of the object as the session leaves it, the dataset last. *)
Theorem session_output (path : string) (samples : Z) (dup : bool)
  (save_path : option string) (form : string) (e : Env) (s' : State) :
  session path samples dup save_path form e = Ok tt s' ->
  open_error e (save_dir save_path (__init__ path samples dup)
                ++ "/intent_labels.json") = None
  /\ open_error e (save_dir save_path (__init__ path samples dup)
                   ++ "/entity_labels.json") = None
  /\ open_error e (save_dir save_path (__init__ path samples dup)
                   ++ dataset_file form) = None
  /\ written (env s')
     = written e
       ++ [((save_dir save_path (__init__ path samples dup)
             ++ "/intent_labels.json")%string,
            JsonMap (intents_label (self s')));
           ((save_dir save_path (__init__ path samples dup)
             ++ "/entity_labels.json")%string,
            JsonMap (entities_label (self s')));
           ((save_dir save_path (__init__ path samples dup)
             ++ dataset_file form)%string,
            Frame (dataset (self s')))].
Proof.
  unfold session. unfold bind at 1.
  destruct (load_returns (mkState (__init__ path samples dup) e))
    as (s1 & Hload & Hpath & Hopen & Hwr).
  rewrite Hload. unfold bind at 1.
  pose proof (genrate_dataset_frame s1) as Hext.
  destruct (genrate_dataset s1) as [[] s2|x s2]; [|discriminate].
  cbn [final] in Hext.
  destruct Hext as (Ho2 & Hp2 & _ & _ & _ & _ & _ & _ & _ & _ & Hw2 & _ & _).
  assert (Hsd : save_dir save_path (self s2)
                = save_dir save_path (__init__ path samples dup)).
  { unfold save_dir. destruct save_path; [reflexivity|].
    rewrite Hp2, Hpath. reflexivity. }
  rewrite save_run. cbv zeta.
  destruct (first_failure (env s2) (save_files save_path form (self s2)))
    eqn:Hfirst; [discriminate|].
  rewrite (opened_all _ _ Hfirst).
  apply first_failure_none in Hfirst.
  unfold save_files in *. rewrite Hsd in *.
  intros H. injection H as <-.
  rewrite Ho2, Hopen in Hfirst. cbn [env open_error] in Hfirst.
  inversion Hfirst as [|? ? H1 Hrest]; subst.
  inversion Hrest as [|? ? H2 Hrest']; subst.
  inversion Hrest' as [|? ? H3 _]; subst.
  cbn [fst] in *.
  repeat (split; [assumption|]).
  cbn [self env written with_written]. rewrite Hw2, Hwr. reflexivity.
Qed.

End Session.

Lemma session_output_witness :
  open_error (demo_env []) "ds/dataset.csv" = None
  /\ map fst (written (env (final (session "ds" 5 false None "csv" (demo_env [])))))
     = ["ds/intent_labels.json"; "ds/entity_labels.json"; "ds/dataset.csv"].
Proof.
  destruct (session_output "ds" 5 false None "csv" (demo_env [])
              (final (session "ds" 5 false None "csv" (demo_env []))))
    as (_ & _ & Hopen & Hw).
  - vm_compute; reflexivity.
  - split; [exact Hopen|]. rewrite Hw. vm_compute; reflexivity.
Defined.

(** ** The whole output, when every intent is short *)

Section PipelineOutput.
Context {RS : RandomSource}.

Lemma get_app_fresh {V} (k : string) (v : V) (pre suf : sdict V) :
  ~ In k (Dict.keys pre) -> sget k (pre ++ (k, v) :: suf) = Some v.
Proof.
  unfold sget. induction pre as [|[k' v'] pre IH]; cbn; intros H.
  - destruct (string_dec k k); congruence.
  - destruct (string_dec k k') as [->|_]; [tauto|]. apply IH. tauto.
Qed.

Lemma keys_on_value {V W} (f : V -> W) (d : sdict V) :
  Dict.keys (map (on_value f) d) = Dict.keys d.
Proof. unfold Dict.keys. rewrite map_map. reflexivity. Qed.

Lemma NoDup_keys_middle {V} (k : string) (v : V) (pre suf : sdict V) :
  NoDup (Dict.keys (pre ++ (k, v) :: suf)) -> ~ In k (Dict.keys pre).
Proof.
  unfold Dict.keys. rewrite map_app. cbn. intros H Hin.
  apply NoDup_remove_2 in H. apply H. apply in_or_app. now left.
Qed.

Lemma assign_all_map_loop {V W} (f : V -> W) (suf : sdict V) : forall pre,
  NoDup (Dict.keys (pre ++ suf)) ->
  assign_all f (pre ++ suf) (Dict.keys suf) (map (on_value f) pre)
  = map (on_value f) (pre ++ suf).
Proof.
  induction suf as [|[k v] suf IH]; intros pre Hnd.
  - now rewrite app_nil_r.
  - pose proof (NoDup_keys_middle k v pre suf Hnd) as Hfresh.
    unfold assign_all. cbn [Dict.keys map fst fold_left].
    rewrite get_app_fresh by exact Hfresh.
    unfold sset. rewrite DictFacts.set_fresh by (now rewrite keys_on_value).
    change (map (on_value f) pre ++ [(k, f v)])
      with (map (on_value f) pre ++ map (on_value f) [(k, v)]).
    rewrite <- map_app.
    replace (pre ++ (k, v) :: suf) with ((pre ++ [(k, v)]) ++ suf) in *
      by (now rewrite <- app_assoc).
    apply (IH (pre ++ [(k, v)])). exact Hnd.
Qed.

(** A loop that copies a dictionary into an empty one, over all its keys. *)
Lemma assign_all_map {V W} (f : V -> W) (src : sdict V) :
  NoDup (Dict.keys src) ->
  assign_all f src (Dict.keys src) [] = map (on_value f) src.
Proof. intros H. exact (assign_all_map_loop f src [] H). Qed.

Lemma list_index_middle (k : string) (l1 l2 : list string) :
  ~ In k l1 -> list_index k (l1 ++ k :: l2) = Some (List.length l1).
Proof.
  induction l1 as [|y l1 IH]; cbn; intros H.
  - destruct (string_dec k k); congruence.
  - destruct (string_dec y k) as [->|_]; [tauto|].
    rewrite IH by tauto. reflexivity.
Qed.

Lemma load_raw_NoDup (files : list File) (assign_ids : bool) :
  NoDup (Dict.keys (_load_raw files assign_ids)).
Proof.
  unfold _load_raw. rewrite load_raw_loop_keys.
  apply (first_occurrences_loop (map stem files) [] (NoDup_nil _)).
Qed.

Lemma loaded_config (path : string) (samples : Z) (dup : bool) (e : Env) :
  duplicates (self (loaded path samples dup e)) = dup
  /\ samples_per_intent (self (loaded path samples dup e)) = samples
  /\ NoDup (Dict.keys (intents (self (loaded path samples dup e)))).
Proof.
  unfold loaded, load, bind, get_self, get_env. cbn.
  destruct (isdir e path); cbn; repeat split; [|constructor].
  exact (load_raw_NoDup (glob e (path ++ "/*/intents/*.intent")%string) false).
Qed.

Lemma sampling_loop (ents : sdict (list labelled)) (ints : sdict (list string))
  (suf : sdict (list string)) :
  forall (pre : sdict (list string)) (t : State),
    ints = pre ++ suf ->
    NoDup (Dict.keys ints) ->
    generated_prompts (self t) = map (on_value (utterances_of ents)) ints ->
    Dict.values (intents_label (self t)) = Dict.keys ints ->
    duplicates (self t) = false ->
    (forall kv, In kv suf ->
       (Z.of_nat (List.length (utterances_of ents (snd kv)))
        < samples_per_intent (self t))%Z) ->
    for_each (Dict.keys suf) sample_category t
    = Ok tt (mkState
               (with_dataset
                  (dataset (self t) ++ examples_from ents (List.length pre) suf)
                  (self t))
               (with_stdout (stdout (env t) ++ messages_from ents suf) (env t))).
Proof.
  induction suf as [|[k tpl] suf IH]; intros pre t Hints Hnd Hgen Hlab Hdup Hshort.
  - cbn. rewrite !app_nil_r. destruct t as [[] []]. reflexivity.
  - assert (Hfresh : ~ In k (Dict.keys pre))
      by (apply (NoDup_keys_middle k tpl pre suf); now rewrite <- Hints).
    assert (Hget : sget k (generated_prompts (self t))
                   = Some (utterances_of ents tpl)).
    { rewrite Hgen, Hints, map_app. cbn [map].
      apply (get_app_fresh k (utterances_of ents tpl)).
      now rewrite keys_on_value. }
    assert (Hidx : list_index k (Dict.values (intents_label (self t)))
                   = Some (List.length pre)).
    { rewrite Hlab, Hints. unfold Dict.keys. rewrite map_app. cbn [map fst].
      rewrite list_index_middle by exact Hfresh. now rewrite length_map. }
    cbn [Dict.keys map fst for_each]. unfold bind.
    rewrite (sample_category_short t k (utterances_of ents tpl) Hget Hdup
               (Hshort (k, tpl) (or_introl eq_refl))).
    rewrite (append_examples_run k _ _ (List.length pre)) by (intros _; exact Hidx).
    cbn [self env with_dataset with_stdout stdout dataset].
    change (map fst suf) with (Dict.keys suf).
    rewrite (IH (pre ++ [(k, tpl)])).
    + unfold with_dataset, with_stdout.
      cbn [self env dataset_path samples_per_intent duplicates entities
           entities_label intents intents_label filled_prompts
           premutated_prompts generated_prompts dataset stdout isdir glob
           written random_state].
      rewrite length_app, Nat.add_1_r, <- !app_assoc. reflexivity.
    + now rewrite <- app_assoc.
    + exact Hnd.
    + exact Hgen.
    + exact Hlab.
    + exact Hdup.
    + intros kv Hkv. apply Hshort. now right.
Qed.

(** X21: the whole output, for a quota that no intent reaches.  After
    [load], with duplicates disallowed, every placeholder naming a loaded
    group and every intent expanding to fewer labelled utterances than the
    quota, a generation run returns; the dataset is, intent by intent in
    the order of the intents, every labelled utterance of the intent once,
    in the order of its templates and of their products, with the position
    of the intent as index; one shortfall message is printed per intent;
    and no draw is made. *)
Theorem pipeline_output_when_short (path : string) (samples : Z) (e : Env) :
  all_known (entities (self (loaded path samples false e)))
            (intents (self (loaded path samples false e))) ->
  (forall kv,
      In kv (intents (self (loaded path samples false e))) ->
      (Z.of_nat (List.length
                   (utterances_of (entities (self (loaded path samples false e)))
                      (snd kv)))
       < samples)%Z) ->
  exists t,
    genrate_dataset (loaded path samples false e) = Ok tt t
    /\ dataset (self t)
       = examples_from (entities (self (loaded path samples false e))) 0
           (intents (self (loaded path samples false e)))
    /\ stdout (env t)
       = stdout (env (loaded path samples false e))
         ++ messages_from (entities (self (loaded path samples false e)))
              (intents (self (loaded path samples false e)))
    /\ random_state (env t) = random_state (env (loaded path samples false e)).
Proof.
  destruct (load_fresh path samples false e) as (Hfp & Hpp & Hgp & Hds & _).
  destruct (loaded_config path samples false e) as (Hdup & Hq & Hnd).
  pose proof (load_intents_label path samples false e) as Hlab.
  remember (loaded path samples false e) as s0 eqn:Hs0. clear Hs0.
  intros Hknown Hshort.
  assert (Hall : forall k tpls sample,
            sget k (intents (self s0)) = Some tpls -> In sample tpls ->
            fills (entities (self s0)) sample).
  { intros k tpls sample Hget Hs. apply fills_iff. intros word Hw Hp.
    now apply (Hknown k tpls sample word). }
  pose proof (slot_filling_run s0 Hall) as Hrun.
  rewrite (genrate_dataset_steps s0 _ Hrun).
  set (ents := entities (self s0)) in *. set (ints := intents (self s0)) in *.
  assert (Hgen : generated_prompts
                   (expanded
                      (with_filled_prompts
                         (assign_all (filled_of ents) ints (Dict.keys ints)
                            (filled_prompts (self s0)))
                         (self s0)))
                 = map (on_value (utterances_of ents)) ints).
  { unfold expanded.
    cbn [generated_prompts premutated_prompts filled_prompts
         with_generated_prompts with_premutated_prompts with_filled_prompts].
    rewrite Hfp, Hpp, Hgp.
    rewrite (assign_all_map (filled_of ents) ints Hnd).
    rewrite (assign_all_map permutations_of) by (now rewrite keys_on_value).
    rewrite (assign_all_map category_prompts_of)
      by (now rewrite !keys_on_value).
    rewrite !map_map. reflexivity. }
  unfold _generate_dataset. unfold bind at 1. unfold get_self at 1.
  cbn [self env]. rewrite Hgen, keys_on_value.
  rewrite (sampling_loop ents ints ints []).
  - eexists. split; [reflexivity|].
    unfold expanded.
    cbn [self env dataset stdout random_state with_dataset with_stdout
         with_generated_prompts with_premutated_prompts with_filled_prompts
         List.length].
    rewrite Hds. repeat split.
  - reflexivity.
  - exact Hnd.
  - cbn [self]. exact Hgen.
  - unfold expanded. cbn. exact Hlab.
  - unfold expanded. cbn. exact Hdup.
  - intros kv Hkv. unfold expanded. cbn. rewrite Hq. now apply Hshort.
Qed.

End PipelineOutput.

Lemma pipeline_output_witness :
  exists t,
    genrate_dataset (loaded "ds" 5 false (demo_env [])) = Ok tt t
    /\ dataset (self t)
       = [mkExample "play yesterday" 0 [0%Z; 1%Z];
          mkExample "play let it be" 0 [0%Z; 1%Z; 1%Z; 1%Z];
          mkExample "weather in new york" 1 [0%Z; 0%Z; 2%Z; 2%Z];
          mkExample "weather in" 1 [0%Z; 0%Z]].
Proof.
  destruct (pipeline_output_when_short "ds" 5 (demo_env [])) as (t & Hrun & Hds & _).
  - intros intent tpls sample word Hget Hs Hw Hp.
    assert (Hin : In (intent, tpls) (intents (self (loaded "ds" 5 false (demo_env [])))))
      by (apply (DictFacts.get_in string_dec); exact Hget).
    vm_compute in Hin.
    destruct Hin as [Hin|[Hin|[]]]; injection Hin as <- <-;
      (destruct Hs as [<-|[]]); vm_compute in Hw;
      repeat (destruct Hw as [<-|Hw]; [try discriminate Hp; vm_compute; discriminate|]);
      destruct Hw.
  - intros kv Hin. vm_compute in Hin.
    destruct Hin as [<-|[<-|[]]]; vm_compute; reflexivity.
  - exists t. split; [exact Hrun|]. rewrite Hds. vm_compute; reflexivity.
Defined.
